(** * Seat-lock reservation engine of [admin.js]

    A shallow embedding of the seat-lock endpoints of the ticketing
    backend: [GET /api/locks], [POST /api/locks/hold] and the
    settlement part of [POST /api/payment/webhook].

    Modelling conventions.
    - Seat numbers are integers ([Z]); table ids and hold ids are strings,
      held as their UTF-8 bytes. The elements of [seats] arrive typed, so
      [String(s.tableId)] and [Number(s.seatNo)] are the identity, or are
      [null]; finite [ttlSec] values are whole numbers. The status of a
      payment arrives as any JSON value. The store compares strings
      exactly.
    - Time is a number of milliseconds ([Z]); the JavaScript clock
      [Date.now()] and the SQL clock [NOW()] read the same instant within
      one request. A [Date] holds at most 8.64e15 milliseconds on either
      side of the epoch; what the store keeps for an Invalid Date is a
      parameter of the request's environment.
    - A SQL table is the list of its rows, in insertion order. The unique
      key (event_id, table_id, seat_no) of both lock tables is what gives
      [INSERT ... ON DUPLICATE KEY UPDATE] its meaning.
    - A JavaScript [Map] is an association list in insertion order. *)

From Stdlib Require Import ZArith List String Ascii Bool Lia.
From Stdlib Require Import Sorting.Sorted.
Import ListNotations.
Open Scope string_scope.
Open Scope list_scope.
Open Scope Z_scope.

(** ** Seat keys *)

Record SeatKey := mkSeat { tableId : string; seatNo : Z }.

Definition SeatKey_eqb (a b : SeatKey) : bool :=
  String.eqb (tableId a) (tableId b) && (seatNo a =? seatNo b).

Inductive Mode := full | partial.

Record Group := mkGroup { gtableId : string; mode : Mode; seats : list Z }.

(** ** A JavaScript [Map] from table id to an array of seat numbers *)

Module JsMap.

Definition t := list (string * list Z).

Fixpoint has (k : string) (m : t) : bool :=
  match m with
  | [] => false
  | (k', _) :: m' => if String.eqb k' k then true else has k m'
  end.

Fixpoint get (k : string) (m : t) : list Z :=
  match m with
  | [] => []
  | (k', v) :: m' => if String.eqb k' k then v else get k m'
  end.

(** [set] keeps the position of an existing key and appends a new one. *)
Fixpoint set (k : string) (v : list Z) (m : t) : t :=
  match m with
  | [] => [(k, v)]
  | (k', v') :: m' =>
      if String.eqb k' k then (k', v) :: m' else (k', v') :: set k v m'
  end.

Definition keys (m : t) : list string := map fst m.

End JsMap.

(** ** Arrays of numbers: [new Set], [sort], [includes], [every], [filter] *)

Definition includes (x : Z) (l : list Z) : bool := existsb (Z.eqb x) l.

(** [Array.from(new Set(arr))]: first occurrences, in order. *)
Fixpoint uniqFrom (seen : list Z) (arr : list Z) : list Z :=
  match arr with
  | [] => []
  | x :: r =>
      if includes x seen then uniqFrom seen r else x :: uniqFrom (x :: seen) r
  end.

Definition arrayFromSet (arr : list Z) : list Z := uniqFrom [] arr.

(** [sort((a, b) => a - b)]: a stable insertion sort driven by the sign of
    the comparator. *)
Fixpoint sortInsert (x : Z) (l : list Z) : list Z :=
  match l with
  | [] => [x]
  | y :: r => if y - x <=? 0 then y :: sortInsert x r else x :: y :: r
  end.

Definition sortAsc (l : list Z) : list Z :=
  fold_left (fun acc x => sortInsert x acc) l [].

(** [nums.every((x, i) => x === i + 1)], with the index counted from [i]. *)
Fixpoint everyFrom (i : Z) (nums : list Z) : bool :=
  match nums with
  | [] => true
  | x :: r => (x =? i + 1) && everyFrom (i + 1) r
  end.

(** ** [normalizeGroups] *)

(** The loop body of "Group incoming by table". *)
Definition groupSeat (byTable : JsMap.t) (s : SeatKey) : JsMap.t :=
  let t := tableId s in
  let n := seatNo s in
  let byTable1 := if JsMap.has t byTable then byTable else JsMap.set t [] byTable in
  JsMap.set t (JsMap.get t byTable1 ++ [n]) byTable1.

Definition groupByTable (seats : list SeatKey) : JsMap.t :=
  fold_left groupSeat seats [].

Definition normalizeEntry (e : string * list Z) : Group :=
  let (tableId, arr) := e in
  let nums := sortAsc (arrayFromSet arr) in
  let hasZero := includes 0 nums in
  let isFull :=
    hasZero || ((Z.of_nat (List.length nums) =? 10) && everyFrom 0 nums) in
  if isFull then mkGroup tableId full [0]
  else mkGroup tableId partial (filter (fun n => 0 <? n) nums).

Definition normalizeGroups (byTable : JsMap.t) : list Group :=
  map normalizeEntry byTable.

Definition normalize (seats : list SeatKey) : list Group :=
  normalizeGroups (groupByTable seats).

(** The seat keys a list of groups resolves to (the [seats] field of the
    success response). *)
Definition groupSeats (g : Group) : list SeatKey :=
  match mode g with
  | full => [mkSeat (gtableId g) 0]
  | partial => map (fun n => mkSeat (gtableId g) n) (seats g)
  end.

Definition resolvedSeats (groups : list Group) : list SeatKey :=
  flat_map groupSeats groups.

(** ** [expand] *)

(** [Array.from({ length: 10 }, (_, i) => ({ tableId, seatNo: i + 1 }))] *)
Definition tenSeats (t : string) : list SeatKey :=
  map (fun i => mkSeat t (Z.of_nat i + 1)) (seq 0 10).

Definition expandRow (r : SeatKey) : list SeatKey :=
  if seatNo r =? 0 then tenSeats (tableId r)
  else [mkSeat (tableId r) (seatNo r)].

Definition expand (rows : list SeatKey) : list SeatKey :=
  flat_map expandRow rows.

(** ** Strings: [toString(36)], [slice], [toUpperCase] *)

Definition digit36 (d : Z) : ascii :=
  match get (Z.to_nat d) "0123456789abcdefghijklmnopqrstuvwxyz" with
  | Some c => c
  | None => "0"%char
  end.

Fixpoint toString36From (fuel : nat) (n : Z) (acc : string) : string :=
  match fuel with
  | O => acc
  | S fuel' =>
      let acc' := String (digit36 (n mod 36)) acc in
      if n / 36 =? 0 then acc' else toString36From fuel' (n / 36) acc'
  end.

(** [n.toString(36)] for a non-negative integer [n]. *)
Definition toString36 (n : Z) : string :=
  toString36From (S (Z.to_nat (Z.log2 n))) n "".

(** [toUpperCase] is applied to ASCII text, and to a first character
    that is compared with the letters A to E: ASCII letters are mapped,
    the other bytes, none of which stands for a character whose upper
    case is such a letter, are kept. *)
Definition upperChar (c : ascii) : ascii :=
  let n := nat_of_ascii c in
  if ((97 <=? n) && (n <=? 122))%nat then ascii_of_nat (n - 32) else c.

Fixpoint toUpperCase (s : string) : string :=
  match s with
  | EmptyString => EmptyString
  | String c r => String (upperChar c) (toUpperCase r)
  end.

(** [s.slice(i, j)] for [0 <= i <= j]. *)
Definition slice (i j : nat) (s : string) : string := substring i (j - i) s.

(** [arr.join(sep)] *)
Fixpoint join (sep : string) (l : list string) : string :=
  match l with
  | [] => ""
  | [x] => x
  | x :: r => String.append x (String.append sep (join sep r))
  end.

(** JavaScript truthiness of an optional string, and [a !== b] between a
    string column and an optional string. *)
Definition truthy (h : option string) : bool :=
  match h with
  | Some s => negb (String.eqb s "")
  | None => false
  end.

Definition strictNeq (s : string) (h : option string) : bool :=
  match h with
  | Some s' => negb (String.eqb s s')
  | None => true
  end.

(** ** The relational store *)

(** A row of [seat_locks] (a temporary hold).

    Modelled from the spec: the schema of [seat_locks] is not part of the
    source. Its unique key, the one [ON DUPLICATE KEY UPDATE] refers to, is
    (eventId, tableId, seatNo) ("Unique per (eventId, tableId, seatNo)");
    [hasKey] is the test for it. *)
Module Lock.
Record t := mk {
  event_id : string;
  table_id : string;
  seat_no : Z;
  hold_id : string;
  expires_at : Z;
  created_at : Z
}.
Definition hasKey (e tb : string) (n : Z) (r : t) : bool :=
  String.eqb (event_id r) e && String.eqb (table_id r) tb && (seat_no r =? n).
Definition key (r : t) : string * string * Z :=
  (event_id r, table_id r, seat_no r).
Definition seat (r : t) : SeatKey := mkSeat (table_id r) (seat_no r).
End Lock.

(** A row of [done_seatlocks] (a permanent allocation).

    Modelled from the spec: the schema of [done_seatlocks] is not part of
    the source either. Its unique key is (eventId, tableId, seatNo). *)
Module Done.
Record t := mk {
  event_id : string;
  order_id : Z;
  table_id : string;
  seat_no : Z
}.
Definition hasKey (e tb : string) (n : Z) (r : t) : bool :=
  String.eqb (event_id r) e && String.eqb (table_id r) tb && (seat_no r =? n).
Definition key (r : t) : string * string * Z :=
  (event_id r, table_id r, seat_no r).
Definition seat (r : t) : SeatKey := mkSeat (table_id r) (seat_no r).
End Done.

(** The columns of [orders] and [order_items] the settlement path reads. *)
Module Order.
Record t := mk {
  id : Z;
  ipg_tx_id : option string;
  status : string;
  hold_id : option string
}.
End Order.

Module Item.
Record t := mk {
  order_id : Z;
  item_type : string;
  table_id : option string;
  seat_no : option Z
}.
End Item.

Record Db := mkDb {
  seat_locks : list Lock.t;
  done_seatlocks : list Done.t;
  orders : list Order.t;
  order_items : list Item.t
}.

Definition withLocks (f : list Lock.t -> list Lock.t) (db : Db) : Db :=
  mkDb (f (seat_locks db)) (done_seatlocks db) (orders db) (order_items db).

Definition withDone (f : list Done.t -> list Done.t) (db : Db) : Db :=
  mkDb (seat_locks db) (f (done_seatlocks db)) (orders db) (order_items db).

Definition withOrders (f : list Order.t -> list Order.t) (db : Db) : Db :=
  mkDb (seat_locks db) (done_seatlocks db) (f (orders db)) (order_items db).

(** *** Statements on [seat_locks] *)

(** [DELETE FROM seat_locks WHERE expires_at < NOW()] *)
Definition deleteExpired (now : Z) : Db -> Db :=
  withLocks (filter (fun r => negb (Lock.expires_at r <? now))).

(** [SELECT table_id AS tableId, seat_no AS seatNo FROM seat_locks
     WHERE event_id='default' AND expires_at > NOW()] *)
Definition selectActiveLocks (now : Z) (db : Db) : list SeatKey :=
  map Lock.seat
    (filter (fun r => String.eqb (Lock.event_id r) "default"
                      && (now <? Lock.expires_at r))
            (seat_locks db)).

(** [SELECT seat_no, hold_id FROM seat_locks
     WHERE event_id=? AND table_id=? AND expires_at > NOW()] *)
Definition selectTableLocks (eventId tableId : string) (now : Z) (db : Db)
  : list Lock.t :=
  filter (fun r => String.eqb (Lock.event_id r) eventId
                   && String.eqb (Lock.table_id r) tableId
                   && (now <? Lock.expires_at r))
         (seat_locks db).

(** The row-constructor test [(table_id, seat_no) IN ((?, ?), ...)]. *)
Definition inPairs (tb : string) (n : Z) (pairs : list (string * Z)) : bool :=
  existsb (fun p => String.eqb tb (fst p) && (n =? snd p)) pairs.

(** [SELECT ... FROM seat_locks WHERE event_id=? AND expires_at > NOW() AND
     ((table_id = ? AND seat_no = 0) OR (table_id, seat_no) IN (${pairsSql}))].
    The engine rejects the statement when the spliced list is empty:
    [IN ()] is not in the SQL grammar. *)
Definition selectSeatLocks (pairsSql : string) (eventId tableId : string)
    (pairsArgs : list (string * Z)) (now : Z) (db : Db) : option (list Lock.t) :=
  if String.eqb pairsSql "" then None
  else Some (filter (fun r =>
               String.eqb (Lock.event_id r) eventId
               && (now <? Lock.expires_at r)
               && ((String.eqb (Lock.table_id r) tableId && (Lock.seat_no r =? 0))
                   || inPairs (Lock.table_id r) (Lock.seat_no r) pairsArgs))
             (seat_locks db)).

(** [INSERT INTO seat_locks (...) VALUES (?, ?, ?, ?, ?, NOW())
     ON DUPLICATE KEY UPDATE hold_id=VALUES(hold_id),
                             expires_at=VALUES(expires_at)] *)
Fixpoint upsertLockRows (e tb : string) (n : Z) (h : string) (x now : Z)
    (rows : list Lock.t) : list Lock.t :=
  match rows with
  | [] => [Lock.mk e tb n h x now]
  | r :: rows' =>
      if Lock.hasKey e tb n r
      then Lock.mk (Lock.event_id r) (Lock.table_id r) (Lock.seat_no r) h x
                   (Lock.created_at r) :: rows'
      else r :: upsertLockRows e tb n h x now rows'
  end.

Definition upsertLock (e tb : string) (n : Z) (h : string) (x now : Z)
  : Db -> Db :=
  withLocks (upsertLockRows e tb n h x now).

(** [DELETE FROM seat_locks WHERE hold_id = :holdId] *)
Definition deleteHold (holdId : string) : Db -> Db :=
  withLocks (filter (fun r => negb (String.eqb (Lock.hold_id r) holdId))).

(** *** Statements on [done_seatlocks] *)

(** [SELECT table_id AS tableId, seat_no AS seatNo FROM done_seatlocks
     WHERE event_id='default'] *)
Definition selectPaid (db : Db) : list SeatKey :=
  map Done.seat
    (filter (fun r => String.eqb (Done.event_id r) "default")
            (done_seatlocks db)).

(** [SELECT 1 FROM done_seatlocks WHERE event_id=? AND table_id=? LIMIT 1] *)
Definition selectPaidAny (eventId tableId : string) (db : Db) : list Done.t :=
  firstn 1
    (filter (fun r => String.eqb (Done.event_id r) eventId
                      && String.eqb (Done.table_id r) tableId)
            (done_seatlocks db)).

(** [SELECT table_id AS tableId, seat_no AS seatNo FROM done_seatlocks
     WHERE event_id=? AND ((table_id = ? AND seat_no = 0) OR
                           (table_id, seat_no) IN (${pairsSql}))] *)
Definition selectPaidSeats (pairsSql : string) (eventId tableId : string)
    (pairsArgs : list (string * Z)) (db : Db) : option (list SeatKey) :=
  if String.eqb pairsSql "" then None
  else Some (map Done.seat
          (filter (fun r =>
               String.eqb (Done.event_id r) eventId
               && ((String.eqb (Done.table_id r) tableId && (Done.seat_no r =? 0))
                   || inPairs (Done.table_id r) (Done.seat_no r) pairsArgs))
             (done_seatlocks db))).

(** [INSERT INTO done_seatlocks (event_id, order_id, table_id, seat_no)
     VALUES ('default', :orderId, :tableId, :seatNo)
     ON DUPLICATE KEY UPDATE event_id = VALUES(event_id)] *)
Fixpoint insertDoneRows (orderId : Z) (tb : string) (n : Z)
    (rows : list Done.t) : list Done.t :=
  match rows with
  | [] => [Done.mk "default" orderId tb n]
  | r :: rows' =>
      if Done.hasKey "default" tb n r
      then Done.mk "default" (Done.order_id r) (Done.table_id r) (Done.seat_no r)
             :: rows'
      else r :: insertDoneRows orderId tb n rows'
  end.

Definition insertDone (orderId : Z) (tb : string) (n : Z) : Db -> Db :=
  withDone (insertDoneRows orderId tb n).

(** *** Statements on [orders] and [order_items] *)

(** [SELECT * FROM orders WHERE ipg_tx_id = :lookupKey LIMIT 1 FOR UPDATE] *)
Definition selectOrder (lookupKey : string) (db : Db) : list Order.t :=
  firstn 1
    (filter (fun o => match Order.ipg_tx_id o with
                      | Some k => String.eqb k lookupKey
                      | None => false
                      end)
            (orders db)).

(** [UPDATE orders SET status = ... WHERE id = :orderId] *)
Definition setOrderStatus (st : string) (orderId : Z) : Db -> Db :=
  withOrders (map (fun o =>
    if Order.id o =? orderId
    then Order.mk (Order.id o) (Order.ipg_tx_id o) st (Order.hold_id o)
    else o)).

(** [SELECT * FROM order_items WHERE order_id = :orderId] *)
Definition selectItems (orderId : Z) (db : Db) : list Item.t :=
  filter (fun it => Item.order_id it =? orderId) (order_items db).

(** ** Connections and request handlers *)

(** A pooled connection: the committed database, the connection's working
    copy, and whether a transaction is open. Outside a transaction every
    statement commits at once. *)
Record Conn := mkConn { committed : Db; working : Db; inTransaction : bool }.

Definition getConnection (db : Db) : Conn := mkConn db db false.

Section Handlers.

(** [R] is the type of HTTP responses of the endpoint. *)
Context {R : Type}.

(** What running a piece of a handler leads to: it falls through with a
    value, it returns a response, or it throws. *)
Inductive Outcome (A : Type) :=
| Next (a : A)
| Reply (r : R)
| Throw.

Definition Handler (A : Type) := Conn -> Outcome A * Conn.

Definition ret {A} (a : A) : Handler A := fun c => (Next A a, c).

Definition bind {A B} (h : Handler A) (k : A -> Handler B) : Handler B :=
  fun c =>
    match h c with
    | (Next _ a, c') => k a c'
    | (Reply _ r, c') => (Reply B r, c')
    | (Throw _, c') => (Throw B, c')
    end.

Definition reply {A} (r : R) : Handler A := fun c => (Reply A r, c).

Definition throw {A} : Handler A := fun c => (Throw A, c).

(** [try { body } catch { handler }] *)
Definition tryCatch {A} (body handler : Handler A) : Handler A :=
  fun c =>
    match body c with
    | (Throw _, c') => handler c'
    | other => other
    end.

(** [await conn.execute(<SELECT>)]: reads the working copy; [None] is a
    statement the engine rejects. *)
Definition query {A} (q : Db -> option A) : Handler A :=
  fun c =>
    match q (working c) with
    | Some a => (Next A a, c)
    | None => (Throw A, c)
    end.

(** [await conn.execute(<INSERT/UPDATE/DELETE>)] *)
Definition execute (f : Db -> Db) : Handler unit :=
  fun c =>
    let w := f (working c) in
    (Next unit tt,
     if inTransaction c then mkConn (committed c) w true else mkConn w w false).

Definition beginTransaction : Handler unit :=
  fun c => (Next unit tt, mkConn (committed c) (committed c) true).

Definition commit : Handler unit :=
  fun c => (Next unit tt, mkConn (working c) (working c) false).

Definition rollback : Handler unit :=
  fun c => (Next unit tt, mkConn (committed c) (committed c) false).

(** [for (const x of l) { body(x) }] *)
Fixpoint forEach {X} (l : list X) (body : X -> Handler unit) : Handler unit :=
  match l with
  | [] => ret tt
  | x :: l' => bind (body x) (fun _ => forEach l' body)
  end.

(** Run a handler against the database on a fresh connection: the
    response it sent, if any, and the database it leaves behind. *)
Definition serve (h : Handler unit) (db : Db) : option R * Db :=
  match h (getConnection db) with
  | (Reply _ r, c) => (Some r, committed c)
  | (_, c) => (None, committed c)
  end.

End Handlers.

Arguments Next {R A} a.
Arguments Reply {R A} r.
Arguments Throw {R A}.

Notation "x <- h ;; k" := (bind h (fun x => k))
  (at level 61, h at next level, right associativity).
Notation "h ;; k" := (bind h (fun _ => k))
  (at level 61, right associativity).

(** ** [GET /api/locks] *)

Inductive LocksResponse :=
| LocksOk (locks : list SeatKey)
| LocksFailed (message : string).

Definition listActiveHandler (now : Z) : Handler (R := LocksResponse) unit :=
  tryCatch
    (execute (deleteExpired now) ;;
     temp <- query (fun db => Some (selectActiveLocks now db)) ;;
     paid <- query (fun db => Some (selectPaid db)) ;;
     let locks := expand temp ++ expand paid in
     reply (LocksOk locks))
    (reply (LocksFailed "locks_fetch_failed")).

Definition listActive (now : Z) (db : Db) : option LocksResponse * Db :=
  serve (listActiveHandler now) db.

(** ** [POST /api/locks/hold] *)

(** A JavaScript number; finite values are whole numbers here. *)
Inductive JsNumber := NaN | PosInfinity | NegInfinity | Finite (z : Z).

(** The [seats] and [ttlSec] fields of the request body as they arrive:
    missing, of another type, or of the expected type. The elements of
    [SeatsArray] are objects with a table id and a whole seat number;
    [SeatsWithNull] is an array one of whose elements is [null] or
    [undefined], on which reading [s.tableId] throws. *)
Inductive SeatsField :=
| SeatsMissing
| SeatsNotArray
| SeatsArray (l : list SeatKey)
| SeatsWithNull.

Inductive TtlField :=
| TtlMissing
| TtlNotNumber
| TtlNumber (x : JsNumber).

(** [bodyHoldId] is the hold id when it is a string, [None] when it is
    missing. *)
Record Body := mkBody {
  bodySeats : SeatsField;
  bodyTtlSec : TtlField;
  bodyHoldId : option string
}.

(** The request's reading of the clock and of
    [Math.random().toString(36)], and what the driver and the engine make
    of an Invalid Date bound to [expires_at], which the source does not
    fix: the DATETIME that is stored, or [None] when the statement is
    rejected. *)
Record Env := mkEnv { now : Z; random36 : string; invalidDate : option Z }.

(** [HoldOkNoExpiry] is the success response whose [expiresAt] is [null]:
    [Math.floor(NaN)] in JSON. *)
Inductive HoldResponse :=
| Unprocessable (message : string)
| ConflictFound (message : string) (conflicts : list SeatKey)
| HoldOk (holdId : string) (seats : list SeatKey) (expiresAt : Z)
| HoldOkNoExpiry (holdId : string) (seats : list SeatKey)
| ServerError (message : string).

(** [new Date(ms)] is a date when [ms] is at most 8.64e15 milliseconds
    away from the epoch, and an Invalid Date beyond. Up to there the sum
    [Date.now() + ttlSec * 1000] of whole numbers is exact. *)
Definition maxTime : Z := 8640000000000000.

Definition validTime (ms : Z) : bool := (- maxTime <=? ms) && (ms <=? maxTime).

(** Destructuring defaults: [{ seats = [], ttlSec = 600, holdId }]. *)
Definition seatsOrDefault (f : SeatsField) : SeatsField :=
  match f with SeatsMissing => SeatsArray [] | _ => f end.

Definition ttlOrDefault (f : TtlField) : TtlField :=
  match f with TtlMissing => TtlNumber (Finite 600) | _ => f end.

Definition seatsRequired (f : SeatsField) : bool :=
  match f with
  | SeatsArray (_ :: _) | SeatsWithNull => false
  | _ => true
  end.

Definition isFinite (f : TtlField) : bool :=
  match f with TtlNumber (Finite _) => true | _ => false end.

Definition ttlInvalid (f : TtlField) : bool :=
  negb (isFinite f)
  || match f with TtlNumber (Finite z) => z <=? 0 | _ => false end.

Definition generateHoldId (env : Env) : string :=
  toUpperCase
    (String.append "H"
       (String.append (toString36 (now env)) (slice 2 8 (random36 env)))).

(** [holdId || <generated>] *)
Definition newHoldId (env : Env) (holdId : option string) : string :=
  match holdId with
  | Some h => if truthy holdId then h else generateHoldId env
  | None => generateHoldId env
  end.

Definition pairsSql (g : Group) : string :=
  join "," (map (fun _ => "(?, ?)") (seats g)).

(** Each pair stands for two consecutive bound parameters. *)
Definition pairsArgs (g : Group) : list (string * Z) :=
  map (fun n => (gtableId g, n)) (seats g).

Definition nonEmpty {A} (l : list A) : bool :=
  match l with [] => false | _ => true end.

(** The body of the "Conflict checks" loop. *)
Definition checkGroup (eventId : string) (holdId : option string) (now : Z)
    (g : Group) : Handler (R := HoldResponse) unit :=
  match mode g with
  | full =>
      paidAny <- query (fun db => Some (selectPaidAny eventId (gtableId g) db)) ;;
      if nonEmpty paidAny then
        rollback ;;
        reply (ConflictFound "Some seats already sold" [mkSeat (gtableId g) 0])
      else
        tmpAny <- query (fun db =>
                    Some (selectTableLocks eventId (gtableId g) now db)) ;;
        let tmpConflict :=
          existsb (fun r => strictNeq (Lock.hold_id r) holdId) tmpAny in
        if tmpConflict then
          rollback ;;
          reply (ConflictFound "Some seats already held" [mkSeat (gtableId g) 0])
        else ret tt
  | partial =>
      paidRows <- query (selectPaidSeats (pairsSql g) eventId (gtableId g)
                           (pairsArgs g)) ;;
      if nonEmpty paidRows then
        rollback ;;
        reply (ConflictFound "Some seats already sold" paidRows)
      else
        tmpRows <- query (selectSeatLocks (pairsSql g) eventId (gtableId g)
                            (pairsArgs g) now) ;;
        let conflicts :=
          filter (fun r => negb (truthy holdId)
                           || strictNeq (Lock.hold_id r) holdId) tmpRows in
        if nonEmpty conflicts then
          rollback ;;
          reply (ConflictFound "Some seats already held" (map Lock.seat conflicts))
        else ret tt
  end.

(** The body of the "Write locks" loop. *)
Definition writeGroup (eventId newHoldId : string) (expiresAt now : Z)
    (g : Group) : Handler (R := HoldResponse) unit :=
  match mode g with
  | full => execute (upsertLock eventId (gtableId g) 0 newHoldId expiresAt now)
  | partial =>
      forEach (seats g) (fun n =>
        execute (upsertLock eventId (gtableId g) n newHoldId expiresAt now))
  end.

(** The "Write locks" loop when the bound expiry is an Invalid Date that
    the store rejects: the first statement throws. *)
Definition rejectGroup (g : Group) : Handler (R := HoldResponse) unit :=
  match mode g with
  | full => throw
  | partial => forEach (seats g) (fun _ => throw)
  end.

Definition holdHandler (env : Env) (seats : list SeatKey) (ttlSec : Z)
    (holdId : option string) : Handler (R := HoldResponse) unit :=
  let eventId := "default" in
  let newHoldId := newHoldId env holdId in
  let time := now env + ttlSec * 1000 in
  let groups := normalize seats in
  tryCatch
    (beginTransaction ;;
     forEach groups (checkGroup eventId holdId (now env)) ;;
     if validTime time then
       forEach groups (writeGroup eventId newHoldId time (now env)) ;;
       commit ;;
       reply (HoldOk newHoldId (resolvedSeats groups) (time / 1000))
     else
       match invalidDate env with
       | Some stored =>
           forEach groups (writeGroup eventId newHoldId stored (now env))
       | None => forEach groups rejectGroup
       end ;;
       commit ;;
       reply (HoldOkNoExpiry newHoldId (resolvedSeats groups)))
    (rollback ;;
     reply (ServerError "hold_failed")).

(** The grouping loop runs before the [try] and before a connection is
    taken: when it throws on a [null] element the handler sends no answer
    ([None]) and the database is not touched. *)
Definition requestHold (env : Env) (body : Body) (db : Db)
  : option HoldResponse * Db :=
  let seats := seatsOrDefault (bodySeats body) in
  let ttlSec := ttlOrDefault (bodyTtlSec body) in
  let holdId := bodyHoldId body in
  if seatsRequired seats then (Some (Unprocessable "seats[] required"), db)
  else if ttlInvalid ttlSec then (Some (Unprocessable "ttlSec invalid"), db)
  else
    match seats, ttlSec with
    | SeatsArray l, TtlNumber (Finite z) => serve (holdHandler env l z holdId) db
    | _, _ => (None, db)
    end.

(** ** JavaScript values read from JSON *)

(** A JSON value, or [undefined] (what reading a missing property
    gives). Numbers are whole numbers of magnitude below 10^21, which
    JavaScript prints in full; from 10^21 on it prints an exponent, which
    [showZ] does not. An object is the list of its own properties, in
    insertion order. *)
#[warnings="-register-all"]
Inductive Json :=
| JUndefined
| JNull
| JBool (b : bool)
| JNum (z : Z)
| JStr (s : string)
| JArr (items : list Json)
| JObj (fields : list (string * Json)).

(** Truthiness, and [a || b]. *)
Definition jsTruthy (j : Json) : bool :=
  match j with
  | JUndefined | JNull => false
  | JBool b => b
  | JNum z => negb (z =? 0)
  | JStr s => negb (String.eqb s "")
  | JArr _ | JObj _ => true
  end.

Definition jsOr (a b : Json) : Json := if jsTruthy a then a else b.

(** Decimal digits of a whole number. *)
Fixpoint showDigitsFrom (fuel : nat) (n : Z) (acc : string) : string :=
  match fuel with
  | O => acc
  | S fuel' =>
      let acc' := String (ascii_of_nat (48 + Z.to_nat (n mod 10))) acc in
      if n / 10 =? 0 then acc' else showDigitsFrom fuel' (n / 10) acc'
  end.

Definition showZ (z : Z) : string :=
  if z <? 0
  then String "-"%char
         (showDigitsFrom (S (Z.to_nat (Z.log2 (- z)))) (- z) "")
  else showDigitsFrom (S (Z.to_nat (Z.log2 z))) z "".

(** [String(x)]; inside, the conversion [Array.prototype.join] applies to
    an element, which turns [null] and [undefined] into the empty
    string. *)
Fixpoint jsString (j : Json) : string :=
  match j with
  | JUndefined => "undefined"
  | JNull => "null"
  | JBool true => "true"
  | JBool false => "false"
  | JNum z => showZ z
  | JStr s => s
  | JArr items =>
      join ","
        ((fix elements (l : list Json) : list string :=
            match l with
            | [] => []
            | x :: r =>
                match x with
                | JUndefined | JNull => ""
                | _ => jsString x
                end :: elements r
            end) items)
  | JObj _ => "[object Object]"
  end.

Definition joinElement (j : Json) : string :=
  match j with
  | JUndefined | JNull => ""
  | _ => jsString j
  end.

(** [arr.join(sep)] on an array of values. *)
Definition jsJoin (sep : string) (l : list Json) : string :=
  join sep (map joinElement l).

(** Property access [data.k] and assignment [data.k = v]. *)
Fixpoint lookupField (k : string) (fields : list (string * Json)) : Json :=
  match fields with
  | [] => JUndefined
  | (k', v) :: r => if String.eqb k' k then v else lookupField k r
  end.

Definition prop (k : string) (j : Json) : Json :=
  match j with
  | JObj fields => lookupField k fields
  | _ => JUndefined
  end.

Fixpoint assignField (k : string) (v : Json) (fields : list (string * Json))
  : list (string * Json) :=
  match fields with
  | [] => [(k, v)]
  | (k', v') :: r =>
      if String.eqb k' k then (k', v) :: r else (k', v') :: assignField k v r
  end.

Definition assign (k : string) (v : Json) (j : Json) : Json :=
  match j with
  | JObj fields => JObj (assignField k v fields)
  | _ => j
  end.

(** [a === b] against a string or a number literal. *)
Definition isString (s : string) (j : Json) : bool :=
  match j with JStr s' => String.eqb s' s | _ => false end.

Definition isNumber (z : Z) (j : Json) : bool :=
  match j with JNum z' => z' =? z | _ => false end.

(** ** [POST /api/payment/webhook]: settlement *)

(** The two fields of the gateway's payload that are read: the
    transaction id, a string, empty when the field is missing (where it
    is not empty, [String(transaction_id)] is the string itself, and the
    test [!lookupKey] does not fire); and the status as it arrives, a
    string, a number or any other value. *)
Record Payload := mkPayload { transaction_id : string; rawStatus : Json }.

(** [status_code = String(webhookPayload.status)] *)
Definition payloadStatus (p : Payload) : string := jsString (rawStatus p).

(** Where the webhook's processing stops. The HTTP acknowledgement has
    been sent before the database is touched, so these are the [return]
    points of the handler, not responses. *)
Inductive WebhookEnd :=
| InvalidFormat
| NoOrder
| AlreadyProcessed (status : string)
| MarkedFailed
| ReviewNeeded
| Confirmed
| CriticalFailure.

Definition isSeatItem (it : Item.t) : bool :=
  String.eqb (Item.item_type it) "seat"
  && truthy (Item.table_id it)
  && match Item.seat_no it with Some _ => true | None => false end.

Definition isVipItem (it : Item.t) : bool :=
  String.eqb (Item.item_type it) "vipTable" && truthy (Item.table_id it).

(** The "Regular seats" loop: one final lock per seat item. *)
Definition promoteSeat (orderId : Z) (it : Item.t)
  : Handler (R := WebhookEnd) unit :=
  match Item.table_id it, Item.seat_no it with
  | Some tb, Some n =>
      if isSeatItem it then execute (insertDone orderId tb n) else ret tt
  | _, _ => ret tt
  end.

(** [vipTables], collected by the same loop. *)
Definition vipTables (items : list Item.t) : list string :=
  flat_map (fun it =>
    match Item.table_id it with
    | Some tb => if negb (isSeatItem it) && isVipItem it then [tb] else []
    | None => []
    end) items.

(** "Items -> tickets + final locks" and "Clear temp holds". The rows
    written to [tickets] and [payments] on the way are read by no lock
    statement and are left out. *)
Definition promote (orderId : Z) (holdId : option string)
  : Handler (R := WebhookEnd) unit :=
  items <- query (fun db => Some (selectItems orderId db)) ;;
  forEach items (promoteSeat orderId) ;;
  forEach (vipTables items) (fun tableId =>
    execute (insertDone orderId tableId 0)) ;;
  match holdId with
  | Some h => if truthy holdId then execute (deleteHold h) else ret tt
  | None => ret tt
  end.

Definition webhookHandler (p : Payload) : Handler (R := WebhookEnd) unit :=
  let status_code := payloadStatus p in
  let lookupKey := transaction_id p in
  tryCatch
    (beginTransaction ;;
     orderRows <- query (fun db => Some (selectOrder lookupKey db)) ;;
     match orderRows with
     | [] => rollback ;; reply NoOrder
     | order :: _ =>
         if negb (String.eqb (Order.status order) "pending") then
           rollback ;; reply (AlreadyProcessed (Order.status order))
         else
           let orderId := Order.id order in
           if negb (String.eqb status_code "1") then
             execute (setOrderStatus "failed" orderId) ;;
             match Order.hold_id order with
             | Some h =>
                 if truthy (Order.hold_id order) then execute (deleteHold h)
                 else ret tt
             | None => ret tt
             end ;;
             commit ;;
             reply MarkedFailed
           else if negb (truthy (Order.ipg_tx_id order))
                   || strictNeq lookupKey (Order.ipg_tx_id order) then
             execute (setOrderStatus "review_needed" orderId) ;;
             commit ;;
             reply ReviewNeeded
           else
             execute (setOrderStatus "paid" orderId) ;;
             promote orderId (Order.hold_id order) ;;
             commit ;;
             reply Confirmed
     end)
    (rollback ;; reply CriticalFailure).

Definition webhook (p : Payload) (db : Db) : option WebhookEnd * Db :=
  if String.eqb (transaction_id p) "" || negb (jsTruthy (rawStatus p)) then
    (Some InvalidFormat, db)
  else serve (webhookHandler p) db.

(** ** QR helpers *)

(** [s.replace(/c/g, d)] for a single character [c]. *)
Fixpoint replaceChar (c d : ascii) (s : string) : string :=
  match s with
  | EmptyString => EmptyString
  | String a r =>
      String (if Ascii.eqb a c then d else a) (replaceChar c d r)
  end.

(** [s.replace(/c+$/g, "")] for a single character [c]. *)
Fixpoint stripTrailing (c : ascii) (s : string) : string :=
  match s with
  | EmptyString => EmptyString
  | String a r =>
      let r' := stripTrailing c r in
      if Ascii.eqb a c && String.eqb r' "" then EmptyString else String a r'
  end.

Definition base64Digit (n : Z) : ascii :=
  match
    get (Z.to_nat n)
      "ABCDEFGHIJKLMNOPQRSTUVWXYZabcdefghijklmnopqrstuvwxyz0123456789+/"
  with
  | Some c => c
  | None => "A"%char
  end.

Definition byteValue (b : Byte.byte) : Z := Z.of_N (Byte.to_N b).

(** [Buffer.from(buf).toString("base64")] *)
Fixpoint base64 (bytes : list Byte.byte) : string :=
  match bytes with
  | [] => ""
  | [a] =>
      let n := byteValue a * 65536 in
      String (base64Digit (n / 262144))
        (String (base64Digit ((n / 4096) mod 64)) "==")
  | [a; b] =>
      let n := byteValue a * 65536 + byteValue b * 256 in
      String (base64Digit (n / 262144))
        (String (base64Digit ((n / 4096) mod 64))
           (String (base64Digit ((n / 64) mod 64)) "="))
  | a :: b :: c :: rest =>
      let n := byteValue a * 65536 + byteValue b * 256 + byteValue c in
      String (base64Digit (n / 262144))
        (String (base64Digit ((n / 4096) mod 64))
           (String (base64Digit ((n / 64) mod 64))
              (String (base64Digit (n mod 64)) (base64 rest))))
  end.

Definition b64url (buf : list Byte.byte) : string :=
  stripTrailing "="
    (replaceChar "/" "_" (replaceChar "+" "-" (base64 buf))).

(** The character [c] occurs in [s] only in a final run, as the padding
    of a base64 text does. *)
Fixpoint paddedAtEnd (c : ascii) (s : string) : Prop :=
  match s with
  | EmptyString => True
  | String a r =>
      (a = c -> forall x, In x (list_ascii_of_string r) -> x = c)
      /\ paddedAtEnd c r
  end.

Inductive QrVerdict :=
| QrRejected (reason : string)
| QrAccepted (data : Json).

Section QrSigning.

(** [crypto.createHmac("sha256", secret).update(s).digest()],
    [JSON.parse] ([None] when it throws), [JSON.stringify], and the
    environment's [QR_SIGNING_SECRET]. *)
Variable hmacSha256 : string -> string -> list Byte.byte.
Variable JSON_parse : string -> option Json.
Variable JSON_stringify : Json -> string.
Variable QR_SIGNING_SECRET : string.

(** The string that is signed. *)
Definition signedString (fields : Json) : string :=
  jsJoin "|"
    [prop "orderId" fields;
     prop "orderRef" fields;
     jsOr (prop "txId" fields) (JStr "");
     JStr (jsString (jsOr (prop "iat" fields) (JNum 0)))].

Definition signFields (fields : Json) : string :=
  let secret := QR_SIGNING_SECRET in
  let s := signedString fields in
  b64url (hmacSha256 secret s).

Definition buildQrPayload (orderId orderRef txId seats : Json) (nowMs : Z)
  : Json :=
  let payload :=
    JObj [("v", JNum 1);
          ("typ", JStr "eventz_ticket");
          ("orderId", orderId);
          ("orderRef", orderRef);
          ("txId", jsOr txId (JStr ""));
          ("seats", seats);
          ("iat", JNum (nowMs / 1000))] in
  assign "sig" (JStr (signFields payload)) payload.

Definition buildQrJson (orderId orderRef txId seats : Json) (nowMs : Z)
  : string :=
  JSON_stringify (buildQrPayload orderId orderRef txId seats nowMs).

(** [verifyQrJson], after [JSON.parse]. *)
Definition verifyQrData (data : Json) : QrVerdict :=
  if negb (jsTruthy data)
     || negb (isString "eventz_ticket" (prop "typ" data))
     || negb (isNumber 1 (prop "v" data))
  then QrRejected "bad_type"
  else
    let expected := signFields data in
    if negb (isString expected (prop "sig" data)) then QrRejected "bad_sig"
    else QrAccepted data.

Definition verifyQrJson (jsonText : string) : QrVerdict :=
  match JSON_parse jsonText with
  | None => QrRejected "bad_json"
  | Some data => verifyQrData data
  end.

End QrSigning.

(** ** Admin helpers and [POST /api/admin/ticket-book] *)

(** Text is held as its UTF-8 bytes. The characters that [trim] strips
    are WhiteSpace and LineTerminator: U+0009 to U+000D and U+0020, of
    one byte; U+00A0, of two; and U+1680, U+2000 to U+200A, U+2028,
    U+2029, U+202F, U+205F, U+3000 and U+FEFF, of three. *)
Definition space1 (a : ascii) : bool :=
  let x := nat_of_ascii a in
  ((x =? 32) || ((9 <=? x) && (x <=? 13)))%nat.

Definition space2 (a b : ascii) : bool :=
  ((nat_of_ascii a =? 194) && (nat_of_ascii b =? 160))%nat.

Definition space3 (a b c : ascii) : bool :=
  let x := nat_of_ascii a in
  let y := nat_of_ascii b in
  let z := nat_of_ascii c in
  (((x =? 225) && (y =? 154) && (z =? 128))
   || ((x =? 226) && (y =? 128)
       && (((128 <=? z) && (z <=? 138)) || (z =? 168) || (z =? 169)
           || (z =? 175)))
   || ((x =? 226) && (y =? 129) && (z =? 159))
   || ((x =? 227) && (y =? 128) && (z =? 128))
   || ((x =? 239) && (y =? 187) && (z =? 191)))%nat.

(** [s.trimStart()] *)
Fixpoint trimStart (s : string) : string :=
  match s with
  | EmptyString => EmptyString
  | String a r =>
      if space1 a then trimStart r
      else
        match r with
        | EmptyString => s
        | String b r2 =>
            if space2 a b then trimStart r2
            else
              match r2 with
              | EmptyString => s
              | String c r3 => if space3 a b c then trimStart r3 else s
              end
        end
  end.

(** [s.trimEnd()]: the text up to the point from which only white space
    follows. *)
Fixpoint trimEnd (s : string) : string :=
  match s with
  | EmptyString => EmptyString
  | String c r =>
      if String.eqb (trimStart s) "" then EmptyString
      else String c (trimEnd r)
  end.

Definition trim (s : string) : string := trimEnd (trimStart s).

(** [s.charAt(0)] *)
Definition charAt0 (s : string) : string :=
  match s with
  | EmptyString => EmptyString
  | String c _ => String c EmptyString
  end.

Definition isVip (tableId : string) : bool :=
  let letter := toUpperCase (charAt0 (trim tableId)) in
  existsb (String.eqb letter) ["A"; "B"; "C"; "D"; "E"].

(** [rand(n)], from one reading of [Math.random().toString(36)]. *)
Definition rand (n : nat) (random36 : string) : string :=
  toUpperCase (slice 2 (2 + n) random36).

(** The fields of the body of a ticket-book request: a missing [tableId],
    [orderId] or [source] is [None]; [seats] that is not an array is
    [None]. *)
Record TicketBookBody := mkTicketBookBody {
  tbTableId : option string;
  tbSeats : option (list Z);
  tbOrderId : option string;
  tbSource : option string
}.

Record TicketItem := mkTicketItem {
  tiTableId : string;
  tiSeatNo : Z;
  tiCategory : string;
  tiPrice : Z
}.

(** What the handler has worked out when it opens its transaction. *)
Record TicketPlan := mkTicketPlan {
  planItems : list TicketItem;
  planAmount : Z;
  planStatus : string;
  planDescription : string;
  planPayMethod : string;
  planOrderId : string;
  planOrderKey : string
}.

Definition orEmpty (s : option string) : string :=
  match s with Some x => x | None => "" end.

Definition seatListOf (seats : option (list Z)) : list Z :=
  match seats with
  | Some l => filter (fun n => (1 <=? n) && (n <=? 10)) l
  | None => []
  end.

(** [SELECT seat_no FROM order_items WHERE table_id = ? AND seat_no IN (?)] *)
Definition selectBookedSeats (tId : string) (seatList : list Z) (db : Db)
  : list Item.t :=
  filter (fun it =>
            match Item.table_id it, Item.seat_no it with
            | Some tb, Some n => String.eqb tb tId && includes n seatList
            | _, _ => false
            end)
         (order_items db).

Definition toLowerChar (c : ascii) : ascii :=
  let n := nat_of_ascii c in
  if ((65 <=? n) && (n <=? 90))%nat then ascii_of_nat (n + 32) else c.

(** The Kelvin sign U+212A, whose lower case is the letter k. *)
Definition kelvin (a b c : ascii) : bool :=
  ((nat_of_ascii a =? 226) && (nat_of_ascii b =? 132)
   && (nat_of_ascii c =? 170))%nat.

(** [s.toLowerCase()], for a result that is compared with an ASCII word:
    ASCII letters and the Kelvin sign are the characters whose lower case
    is an ASCII letter; the other characters, whose lower case is not
    ASCII, are kept. *)
Fixpoint toLowerCase (s : string) : string :=
  match s with
  | EmptyString => EmptyString
  | String a r =>
      match r with
      | String b (String c r3) =>
          if kelvin a b c then String "k" (toLowerCase r3)
          else String (toLowerChar a) (toLowerCase r)
      | _ => String (toLowerChar a) (toLowerCase r)
      end
  end.

(** The handler up to [pool.getConnection()]: the 400 answers, or the
    plan of the order to insert. [r4] and [r12] are the two readings of
    [Math.random().toString(36)]. *)
Definition ticketBookPlan (r4 r12 : string) (body : TicketBookBody) (db : Db)
  : string + TicketPlan :=
  let tId := trim (orEmpty (tbTableId body)) in
  let seatList := seatListOf (tbSeats body) in
  if String.eqb tId "" || negb (nonEmpty seatList) then inl "BAD_ITEM"
  else
    let bookedSeats := selectBookedSeats tId seatList db in
    if nonEmpty bookedSeats then inl "SEAT_ALREADY_BOOKED"
    else
      let category := if isVip tId then "vip" else "general" in
      let unit := if String.eqb category "vip" then 7500 else 5000 in
      let items := map (fun n => mkTicketItem tId n category unit) seatList in
      let amount := fold_left (fun s it => s + tiPrice it) items 0 in
      let src :=
        if String.eqb
             (toLowerCase (match tbSource body with
                           | Some x => x
                           | None => "ticket_book"
                           end))
             "pickme"
        then "pickme" else "ticketbook" in
      let statusLabel := src in
      let descLabel := if String.eqb src "pickme" then "PickMe" else "Ticket Book" in
      let payMethod := if String.eqb src "pickme" then "PICKME" else "TICKET_BOOK" in
      let idPrefix := if String.eqb src "pickme" then "PME" else "TBK" in
      let outOrderId :=
        if truthy (tbOrderId body) then orEmpty (tbOrderId body)
        else String.append idPrefix
               (String.append "-" (String.append tId
                  (String.append "-" (rand 4 r4)))) in
      let orderKey := String.append "OK_" (rand 12 r12) in
      inr (mkTicketPlan items amount statusLabel descLabel payMethod
             outOrderId orderKey).

(** ** The items of a checkout *)

(** An element of [items] in the body of [create-checkout]. *)
Record CartItem := mkCartItem {
  cartType : option string;
  cartTableId : option string;
  cartSeatNo : option Z
}.

(** The columns the lock path reads of the row inserted for a cart
    item: "VIP Table uses seat_no = 0". *)
Definition cartRow (orderId : Z) (it : CartItem) : Item.t :=
  let isVipTable :=
    match cartType it with
    | Some ty => String.eqb ty "vipTable"
    | None => false
    end in
  Item.mk orderId
    (if isVipTable then "vipTable" else "seat")
    (cartTableId it)
    (if isVipTable then Some 0 else cartSeatNo it).

Definition withItems (f : list Item.t -> list Item.t) (db : Db) : Db :=
  mkDb (seat_locks db) (done_seatlocks db) (orders db) (f (order_items db)).

(** [DELETE FROM order_items WHERE order_id = :orderId] *)
Definition deleteItems (orderId : Z) : Db -> Db :=
  withItems (filter (fun it => negb (Item.order_id it =? orderId))).

(** [INSERT INTO order_items (...) VALUES (...)] *)
Definition insertItem (row : Item.t) : Db -> Db :=
  withItems (fun rows => rows ++ [row]).

(** "Reset items (in case of retry)" and "Insert items". *)
Definition writeOrderItems (orderId : Z) (items : list CartItem) (db : Db) : Db :=
  fold_left (fun d it => insertItem (cartRow orderId it) d) items
            (deleteItems orderId db).

(** ** Vocabulary of the statements *)

(** Seat [n] of table [t] occurs in the requested list. *)
Definition requested (l : list SeatKey) (t : string) (n : Z) : Prop :=
  In (mkSeat t n) l.

(** The requested seat numbers of table [t] contain 0, or are exactly
    1..10. *)
Definition fullRequest (l : list SeatKey) (t : string) : Prop :=
  requested l t 0 \/ (forall n, requested l t n <-> 1 <= n <= 10).

Definition oneToTen : list Z := [1; 2; 3; 4; 5; 6; 7; 8; 9; 10].

(** Per-table shapes of a requested list: the table's seat numbers contain
    0 or all of 1..10; the table's seat numbers are all positive. *)
Definition fullyFull (l : list SeatKey) (t : string) : Prop :=
  requested l t 0 \/ (forall n, 1 <= n <= 10 -> requested l t n).

Definition fullyPartial (l : list SeatKey) (t : string) : Prop :=
  forall n, requested l t n -> 0 < n.

(** The table is requested through the sentinel and names no seat outside
    0..10. *)
Definition fullInRange (l : list SeatKey) (t : string) : Prop :=
  requested l t 0 /\ forall n, requested l t n -> 0 <= n <= 10.

Definition sameKeys (a b : list SeatKey) : Prop :=
  forall k, In k a <-> In k b.

(** *** Conflicts, in the words of the specification *)

(** The hold [r] belongs to someone else: its hold id differs from the
    caller's, and every hold does when the caller supplied none. *)
Definition otherHold (holdId : option string) (r : Lock.t) : Prop :=
  match holdId with
  | Some h => Lock.hold_id r <> h
  | None => True
  end.

(** The seat numbers of a table that collide with group [g]: any seat for
    a full-table group; seat 0 or a requested seat for a partial group. *)
Definition collides (g : Group) (n : Z) : Prop :=
  match mode g with
  | full => True
  | partial => n = 0 \/ In n (seats g)
  end.

(** The permanent allocation [r] conflicts with group [g]. *)
Definition soldRow (eventId : string) (g : Group) (r : Done.t) : Prop :=
  Done.event_id r = eventId
  /\ Done.table_id r = gtableId g
  /\ collides g (Done.seat_no r).

(** The unexpired temporary hold [r] of another holder conflicts with
    group [g]. *)
Definition heldRow (eventId : string) (holdId : option string) (now : Z)
    (g : Group) (r : Lock.t) : Prop :=
  Lock.event_id r = eventId
  /\ Lock.table_id r = gtableId g
  /\ now < Lock.expires_at r
  /\ otherHold holdId r
  /\ collides g (Lock.seat_no r).

Definition sold (db : Db) (eventId : string) (g : Group) : Prop :=
  exists r, In r (done_seatlocks db) /\ soldRow eventId g r.

Definition held (db : Db) (eventId : string) (holdId : option string)
    (now : Z) (g : Group) : Prop :=
  exists r, In r (seat_locks db) /\ heldRow eventId holdId now g r.

Definition conflicting (db : Db) (eventId : string) (holdId : option string)
    (now : Z) (g : Group) : Prop :=
  sold db eventId g \/ held db eventId holdId now g.

(** The conflict check reports group [g] as conflicting. *)
Definition reportsConflict (o : Outcome (R := HoldResponse) unit * Conn)
  : Prop :=
  exists message conflicts, fst o = Reply (ConflictFound message conflicts).

(** The keys a conflict response lists for group [g]: the sentinel key of
    the table for a full-table group, the seats of the conflicting rows
    for a partial group. *)
Definition soldKeys (db : Db) (eventId : string) (g : Group)
    (keys : list SeatKey) : Prop :=
  match mode g with
  | full => keys = [mkSeat (gtableId g) 0]
  | partial =>
      forall k, In k keys <->
        exists r, In r (done_seatlocks db) /\ soldRow eventId g r
                  /\ Done.seat r = k
  end.

Definition heldKeys (db : Db) (eventId : string) (holdId : option string)
    (now : Z) (g : Group) (keys : list SeatKey) : Prop :=
  match mode g with
  | full => keys = [mkSeat (gtableId g) 0]
  | partial =>
      forall k, In k keys <->
        exists r, In r (seat_locks db) /\ heldRow eventId holdId now g r
                  /\ Lock.seat r = k
  end.

(** What the response says when [g] is the group the request is rejected
    for: the permanent conflicts if there are any, the temporary ones
    otherwise. *)
Definition reportedFor (db : Db) (eventId : string) (holdId : option string)
    (now : Z) (g : Group) (message : string) (keys : list SeatKey) : Prop :=
  keys <> []
  /\ ((sold db eventId g
       /\ message = "Some seats already sold"
       /\ soldKeys db eventId g keys)
      \/ (~ sold db eventId g
          /\ held db eventId holdId now g
          /\ message = "Some seats already held"
          /\ heldKeys db eventId holdId now g keys)).

(** The connection after [rollback]. *)
Definition rolledBack (c : Conn) : Conn :=
  mkConn (committed c) (committed c) false.

(** A partial group can be put to the store only with at least one seat. *)
Definition checkable (g : Group) : Prop :=
  mode g = partial -> seats g <> [].

(** *** Store invariants *)

(** Hold ids in [seat_locks] are never empty: [newHoldId] is either a
    truthy supplied id or a generated one. *)
Definition holdIdsNonEmpty (db : Db) : Prop :=
  forall r, In r (seat_locks db) -> Lock.hold_id r <> "".

(** The unique keys of the two lock tables. *)
Definition uniqueLocks (db : Db) : Prop := NoDup (map Lock.key (seat_locks db)).
Definition uniqueDone (db : Db) : Prop := NoDup (map Done.key (done_seatlocks db)).

(** The store after the upserts of a list of seat keys, one after the
    other. *)
Definition upsertKeys (eventId h : string) (x now : Z) (keys : list SeatKey)
    (db : Db) : Db :=
  fold_left (fun d k => upsertLock eventId (tableId k) (seatNo k) h x now d)
            keys db.

Definition lockKey (eventId : string) (k : SeatKey) : string * string * Z :=
  (eventId, tableId k, seatNo k).

(** *** Settlement *)

(** The (table, seat) pairs an order's items are allocated at: the seat
    of every seat item, then seat 0 of every whole-table item. *)
Definition seatAllocations (items : list Item.t) : list (string * Z) :=
  flat_map (fun it =>
    match Item.table_id it, Item.seat_no it with
    | Some tb, Some n => if isSeatItem it then [(tb, n)] else []
    | _, _ => []
    end) items.

Definition allocations (items : list Item.t) : list (string * Z) :=
  seatAllocations items ++ map (fun tb => (tb, 0)) (vipTables items).

(** The store after the inserts of a list of allocations, one after the
    other. *)
Definition insertAll (orderId : Z) (pairs : list (string * Z)) (db : Db) : Db :=
  fold_left (fun d p => insertDone orderId (fst p) (snd p) d) pairs db.

(** "Clear temp holds": the holds of the order's hold id, if it has one. *)
Definition clearHold (holdId : option string) (db : Db) : Db :=
  match holdId with
  | Some h => if truthy holdId then deleteHold h db else db
  | None => db
  end.

Definition doneKey (p : string * Z) : string * string * Z :=
  ("default", fst p, snd p).

(** The database after the settlement of [order]: the order is paid, its
    allocations are inserted, and its holds are cleared. *)
Definition settle (order : Order.t) (db : Db) : Db :=
  let orderId := Order.id order in
  clearHold (Order.hold_id order)
    (insertAll orderId (allocations (selectItems orderId db))
       (setOrderStatus "paid" orderId db)).

(** *** Request bodies *)

(** [seats] is empty or not an array (a missing field defaults to []). *)
Definition seatsEmptyOrNotArray (f : SeatsField) : Prop :=
  match f with
  | SeatsArray (_ :: _) | SeatsWithNull => False
  | _ => True
  end.

(** A [ttlSec] is given and it is not a finite positive number. *)
Definition ttlNotFinitePositive (f : TtlField) : Prop :=
  match f with
  | TtlMissing => False
  | TtlNotNumber => True
  | TtlNumber (Finite z) => z <= 0
  | TtlNumber _ => True
  end.

(** *** Outcomes of a hold request *)

(** The response is not the success response. *)
Definition notGranted (r : HoldResponse) : Prop :=
  match r with
  | HoldOk _ _ _ | HoldOkNoExpiry _ _ => False
  | _ => True
  end.

(** The body of a well-typed request. *)
Definition typedBody (l : list SeatKey) (ttl : Z) (holdId : option string)
  : Body :=
  mkBody (SeatsArray l) (TtlNumber (Finite ttl)) holdId.

(** The database after the holds of a granted request are written. *)
Definition granted (env : Env) (l : list SeatKey) (ttl : Z)
    (holdId : option string) (db : Db) : Db :=
  upsertKeys "default" (newHoldId env holdId) (now env + ttl * 1000) (now env)
    (resolvedSeats (normalize l)) db.

(** ** Example data *)

Definition seatA (n : Z) : SeatKey := mkSeat "A" n.
Definition seatB (n : Z) : SeatKey := mkSeat "B" n.

Definition emptyDb : Db := mkDb [] [] [] [].

Definition exampleEnv : Env := mkEnv 1700000000000 "0.4fzyo82mvyr" (Some 0).

Definition holdBody (l : list SeatKey) (holdId : option string) : Body :=
  mkBody (SeatsArray l) (TtlNumber (Finite 600)) holdId.

(** Table A sold as a whole. *)
Definition tableASold : Db :=
  mkDb [] [Done.mk "default" 7 "A" 0] [] [].

(** Seat 1 of table A and seat 1 of table B sold. *)
Definition twoSeatsSold : Db :=
  mkDb [] [Done.mk "default" 7 "A" 1; Done.mk "default" 8 "B" 1] [] [].

(** Seats 1 and 2 of table A held under "H1" until 1700000600000. *)
Definition heldByH1 : Db :=
  mkDb [Lock.mk "default" "A" 1 "H1" 1700000600000 1700000000000;
        Lock.mk "default" "A" 2 "H1" 1700000600000 1700000000000] [] [] [].

(** Holds and allocations of several kinds: seat 1 of table A held, seat
    2 of table A held until a time long past, table B held as a whole;
    table C sold as a whole, seat 4 of table D sold. *)
Definition mixedLocks : Db :=
  mkDb [Lock.mk "default" "A" 1 "H1" 1700000600000 1700000000000;
        Lock.mk "default" "A" 2 "H1" 1600000000000 1599999400000;
        Lock.mk "default" "B" 0 "H2" 1700000600000 1700000000000]
       [Done.mk "default" 7 "C" 0; Done.mk "default" 8 "D" 4] [] [].

(** A pending order of one seat and one whole table, made under "H1". *)
Definition pendingOrder : Db :=
  mkDb (seat_locks heldByH1) []
       [Order.mk 7 (Some "TX") "pending" (Some "H1")]
       [Item.mk 7 "seat" (Some "A") (Some 1);
        Item.mk 7 "vipTable" (Some "C") None].

(** A keyed digest for the examples, and a ticket built with it. *)
Definition exampleHmac (key s : string) : list Byte.byte :=
  list_byte_of_string (String.append key s).

Definition exampleTicket : Json :=
  buildQrPayload exampleHmac "k" (JNum 7) (JStr "ORD-7") JNull
    (JArr [JStr "A-1"]) 1700000000000.


(** * Properties *)

(** Case analysis on the condition of the first [if] of the goal. *)
Ltac case_if :=
  match goal with
  | |- context [if ?b then _ else _] => destruct b
  end.

(** ** Arrays *)

Lemma includes_In x l : includes x l = true <-> In x l.
Proof.
  unfold includes. rewrite existsb_exists. split.
  - intros (y & Hy & E). apply Z.eqb_eq in E. now subst.
  - intros H. exists x. split; [assumption | apply Z.eqb_refl].
Qed.

Lemma includes_false x l : includes x l = false <-> ~ In x l.
Proof.
  rewrite <- includes_In. destruct (includes x l); split; congruence.
Qed.

Lemma uniqFrom_In seen arr x :
  In x (uniqFrom seen arr) <-> In x arr /\ ~ In x seen.
Proof.
  revert seen. induction arr as [|a arr IH]; intros seen; simpl.
  - tauto.
  - destruct (includes a seen) eqn:E.
    + apply includes_In in E. rewrite IH. split.
      * tauto.
      * intros [[->|H] Hn]; tauto.
    + apply includes_false in E. simpl. rewrite IH. simpl. split.
      * intros [->|[H Hn]]; tauto.
      * intros [[->|H] Hn]; [tauto|].
        destruct (Z.eq_dec a x); [tauto|]. right. tauto.
Qed.

Lemma uniqFrom_NoDup seen arr : NoDup (uniqFrom seen arr).
Proof.
  revert seen. induction arr as [|a arr IH]; intros seen; simpl.
  - constructor.
  - destruct (includes a seen); [apply IH|].
    constructor; [|apply IH].
    rewrite uniqFrom_In. simpl. tauto.
Qed.

Lemma sortInsert_In x y l : In x (sortInsert y l) <-> x = y \/ In x l.
Proof.
  induction l as [|a l IH]; simpl.
  - intuition congruence.
  - destruct (a - y <=? 0); simpl; rewrite ?IH; intuition congruence.
Qed.

Lemma sortInsert_sorted y l :
  StronglySorted Z.lt l -> ~ In y l -> StronglySorted Z.lt (sortInsert y l).
Proof.
  induction 1 as [|a l Hs IH Ha]; intros Hn; simpl.
  - repeat constructor.
  - destruct (a - y <=? 0) eqn:E.
    + constructor.
      * apply IH. simpl in Hn. tauto.
      * apply Forall_forall. intros z Hz. apply sortInsert_In in Hz.
        destruct Hz as [->|Hz].
        -- apply Z.leb_le in E. simpl in Hn.
           assert (a <> y) by tauto. lia.
        -- rewrite Forall_forall in Ha. now apply Ha.
    + apply Z.leb_gt in E. constructor.
      * now constructor.
      * constructor; [lia|].
        rewrite Forall_forall in *. intros z Hz. specialize (Ha z Hz). lia.
Qed.

Lemma sortFold_In l acc x :
  In x (fold_left (fun acc x => sortInsert x acc) l acc) <-> In x l \/ In x acc.
Proof.
  revert acc. induction l as [|a l IH]; intros acc; simpl.
  - tauto.
  - rewrite IH, sortInsert_In. intuition congruence.
Qed.

Lemma sortFold_sorted l acc :
  NoDup l -> StronglySorted Z.lt acc -> (forall x, In x l -> ~ In x acc) ->
  StronglySorted Z.lt (fold_left (fun acc x => sortInsert x acc) l acc).
Proof.
  revert acc. induction l as [|a l IH]; intros acc Hnd Hs Hdis; simpl.
  - assumption.
  - inversion Hnd as [|? ? Ha Hnd']; subst. apply IH.
    + assumption.
    + apply sortInsert_sorted; [assumption|]. apply Hdis. now left.
    + intros x Hx Hin. apply sortInsert_In in Hin. destruct Hin as [->|Hin].
      * contradiction.
      * apply (Hdis x); [now right | assumption].
Qed.

Lemma sortAsc_In l x : In x (sortAsc l) <-> In x l.
Proof. unfold sortAsc. rewrite sortFold_In. simpl. tauto. Qed.

Lemma sortAsc_sorted l : NoDup l -> StronglySorted Z.lt (sortAsc l).
Proof.
  intros H. apply sortFold_sorted; [assumption | constructor | auto].
Qed.

(** The sorted, deduplicated seat numbers of a table. *)
Lemma nums_In arr x : In x (sortAsc (arrayFromSet arr)) <-> In x arr.
Proof.
  rewrite sortAsc_In. unfold arrayFromSet. rewrite uniqFrom_In. simpl. tauto.
Qed.

Lemma nums_sorted arr : StronglySorted Z.lt (sortAsc (arrayFromSet arr)).
Proof. apply sortAsc_sorted, uniqFrom_NoDup. Qed.

(** A strictly ascending list is determined by its elements. *)
Lemma sorted_head_least a l x :
  StronglySorted Z.lt (a :: l) -> In x (a :: l) -> a <= x.
Proof.
  intros Hs [->|Hx]; [lia|].
  inversion Hs as [|? ? _ Ha]; subst. rewrite Forall_forall in Ha.
  specialize (Ha x Hx). lia.
Qed.

Lemma sorted_ext l1 l2 :
  StronglySorted Z.lt l1 -> StronglySorted Z.lt l2 ->
  (forall x, In x l1 <-> In x l2) -> l1 = l2.
Proof.
  intros H1. revert l2. induction H1 as [|a l1 Hs1 IH Ha]; intros l2 H2 E.
  - destruct l2 as [|b l2]; [reflexivity|].
    exfalso. apply (E b). now left.
  - destruct l2 as [|b l2].
    + exfalso. apply (E a). now left.
    + assert (Hab : a = b).
      { assert (b <= a).
        { apply (sorted_head_least b l2 a H2). apply E. now left. }
        assert (a <= b).
        { apply (sorted_head_least a l1 b); [now constructor|].
          apply E. now left. }
        lia. }
      subst b. f_equal.
      inversion H2 as [|? ? Hs2 Hb]; subst.
      apply IH; [assumption|].
      rewrite Forall_forall in Ha, Hb.
      intros x. split; intros Hx.
      * assert (Hin : In x (a :: l2)) by (apply E; now right).
        destruct Hin as [<-|Hin]; [|assumption].
        specialize (Ha a Hx). lia.
      * assert (Hin : In x (a :: l1)) by (apply E; now right).
        destruct Hin as [<-|Hin]; [|assumption].
        specialize (Hb a Hx). lia.
Qed.

Lemma oneToTen_In n : In n oneToTen <-> 1 <= n <= 10.
Proof. unfold oneToTen. simpl. lia. Qed.

Lemma oneToTen_sorted : StronglySorted Z.lt oneToTen.
Proof.
  unfold oneToTen. repeat (constructor; [|repeat constructor; lia]).
  constructor.
Qed.

(** The test [nums.length === 10 && nums.every((x, i) => x === i + 1)]. *)
Lemma isOneToTen_spec nums :
  (Z.of_nat (List.length nums) =? 10) && everyFrom 0 nums = true
  <-> nums = oneToTen.
Proof.
  split.
  - intros H. apply andb_true_iff in H. destruct H as [Hl He].
    apply Z.eqb_eq in Hl.
    do 11 (destruct nums as [|? nums]; [simpl in Hl; try lia|]);
      [|simpl in Hl; lia].
    simpl in He.
    repeat (apply andb_true_iff in He; destruct He as [?%Z.eqb_eq He]).
    subst. reflexivity.
  - intros ->. reflexivity.
Qed.

(** ** Grouping by table *)

Lemma has_keys k m : JsMap.has k m = true <-> In k (JsMap.keys m).
Proof.
  induction m as [|[k' v] m IH]; simpl.
  - split; [discriminate | tauto].
  - destruct (String.eqb_spec k' k).
    + subst. tauto.
    + rewrite IH. tauto.
Qed.

Lemma keys_set k v m :
  JsMap.keys (JsMap.set k v m)
  = if JsMap.has k m then JsMap.keys m else JsMap.keys m ++ [k].
Proof.
  induction m as [|[k' v'] m IH]; simpl.
  - reflexivity.
  - destruct (String.eqb_spec k' k); simpl.
    + reflexivity.
    + rewrite IH. now destruct (JsMap.has k m).
Qed.

Lemma get_set k v m k' :
  JsMap.get k' (JsMap.set k v m) = if String.eqb k k' then v else JsMap.get k' m.
Proof.
  induction m as [|[k0 v0] m IH]; simpl.
  - reflexivity.
  - destruct (String.eqb_spec k0 k); simpl.
    + subst k0. now destruct (String.eqb_spec k k').
    + destruct (String.eqb_spec k0 k').
      * subst k0. destruct (String.eqb_spec k k'); congruence.
      * apply IH.
Qed.

Lemma get_absent k m : JsMap.has k m = false -> JsMap.get k m = [].
Proof.
  induction m as [|[k' v] m IH]; simpl; [reflexivity|].
  destruct (String.eqb k' k); [discriminate | assumption].
Qed.

Lemma In_get k v m :
  NoDup (JsMap.keys m) -> In (k, v) m -> JsMap.get k m = v.
Proof.
  induction m as [|[k' v'] m IH]; simpl; intros Hnd Hin; [contradiction|].
  inversion Hnd as [|? ? Hk Hnd']; subst.
  destruct Hin as [E|Hin].
  - inversion E; subst. now rewrite String.eqb_refl.
  - destruct (String.eqb_spec k' k).
    + subst. exfalso. apply Hk. apply (in_map fst) in Hin. exact Hin.
    + now apply IH.
Qed.

Lemma keys_groupSeat m s :
  JsMap.keys (groupSeat m s)
  = if JsMap.has (tableId s) m then JsMap.keys m
    else JsMap.keys m ++ [tableId s].
Proof.
  unfold groupSeat. destruct (JsMap.has (tableId s) m) eqn:E.
  - now rewrite keys_set, E.
  - rewrite !keys_set, E.
    assert (H : JsMap.has (tableId s) (JsMap.set (tableId s) [] m) = true).
    { apply has_keys. rewrite keys_set, E. apply in_or_app. right. now left. }
    now rewrite H.
Qed.

Lemma get_groupSeat m s t :
  JsMap.get t (groupSeat m s)
  = if String.eqb (tableId s) t then JsMap.get t m ++ [seatNo s]
    else JsMap.get t m.
Proof.
  unfold groupSeat. rewrite get_set.
  destruct (String.eqb_spec (tableId s) t) as [->|Hne].
  - destruct (JsMap.has t m) eqn:E; [reflexivity|].
    rewrite get_set, String.eqb_refl. now rewrite get_absent.
  - destruct (JsMap.has (tableId s) m); [reflexivity|].
    rewrite get_set. destruct (String.eqb_spec (tableId s) t); congruence.
Qed.

Lemma NoDup_keys_groupSeat m s :
  NoDup (JsMap.keys m) -> NoDup (JsMap.keys (groupSeat m s)).
Proof.
  intros H. rewrite keys_groupSeat.
  destruct (JsMap.has (tableId s) m) eqn:E; [assumption|].
  apply NoDup_app; [assumption | repeat constructor; simpl; tauto |].
  intros x Hx [<-|[]]. apply has_keys in Hx. congruence.
Qed.

Lemma groupFold_NoDup l m :
  NoDup (JsMap.keys m) -> NoDup (JsMap.keys (fold_left groupSeat l m)).
Proof.
  revert m. induction l as [|s l IH]; intros m H; simpl; [assumption|].
  apply IH, NoDup_keys_groupSeat, H.
Qed.

Lemma groupFold_keys l m t :
  In t (JsMap.keys (fold_left groupSeat l m))
  <-> In t (JsMap.keys m) \/ In t (map tableId l).
Proof.
  revert m. induction l as [|s l IH]; intros m; simpl; [tauto|].
  rewrite IH, keys_groupSeat.
  destruct (JsMap.has (tableId s) m) eqn:E.
  - apply has_keys in E. intuition (subst; auto).
  - rewrite in_app_iff. simpl. tauto.
Qed.

Lemma groupFold_get l m t n :
  In n (JsMap.get t (fold_left groupSeat l m))
  <-> In n (JsMap.get t m) \/ requested l t n.
Proof.
  unfold requested. revert m. induction l as [|s l IH]; intros m; simpl; [tauto|].
  rewrite IH, get_groupSeat.
  destruct (String.eqb_spec (tableId s) t) as [E|E].
  - rewrite in_app_iff. simpl. destruct s as [t' n']; simpl in *. subst t'.
    split.
    + intros [[H|[->|[]]]|H]; auto.
    + intros [H|[H|H]]; auto. inversion H; subst. auto.
  - split; [tauto|]. intros [H|[H|H]]; auto.
    subst s. simpl in E. congruence.
Qed.

Lemma groupByTable_NoDup l : NoDup (JsMap.keys (groupByTable l)).
Proof. apply groupFold_NoDup. constructor. Qed.

Lemma groupByTable_keys l t :
  In t (JsMap.keys (groupByTable l)) <-> In t (map tableId l).
Proof. unfold groupByTable. rewrite groupFold_keys. simpl. tauto. Qed.

Lemma groupByTable_entry l t arr n :
  In (t, arr) (groupByTable l) -> In n arr <-> requested l t n.
Proof.
  intros H. apply In_get in H; [|apply groupByTable_NoDup]. subst arr.
  unfold groupByTable. rewrite groupFold_get. simpl. tauto.
Qed.

(** ** [normalizeGroups] *)

Lemma normalizeEntry_table e : gtableId (normalizeEntry e) = fst e.
Proof.
  destruct e as [t arr]. unfold normalizeEntry.
  now destruct (includes 0 _ || _).
Qed.

Lemma normalize_tables l :
  map gtableId (normalize l) = JsMap.keys (groupByTable l).
Proof.
  unfold normalize, normalizeGroups, JsMap.keys. rewrite map_map.
  apply map_ext. apply normalizeEntry_table.
Qed.

(** What [normalizeGroups] makes of the entry of one table. *)
Lemma normalize_group_cases l g :
  In g (normalize l) ->
  (mode g = full /\ seats g = [0] /\ fullRequest l (gtableId g))
  \/ (mode g = partial /\ ~ fullRequest l (gtableId g)
      /\ StronglySorted Z.lt (seats g)
      /\ forall n, In n (seats g) <-> 0 < n /\ requested l (gtableId g) n).
Proof.
  unfold normalize, normalizeGroups. intros H. apply in_map_iff in H.
  destruct H as ([t arr] & <- & Hin).
  pose proof (groupByTable_entry l t arr) as Hreq.
  specialize (fun n => Hreq n Hin).
  unfold normalizeEntry.
  set (nums := sortAsc (arrayFromSet arr)).
  assert (Hnums : forall n, In n nums <-> requested l t n).
  { intros n. unfold nums. rewrite nums_In. apply Hreq. }
  assert (Hsorted : StronglySorted Z.lt nums) by apply nums_sorted.
  destruct (includes 0 nums) eqn:Hz; simpl.
  - left. split; [reflexivity|]. split; [reflexivity|].
    left. apply Hnums. now apply includes_In.
  - destruct ((Z.of_nat (List.length nums) =? 10) && everyFrom 0 nums) eqn:Hf.
    + left. simpl. split; [reflexivity|]. split; [reflexivity|].
      right. apply isOneToTen_spec in Hf.
      intros n. rewrite <- Hnums, Hf. apply oneToTen_In.
    + right. simpl. apply includes_false in Hz.
      split; [reflexivity|]. split; [|split].
      * intros [H0|Hall].
        -- apply Hz, Hnums, H0.
        -- assert (E : nums = oneToTen).
           { apply sorted_ext; [assumption | apply oneToTen_sorted |].
             intros x. rewrite Hnums, Hall. symmetry. apply oneToTen_In. }
           apply isOneToTen_spec in E. congruence.
      * clear -Hsorted. induction Hsorted as [|a r Hs IH Ha]; simpl.
        -- constructor.
        -- destruct (0 <? a); [|assumption]. constructor; [assumption|].
           rewrite Forall_forall in *. intros x Hx.
           apply filter_In in Hx. now apply Ha.
      * intros n. rewrite filter_In, Hnums, Z.ltb_lt. tauto.
Qed.

(** C6. [normalize] makes one group per requested table. A table whose
    requested seat numbers contain 0, or are exactly 1..10, becomes a
    [full] group holding the single sentinel seat 0. Any other table
    becomes a [partial] group whose seats are the requested positive seat
    numbers of the table, without duplicates and in ascending order; seat
    numbers below 1 are dropped. *)
Theorem normalize_spec (l : list SeatKey) :
  NoDup (map gtableId (normalize l))
  /\ (forall t, In t (map gtableId (normalize l)) <-> In t (map tableId l))
  /\ forall g, In g (normalize l) ->
       (fullRequest l (gtableId g) -> mode g = full /\ seats g = [0])
       /\ (~ fullRequest l (gtableId g) ->
           mode g = partial
           /\ StronglySorted Z.lt (seats g)
           /\ forall n, In n (seats g) <-> 0 < n /\ requested l (gtableId g) n).
Proof.
  split; [|split].
  - rewrite normalize_tables. apply groupByTable_NoDup.
  - intros t. rewrite normalize_tables. apply groupByTable_keys.
  - intros g Hg. destruct (normalize_group_cases l g Hg) as [H|H].
    + destruct H as (Hm & Hs & Hf). split; [auto|]. intros Hn. contradiction.
    + destruct H as (Hm & Hnf & Hs & Hmem). split; [|auto].
      intros Hf. contradiction.
Qed.

Lemma normalize_spec_witness :
  let l := [mkSeat "A" 2; mkSeat "B" 0; mkSeat "A" 1; mkSeat "A" 2;
            mkSeat "A" (-1)] in
  (fullRequest l "B" /\ mode (mkGroup "B" full [0]) = full)
  /\ (~ fullRequest l "A"
      /\ forall n, In n [1; 2] <-> 0 < n /\ requested l "A" n).
Proof.
  intros l.
  destruct (normalize_spec l) as (_ & _ & H).
  assert (HB : fullRequest l "B") by (left; unfold requested; simpl; auto).
  assert (HA : ~ fullRequest l "A").
  { unfold fullRequest, requested. simpl. intros [H0|H0].
    - repeat (destruct H0 as [H0|H0]; [discriminate|]). exact H0.
    - destruct (proj2 (H0 3) ltac:(lia)) as [H1|H1].
      + discriminate.
      + repeat (destruct H1 as [H1|H1]; [discriminate|]). exact H1. }
  split; split; try assumption.
  - apply (H (mkGroup "B" full [0])); [vm_compute; auto | exact HB].
  - apply (H (mkGroup "A" partial [1; 2])); [vm_compute; auto | exact HA].
Defined.

(** ** [expand] *)

Lemma tenSeats_eq t : tenSeats t = map (mkSeat t) oneToTen.
Proof. reflexivity. Qed.

Lemma expand_app a b : expand (a ++ b) = expand a ++ expand b.
Proof. unfold expand. apply flat_map_app. Qed.

Lemma expand_In k rows :
  In k (expand rows) <-> exists r, In r rows /\ In k (expandRow r).
Proof. unfold expand. apply in_flat_map. Qed.

Lemma expandRow_In k r :
  In k (expandRow r)
  <-> tableId k = tableId r
      /\ ((seatNo r = 0 /\ 1 <= seatNo k <= 10)
          \/ (seatNo r <> 0 /\ seatNo k = seatNo r)).
Proof.
  unfold expandRow. destruct (Z.eqb_spec (seatNo r) 0) as [E|E].
  - rewrite tenSeats_eq, in_map_iff. split.
    + intros (n & <- & Hn). apply oneToTen_In in Hn. simpl. auto.
    + intros (Ht & [[_ Hn]|[Hne _]]); [|contradiction].
      exists (seatNo k). split; [|now apply oneToTen_In].
      destruct k; simpl in *. now subst.
  - simpl. split.
    + intros [<-|[]]. simpl. auto.
    + intros (Ht & [[H0 _]|[_ Hn]]); [contradiction|].
      left. destruct k; simpl in *. now subst.
Qed.

(** C7. [expand] works row by row: a row with seat number 0 becomes the
    ten rows of seats 1 to 10 of the same table, in that order, and any
    other row is passed through unchanged. *)
Theorem expand_spec :
  (forall t, expand [mkSeat t 0]
             = [mkSeat t 1; mkSeat t 2; mkSeat t 3; mkSeat t 4; mkSeat t 5;
                mkSeat t 6; mkSeat t 7; mkSeat t 8; mkSeat t 9; mkSeat t 10])
  /\ (forall r, seatNo r <> 0 -> expand [r] = [r])
  /\ expand [] = []
  /\ (forall r rows, expand (r :: rows) = expand [r] ++ expand rows).
Proof.
  split; [|split; [|split]].
  - intros t. reflexivity.
  - intros [t n] Hn. unfold expand, expandRow. simpl in *.
    destruct (Z.eqb_spec n 0); [contradiction | reflexivity].
  - reflexivity.
  - intros r rows. apply (expand_app [r] rows).
Qed.

Lemma expand_spec_witness :
  seatNo (mkSeat "B" 3) <> 0 /\ expand [mkSeat "B" 3] = [mkSeat "B" 3].
Proof.
  assert (H : seatNo (mkSeat "B" 3) <> 0) by (simpl; lia).
  split; [exact H|].
  exact (proj1 (proj2 expand_spec) (mkSeat "B" 3) H).
Defined.

(** ** [expand] after [normalize] *)

Lemma resolvedSeats_In r groups :
  In r (resolvedSeats groups) <-> exists g, In g groups /\ In r (groupSeats g).
Proof. unfold resolvedSeats. apply in_flat_map. Qed.

Lemma normalize_has_group l r :
  In r l -> exists g, In g (normalize l) /\ gtableId g = tableId r.
Proof.
  intros H.
  assert (Ht : In (tableId r) (map gtableId (normalize l))).
  { rewrite normalize_tables, groupByTable_keys. now apply in_map. }
  apply in_map_iff in Ht. destruct Ht as (g & E & Hg). eauto.
Qed.

(** C8, as amended. When every table of the request either is requested
    through the sentinel and names no seat outside 0..10, or names only
    positive seats, [expand] after [normalize] yields the same seat keys
    as [expand] alone. The two lists are equal as sets; their order and
    multiplicities can differ. *)
Theorem expand_normalize_sameKeys (l : list SeatKey) :
  (forall t, fullInRange l t \/ fullyPartial l t) ->
  sameKeys (expand (resolvedSeats (normalize l))) (expand l).
Proof.
  intros Hwf [t n]. rewrite !expand_In. split.
  - intros (r & Hr & Hk). apply resolvedSeats_In in Hr.
    destruct Hr as (g & Hg & Hr). apply expandRow_In in Hk. simpl in Hk.
    destruct Hk as (Ht & Hk). unfold groupSeats in Hr.
    destruct (normalize_group_cases l g Hg)
      as [(Hm & Hs & Hf)|(Hm & Hnf & Hs & Hmem)]; rewrite Hm in Hr.
    + destruct Hr as [<-|[]]. simpl in *. subst t.
      destruct Hk as [[_ Hn]|[Hne _]]; [|congruence].
      destruct Hf as [H0|Hall].
      * exists (mkSeat (gtableId g) 0). split; [exact H0|].
        apply expandRow_In. simpl. auto.
      * exists (mkSeat (gtableId g) n). split; [now apply Hall|].
        apply expandRow_In. simpl. split; [reflexivity|].
        right. split; [lia | reflexivity].
    + apply in_map_iff in Hr. destruct Hr as (m & <- & Hm'). simpl in *.
      subst t. apply Hmem in Hm'. destruct Hm' as [Hpos Hreq].
      destruct Hk as [[H0 _]|[_ ->]]; [lia|].
      exists (mkSeat (gtableId g) m). split; [exact Hreq|].
      apply expandRow_In. simpl. split; [reflexivity|].
        right. split; [lia | reflexivity].
  - intros (r & Hr & Hk). apply expandRow_In in Hk. simpl in Hk.
    destruct Hk as (Ht & Hk). subst t.
    destruct (normalize_has_group l r Hr) as (g & Hg & Hgt).
    assert (Hreq : requested l (gtableId g) (seatNo r)).
    { unfold requested. rewrite Hgt. now destruct r. }
    destruct (normalize_group_cases l g Hg)
      as [(Hm & Hs & Hf)|(Hm & Hnf & Hs & Hmem)].
    + exists (mkSeat (gtableId g) 0). split.
      * apply resolvedSeats_In. exists g. split; [assumption|].
        unfold groupSeats. rewrite Hm. now left.
      * apply expandRow_In. simpl. split; [auto|]. left. split; [reflexivity|].
        destruct Hk as [[_ Hn]|[Hne ->]]; [assumption|].
        destruct Hf as [H0|Hall]; [|now apply Hall].
        destruct (Hwf (gtableId g)) as [[_ Hrange]|Hpos].
        -- specialize (Hrange _ Hreq). lia.
        -- specialize (Hpos _ H0). lia.
    + assert (Hpos : 0 < seatNo r).
      { destruct (Hwf (gtableId g)) as [[H0 _]|Hpos].
        - exfalso. apply Hnf. now left.
        - now apply Hpos. }
      destruct Hk as [[H0 _]|[_ ->]]; [lia|].
      exists (mkSeat (gtableId g) (seatNo r)). split.
      * apply resolvedSeats_In. exists g. split; [assumption|].
        unfold groupSeats. rewrite Hm. apply in_map. apply Hmem. auto.
      * apply expandRow_In. simpl. split; [auto|]. right. split; [lia|reflexivity].
Qed.

Lemma expand_normalize_sameKeys_witness :
  (forall t, fullInRange [seatB 0; seatB 3] t \/ fullyPartial [seatB 0; seatB 3] t)
  /\ sameKeys (expand (resolvedSeats (normalize [seatB 0; seatB 3])))
              (expand [seatB 0; seatB 3]).
Proof.
  assert (H : forall t, fullInRange [seatB 0; seatB 3] t
                        \/ fullyPartial [seatB 0; seatB 3] t).
  { intros t. destruct (string_dec t "B") as [->|Hne].
    - left. split.
      + unfold requested. simpl. auto.
      + unfold requested. simpl. intros n [E|[E|[]]]; inversion E; lia.
    - right. unfold fullyPartial, requested. simpl.
      intros n [E|[E|[]]]; inversion E; congruence. }
  split; [exact H|].
  apply (expand_normalize_sameKeys [seatB 0; seatB 3] H).
Defined.

(** C8, as stated, fails. A request of positive seats that is not in
    ascending order is expanded in the requested order by [expand] alone
    and in ascending order after [normalize], so the two lists differ. A
    request that names the sentinel together with a seat outside 1..10
    does not even yield the same set of seat keys. *)
Lemma expand_normalize_counterexample :
  ((forall t, fullyFull [seatA 2; seatA 1] t \/ fullyPartial [seatA 2; seatA 1] t)
   /\ expand (resolvedSeats (normalize [seatA 2; seatA 1]))
      <> expand [seatA 2; seatA 1])
  /\ ((forall t, fullyFull [seatA 0; seatA 11] t
                 \/ fullyPartial [seatA 0; seatA 11] t)
      /\ ~ sameKeys (expand (resolvedSeats (normalize [seatA 0; seatA 11])))
                    (expand [seatA 0; seatA 11])).
Proof.
  split; split.
  - intros t. right. unfold fullyPartial, requested. simpl.
    intros n [E|[E|[]]]; inversion E; lia.
  - vm_compute. discriminate.
  - intros t. destruct (string_dec t "A") as [->|Hne].
    + left. left. unfold requested. simpl. auto.
    + right. unfold fullyPartial, requested. simpl.
      intros n [E|[E|[]]]; inversion E; congruence.
  - intros H. specialize (H (seatA 11)). destruct H as [_ H].
    assert (Hin : In (seatA 11) (expand [seatA 0; seatA 11])).
    { vm_compute. do 10 right. now left. }
    specialize (H Hin). vm_compute in H.
    repeat (destruct H as [H|H]; [discriminate|]). exact H.
Qed.

(** ** The conflict check of [POST /api/locks/hold] *)

Lemma nonEmpty_true {A} (l : list A) : nonEmpty l = true <-> exists x, In x l.
Proof.
  destruct l as [|a l]; simpl; split.
  - discriminate.
  - intros (x & []).
  - intros _. exists a. now left.
  - reflexivity.
Qed.

Lemma nonEmpty_false {A} (l : list A) : nonEmpty l = false <-> l = [].
Proof. destruct l; simpl; split; congruence. Qed.

Lemma nonEmpty_firstn1 {A} (l : list A) : nonEmpty (firstn 1 l) = nonEmpty l.
Proof. now destruct l. Qed.

Lemma nonEmpty_not_nil {A} (l : list A) : nonEmpty l = true -> l <> [].
Proof. destruct l; [discriminate | discriminate]. Qed.

Lemma pairsSql_checkable g :
  seats g <> [] -> String.eqb (pairsSql g) "" = false.
Proof.
  unfold pairsSql. destruct (seats g) as [|a [|b r]]; simpl.
  - congruence.
  - reflexivity.
  - reflexivity.
Qed.

Lemma pairsSql_empty g : seats g = [] -> pairsSql g = "".
Proof. unfold pairsSql. now intros ->. Qed.

Lemma inPairs_spec g tb n :
  inPairs tb n (pairsArgs g) = true <-> tb = gtableId g /\ In n (seats g).
Proof.
  unfold inPairs, pairsArgs. rewrite existsb_exists. split.
  - intros ([t m] & Hin & H). apply in_map_iff in Hin.
    destruct Hin as (m' & E & Hm). inversion E; subst. simpl in H.
    apply andb_true_iff in H. destruct H as [Ht Hn].
    apply String.eqb_eq in Ht. apply Z.eqb_eq in Hn. subst. auto.
  - intros [-> Hn]. exists (gtableId g, n). split.
    + apply in_map_iff. eauto.
    + simpl. now rewrite String.eqb_refl, Z.eqb_refl.
Qed.

Lemma strictNeq_spec r h : strictNeq (Lock.hold_id r) h = true <-> otherHold h r.
Proof.
  unfold strictNeq, otherHold. destruct h as [s|]; [|tauto].
  destruct (String.eqb_spec (Lock.hold_id r) s); simpl; split;
    congruence.
Qed.

(** The filter of the partial check, [!holdId || r.holdId !== holdId],
    on a row with a non-empty hold id. *)
Lemma falsyOrNeq_spec r h :
  Lock.hold_id r <> "" ->
  negb (truthy h) || strictNeq (Lock.hold_id r) h = true <-> otherHold h r.
Proof.
  intros Hne. destruct h as [s|]; simpl; [|tauto].
  destruct (String.eqb_spec s "") as [->|Hs]; simpl.
  - tauto.
  - destruct (String.eqb_spec (Lock.hold_id r) s); simpl; split;
      congruence.
Qed.

(** The [WHERE] clauses, read as the conflict conditions. *)
Lemma paidAny_spec e g r :
  mode g = full ->
  String.eqb (Done.event_id r) e && String.eqb (Done.table_id r) (gtableId g)
  = true <-> soldRow e g r.
Proof.
  intros Hm. unfold soldRow, collides. rewrite Hm, andb_true_iff, !String.eqb_eq.
  tauto.
Qed.

Lemma paidSeats_spec e g r :
  mode g = partial ->
  String.eqb (Done.event_id r) e
  && ((String.eqb (Done.table_id r) (gtableId g) && (Done.seat_no r =? 0))
      || inPairs (Done.table_id r) (Done.seat_no r) (pairsArgs g))
  = true <-> soldRow e g r.
Proof.
  intros Hm. unfold soldRow, collides.
  rewrite Hm, andb_true_iff, orb_true_iff, andb_true_iff, inPairs_spec,
    !String.eqb_eq, Z.eqb_eq.
  tauto.
Qed.

Lemma tableLocks_spec e h now g r :
  mode g = full ->
  (String.eqb (Lock.event_id r) e && String.eqb (Lock.table_id r) (gtableId g)
   && (now <? Lock.expires_at r) = true
   /\ strictNeq (Lock.hold_id r) h = true)
  <-> heldRow e h now g r.
Proof.
  intros Hm. unfold heldRow, collides.
  rewrite Hm, !andb_true_iff, !String.eqb_eq, Z.ltb_lt, strictNeq_spec.
  tauto.
Qed.

Lemma seatLocks_spec e h now g r :
  mode g = partial -> Lock.hold_id r <> "" ->
  (String.eqb (Lock.event_id r) e && (now <? Lock.expires_at r)
   && ((String.eqb (Lock.table_id r) (gtableId g) && (Lock.seat_no r =? 0))
       || inPairs (Lock.table_id r) (Lock.seat_no r) (pairsArgs g)) = true
   /\ negb (truthy h) || strictNeq (Lock.hold_id r) h = true)
  <-> heldRow e h now g r.
Proof.
  intros Hm Hne. unfold heldRow, collides.
  rewrite Hm, !andb_true_iff, orb_true_iff, andb_true_iff, inPairs_spec,
    !String.eqb_eq, Z.eqb_eq, Z.ltb_lt, (falsyOrNeq_spec r h Hne).
  tauto.
Qed.

Lemma sold_full_iff e g db :
  mode g = full ->
  nonEmpty (selectPaidAny e (gtableId g) db) = true <-> sold db e g.
Proof.
  intros Hm. unfold selectPaidAny, sold.
  rewrite nonEmpty_firstn1, nonEmpty_true.
  split; intros (r & Hr); exists r.
  - apply filter_In in Hr. destruct Hr as [Hin Hf].
    split; [assumption | now apply paidAny_spec].
  - destruct Hr as [Hin Hr]. apply filter_In.
    split; [assumption | now apply paidAny_spec].
Qed.

Lemma held_full_iff e h now g db :
  mode g = full ->
  existsb (fun r => strictNeq (Lock.hold_id r) h)
          (selectTableLocks e (gtableId g) now db) = true
  <-> held db e h now g.
Proof.
  intros Hm. unfold selectTableLocks, held. rewrite existsb_exists.
  split; intros (r & Hr); exists r.
  - destruct Hr as [Hr Hs]. apply filter_In in Hr. destruct Hr as [Hin Hf].
    split; [assumption|]. apply tableLocks_spec; auto.
  - destruct Hr as [Hin Hr]. apply tableLocks_spec in Hr; [|assumption].
    destruct Hr as [Hf Hs]. split; [|assumption].
    apply filter_In. auto.
Qed.

Lemma paidSeats_In e g db k :
  mode g = partial ->
  In k (map Done.seat
          (filter (fun r =>
             String.eqb (Done.event_id r) e
             && ((String.eqb (Done.table_id r) (gtableId g)
                  && (Done.seat_no r =? 0))
                 || inPairs (Done.table_id r) (Done.seat_no r) (pairsArgs g)))
            (done_seatlocks db)))
  <-> exists r, In r (done_seatlocks db) /\ soldRow e g r /\ Done.seat r = k.
Proof.
  intros Hm. rewrite in_map_iff. split; intros (r & H1 & H2); exists r.
  - apply filter_In in H2. destruct H2 as [Hin Hf].
    split; [assumption|]. split; [|assumption]. now apply paidSeats_spec.
  - destruct H2 as [Hs E]. split; [assumption|].
    apply filter_In. split; [assumption | now apply paidSeats_spec].
Qed.

Lemma heldSeats_In e h now g db k :
  mode g = partial -> holdIdsNonEmpty db ->
  In k (map Lock.seat
          (filter (fun r => negb (truthy h) || strictNeq (Lock.hold_id r) h)
             (filter (fun r =>
                String.eqb (Lock.event_id r) e
                && (now <? Lock.expires_at r)
                && ((String.eqb (Lock.table_id r) (gtableId g)
                     && (Lock.seat_no r =? 0))
                    || inPairs (Lock.table_id r) (Lock.seat_no r) (pairsArgs g)))
               (seat_locks db))))
  <-> exists r, In r (seat_locks db) /\ heldRow e h now g r /\ Lock.seat r = k.
Proof.
  intros Hm Hwf. rewrite in_map_iff. split; intros (r & H1 & H2); exists r.
  - apply filter_In in H2. destruct H2 as [H2 Ho].
    apply filter_In in H2. destruct H2 as [Hin Hf].
    split; [assumption|]. split; [|assumption].
    apply seatLocks_spec; auto.
  - destruct H2 as [Hs E]. split; [assumption|].
    apply seatLocks_spec in Hs; auto. destruct Hs as [Hf Ho].
    apply filter_In. split; [|assumption]. apply filter_In. auto.
Qed.

(** One round of the conflict loop on a group the store can check: either
    the group does not conflict and the loop goes on with the connection
    as it was, or the transaction is rolled back and the handler returns
    the conflict response of that group. *)
Lemma checkGroup_sound e h now g c :
  checkable g -> holdIdsNonEmpty (working c) ->
  (~ conflicting (working c) e h now g
   /\ checkGroup e h now g c = (Next tt, c))
  \/ (exists message keys,
        checkGroup e h now g c
        = (Reply (ConflictFound message keys), rolledBack c)
        /\ reportedFor (working c) e h now g message keys).
Proof.
  intros Hchk Hwf. unfold checkGroup. destruct (mode g) eqn:Hm.
  - unfold bind, query. simpl.
    destruct (nonEmpty (selectPaidAny e (gtableId g) (working c))) eqn:Hp.
    + right. eexists. eexists. split; [reflexivity|].
      split; [discriminate|]. left.
      split; [now apply sold_full_iff|]. split; [reflexivity|].
      unfold soldKeys. now rewrite Hm.
    + assert (Hns : ~ sold (working c) e g).
      { intros Hs. apply sold_full_iff in Hs; [congruence | assumption]. }
      destruct (existsb (fun r => strictNeq (Lock.hold_id r) h)
                  (selectTableLocks e (gtableId g) now (working c))) eqn:Ht.
      * right. eexists. eexists. split; [reflexivity|].
        split; [discriminate|]. right.
        split; [assumption|]. split; [now apply held_full_iff|].
        split; [reflexivity|]. unfold heldKeys. now rewrite Hm.
      * left. split; [|reflexivity].
        intros [Hs|Hh]; [contradiction|].
        apply held_full_iff in Hh; [congruence | assumption].
  - specialize (Hchk Hm). apply pairsSql_checkable in Hchk.
    unfold bind, query, selectPaidSeats, selectSeatLocks. rewrite Hchk. simpl.
    match goal with |- context [nonEmpty (map Done.seat ?l)] =>
      set (paidRows := map Done.seat l) end.
    assert (Hpaid : forall k, In k paidRows <->
              exists r, In r (done_seatlocks (working c))
                        /\ soldRow e g r /\ Done.seat r = k).
    { intros k. now apply paidSeats_In. }
    destruct (nonEmpty paidRows) eqn:Hp.
    + right. eexists. eexists. split; [reflexivity|].
      split; [now apply nonEmpty_not_nil|]. left.
      split; [|split; [reflexivity|]].
      * apply nonEmpty_true in Hp. destruct Hp as (k & Hk).
        apply Hpaid in Hk. destruct Hk as (r & Hin & Hs & _). now exists r.
      * unfold soldKeys. rewrite Hm. exact Hpaid.
    + assert (Hns : ~ sold (working c) e g).
      { intros (r & Hin & Hs). apply nonEmpty_false in Hp.
        assert (Hk : In (Done.seat r) paidRows) by (apply Hpaid; eauto).
        rewrite Hp in Hk. exact Hk. }
      simpl.
      match goal with |- context [nonEmpty (filter ?f ?l)] =>
        set (conflicts := filter f l) end.
      assert (Hheld : forall k, In k (map Lock.seat conflicts) <->
                exists r, In r (seat_locks (working c))
                          /\ heldRow e h now g r /\ Lock.seat r = k).
      { intros k. now apply heldSeats_In. }
      destruct (nonEmpty conflicts) eqn:Hc.
      * right. eexists. eexists. split; [reflexivity|].
        split.
        { apply nonEmpty_not_nil in Hc. destruct conflicts; [congruence|].
          discriminate. }
        right. split; [assumption|]. split; [|split; [reflexivity|]].
        -- apply nonEmpty_true in Hc. destruct Hc as (r0 & Hr0).
           assert (Hk : In (Lock.seat r0) (map Lock.seat conflicts))
             by now apply in_map.
           apply Hheld in Hk. destruct Hk as (r & Hin & Hs & _). now exists r.
        -- unfold heldKeys. rewrite Hm. exact Hheld.
      * left. split; [|reflexivity].
        intros [Hs|(r & Hin & Hh)]; [contradiction|].
        apply nonEmpty_false in Hc.
        assert (Hk : In (Lock.seat r) (map Lock.seat conflicts))
          by (apply Hheld; eauto).
        rewrite Hc in Hk. exact Hk.
Qed.

(** X3. On a full-table group, and on a partial group with at least one
    seat, the loop body of the conflict check reports a conflict exactly
    when a permanent allocation, or an unexpired hold under another hold
    id, collides with the group: any row of the table for a full-table
    group; seat 0 or a requested seat for a partial one. *)
Lemma checkGroup_reports_iff e h now g c :
  checkable g -> holdIdsNonEmpty (working c) ->
  reportsConflict (checkGroup e h now g c)
  <-> conflicting (working c) e h now g.
Proof.
  intros Hchk Hwf.
  destruct (checkGroup_sound e h now g c Hchk Hwf)
    as [[Hn E]|(m & keys & E & _ & Hr)]; unfold reportsConflict; rewrite E.
  - split; [|contradiction]. intros (m & keys & H). discriminate.
  - split.
    + intros _. unfold conflicting.
      destruct Hr as [(Hs & _)|(_ & Hh & _)]; auto.
    + intros _. exists m, keys. reflexivity.
Qed.

(** Whatever the group, the loop body leaves the store alone. *)
Lemma checkGroup_outcomes e h now g c :
  checkGroup e h now g c = (Next tt, c)
  \/ checkGroup e h now g c = (Throw, c)
  \/ exists message keys,
       checkGroup e h now g c
       = (Reply (ConflictFound message keys), rolledBack c).
Proof.
  unfold checkGroup, bind, query, selectPaidSeats, selectSeatLocks.
  destruct (mode g); simpl.
  - case_if; [right; right; do 2 eexists; reflexivity|].
    case_if; [right; right; do 2 eexists; reflexivity | now left].
  - destruct (String.eqb (pairsSql g) ""); [right; now left|].
    case_if; [right; right; do 2 eexists; reflexivity|].
    case_if; [right; right; do 2 eexists; reflexivity | now left].
Qed.

Lemma checkLoop_outcomes e h now groups c :
  forEach groups (checkGroup e h now) c = (Next tt, c)
  \/ forEach groups (checkGroup e h now) c = (Throw, c)
  \/ exists message keys,
       forEach groups (checkGroup e h now) c
       = (Reply (ConflictFound message keys), rolledBack c).
Proof.
  induction groups as [|g groups IH]; simpl.
  - now left.
  - unfold bind.
    destruct (checkGroup_outcomes e h now g c) as [E|[E|(m & k & E)]];
      rewrite E.
    + exact IH.
    + right. now left.
    + right. right. eauto.
Qed.

(** The conflict loop stops at the first conflicting group. *)
Lemma checkLoop_sound e h now groups c :
  Forall checkable groups -> holdIdsNonEmpty (working c) ->
  (Forall (fun g => ~ conflicting (working c) e h now g) groups
   /\ forEach groups (checkGroup e h now) c = (Next tt, c))
  \/ (exists pre g post message keys,
        groups = pre ++ g :: post
        /\ Forall (fun g' => ~ conflicting (working c) e h now g') pre
        /\ forEach groups (checkGroup e h now) c
           = (Reply (ConflictFound message keys), rolledBack c)
        /\ reportedFor (working c) e h now g message keys).
Proof.
  intros Hchk Hwf. induction Hchk as [|g groups Hg Hgs IH].
  - left. split; [constructor | reflexivity].
  - simpl. unfold bind.
    destruct (checkGroup_sound e h now g c Hg Hwf)
      as [[Hn E]|(m & keys & E & Hr)]; rewrite E.
    + destruct IH as [[Hall E']|(pre & g' & post & m & keys & Hsplit
                                   & Hpre & E' & Hr)].
      * left. split; [now constructor | assumption].
      * right. exists (g :: pre), g', post, m, keys.
        split; [simpl; now rewrite Hsplit|].
        split; [now constructor|]. split; assumption.
    + right. exists [], g, groups, m, keys.
      split; [reflexivity|]. split; [constructor|]. split; [reflexivity|].
      assumption.
Qed.

(** ** [POST /api/locks/hold] as a whole *)

Lemma requestHold_valid env l ttl h db :
  l <> [] -> 0 < ttl ->
  requestHold env (mkBody (SeatsArray l) (TtlNumber (Finite ttl)) h) db
  = serve (holdHandler env l ttl h) db.
Proof.
  intros Hl Ht. unfold requestHold. simpl.
  destruct l as [|s l]; [congruence|]. simpl.
  unfold ttlInvalid. simpl.
  destruct (Z.leb_spec ttl 0); [lia | reflexivity].
Qed.

(** The handler after [beginTransaction], by the outcome of the conflict
    loop. *)
Lemma holdHandler_rejected env l ttl h db r c :
  forEach (normalize l) (checkGroup "default" h (now env)) (mkConn db db true)
  = (Reply r, c) ->
  serve (holdHandler env l ttl h) db = (Some r, committed c).
Proof.
  intros H. unfold serve, holdHandler, tryCatch, getConnection, bind,
    beginTransaction. simpl. now rewrite H.
Qed.

Lemma holdHandler_thrown env l ttl h db c :
  forEach (normalize l) (checkGroup "default" h (now env)) (mkConn db db true)
  = (Throw, c) ->
  serve (holdHandler env l ttl h) db
  = (Some (ServerError "hold_failed"), committed c).
Proof.
  intros H. unfold serve, holdHandler, tryCatch, getConnection, bind,
    beginTransaction. simpl. now rewrite H.
Qed.

Lemma holdHandler_passed env l ttl h db c db' :
  validTime (now env + ttl * 1000) = true ->
  forEach (normalize l) (checkGroup "default" h (now env)) (mkConn db db true)
  = (Next tt, c) ->
  forEach (normalize l)
    (writeGroup "default" (newHoldId env h) (now env + ttl * 1000) (now env)) c
  = (Next tt, mkConn db db' true) ->
  serve (holdHandler env l ttl h) db
  = (Some (HoldOk (newHoldId env h) (resolvedSeats (normalize l))
             ((now env + ttl * 1000) / 1000)), db').
Proof.
  intros Hv H1 H2. unfold serve, holdHandler, tryCatch, getConnection, bind,
    beginTransaction. simpl. rewrite H1, Hv, H2. reflexivity.
Qed.

(** The same with an expiry that is not a date, when the store keeps the
    row, and when it rejects the statement. *)
Lemma holdHandler_stored env l ttl h db c db' stored :
  validTime (now env + ttl * 1000) = false ->
  invalidDate env = Some stored ->
  forEach (normalize l) (checkGroup "default" h (now env)) (mkConn db db true)
  = (Next tt, c) ->
  forEach (normalize l)
    (writeGroup "default" (newHoldId env h) stored (now env)) c
  = (Next tt, mkConn db db' true) ->
  serve (holdHandler env l ttl h) db
  = (Some (HoldOkNoExpiry (newHoldId env h) (resolvedSeats (normalize l))),
     db').
Proof.
  intros Hv Hi H1 H2. unfold serve, holdHandler, tryCatch, getConnection,
    bind, beginTransaction. simpl. rewrite H1, Hv, Hi, H2. reflexivity.
Qed.

Lemma rejectLoop_run groups (c : Conn) :
  forEach groups rejectGroup c
  = if nonEmpty (resolvedSeats groups) then (Throw, c) else (Next tt, c).
Proof.
  induction groups as [|g groups IH]; [reflexivity|].
  cbn [forEach]. unfold bind, resolvedSeats. cbn [flat_map].
  fold (resolvedSeats groups).
  unfold rejectGroup, groupSeats. destruct (mode g).
  - reflexivity.
  - destruct (seats g) as [|n ns]; [exact IH | reflexivity].
Qed.

Lemma holdHandler_refused env l ttl h db :
  validTime (now env + ttl * 1000) = false ->
  invalidDate env = None ->
  forEach (normalize l) (checkGroup "default" h (now env)) (mkConn db db true)
  = (Next tt, mkConn db db true) ->
  serve (holdHandler env l ttl h) db
  = if nonEmpty (resolvedSeats (normalize l))
    then (Some (ServerError "hold_failed"), db)
    else (Some (HoldOkNoExpiry (newHoldId env h)
                  (resolvedSeats (normalize l))), db).
Proof.
  intros Hv Hi H1. unfold serve, holdHandler, tryCatch, getConnection,
    bind, beginTransaction. simpl. rewrite H1, Hv, Hi, rejectLoop_run.
  destruct (nonEmpty (resolvedSeats (normalize l))); reflexivity.
Qed.

(** ** The write loop *)

Lemma Lock_hasKey_spec e tb n r :
  Lock.hasKey e tb n r = true <-> Lock.key r = (e, tb, n).
Proof.
  unfold Lock.hasKey, Lock.key.
  rewrite !andb_true_iff, !String.eqb_eq, Z.eqb_eq.
  split; [intros [[-> ->] ->]; reflexivity | intros H; inversion H; auto].
Qed.

Lemma Lock_hasKey_false e tb n r :
  Lock.hasKey e tb n r = false <-> Lock.key r <> (e, tb, n).
Proof.
  rewrite <- Lock_hasKey_spec. destruct (Lock.hasKey e tb n r); split;
    congruence.
Qed.

Lemma upsertLockRows_keys e tb n h x now rows :
  map Lock.key (upsertLockRows e tb n h x now rows)
  = if existsb (Lock.hasKey e tb n) rows then map Lock.key rows
    else map Lock.key rows ++ [(e, tb, n)].
Proof.
  induction rows as [|r rows IH]; simpl; [reflexivity|].
  destruct (Lock.hasKey e tb n r) eqn:E; simpl.
  - reflexivity.
  - rewrite IH. now destruct (existsb _ rows).
Qed.

Lemma upsertLockRows_NoDup e tb n h x now rows :
  NoDup (map Lock.key rows) ->
  NoDup (map Lock.key (upsertLockRows e tb n h x now rows)).
Proof.
  intros H. rewrite upsertLockRows_keys.
  destruct (existsb (Lock.hasKey e tb n) rows) eqn:E; [assumption|].
  apply NoDup_app; [assumption | repeat constructor; simpl; tauto|].
  intros k Hk [<-|[]]. apply in_map_iff in Hk. destruct Hk as (r & Hr & Hin).
  assert (Ht : existsb (Lock.hasKey e tb n) rows = true).
  { apply existsb_exists. exists r. split; [assumption|].
    now apply Lock_hasKey_spec. }
  congruence.
Qed.

Lemma upsertLockRows_key_present e tb n h x now rows :
  In (e, tb, n) (map Lock.key (upsertLockRows e tb n h x now rows)).
Proof.
  rewrite upsertLockRows_keys.
  destruct (existsb (Lock.hasKey e tb n) rows) eqn:E.
  - apply existsb_exists in E. destruct E as (r & Hin & Hk).
    apply Lock_hasKey_spec in Hk. rewrite <- Hk. now apply in_map.
  - apply in_or_app. right. now left.
Qed.

(** The row at the upserted key carries the new hold id and expiry. *)
Lemma upsertLockRows_written e tb n h x now rows r :
  NoDup (map Lock.key rows) ->
  In r (upsertLockRows e tb n h x now rows) -> Lock.key r = (e, tb, n) ->
  Lock.hold_id r = h /\ Lock.expires_at r = x.
Proof.
  induction rows as [|r0 rows IH]; simpl; intros Hnd Hin Hk.
  - destruct Hin as [<-|[]]. auto.
  - inversion Hnd as [|? ? Hn0 Hnd']; subst.
    destruct (Lock.hasKey e tb n r0) eqn:E.
    + destruct Hin as [<-|Hin]; [auto|].
      exfalso. apply Hn0. apply Lock_hasKey_spec in E. rewrite E, <- Hk.
      now apply in_map.
    + destruct Hin as [<-|Hin]; [|now apply IH].
      apply Lock_hasKey_false in E. contradiction.
Qed.

(** Rows at other keys are neither changed, added nor removed. *)
Lemma upsertLockRows_others e tb n h x now rows r :
  Lock.key r <> (e, tb, n) ->
  In r (upsertLockRows e tb n h x now rows) <-> In r rows.
Proof.
  intros Hk. induction rows as [|r0 rows IH]; simpl.
  - split; [|tauto]. intros [<-|[]]. now contradiction Hk.
  - destruct (Lock.hasKey e tb n r0) eqn:E; simpl.
    + apply Lock_hasKey_spec in E. split.
      * intros [<-|Hin]; [|auto]. exfalso. apply Hk. exact E.
      * intros [<-|Hin]; [|auto]. congruence.
    + rewrite IH. tauto.
Qed.

(** A row that was there keeps its creation time; a new row is created
    now. *)
Lemma upsertLockRows_created e tb n h x now rows r :
  In r (upsertLockRows e tb n h x now rows) ->
  Lock.created_at r = now
  \/ exists r0, In r0 rows /\ Lock.key r0 = Lock.key r
                /\ Lock.created_at r0 = Lock.created_at r.
Proof.
  induction rows as [|r0 rows IH]; simpl; intros Hin.
  - destruct Hin as [<-|[]]. now left.
  - destruct (Lock.hasKey e tb n r0) eqn:E.
    + destruct Hin as [<-|Hin].
      * right. exists r0. unfold Lock.key. simpl. auto.
      * right. exists r. auto.
    + destruct Hin as [<-|Hin].
      * right. exists r0. auto.
      * destruct (IH Hin) as [H|(r1 & H1 & H2)]; [now left|].
        right. exists r1. auto.
Qed.

Lemma upsertKeys_cons e h x now k keys db :
  upsertKeys e h x now (k :: keys) db
  = upsertKeys e h x now keys (upsertLock e (tableId k) (seatNo k) h x now db).
Proof. reflexivity. Qed.

Lemma upsertKeys_app e h x now k1 k2 db :
  upsertKeys e h x now (k1 ++ k2) db
  = upsertKeys e h x now k2 (upsertKeys e h x now k1 db).
Proof. unfold upsertKeys. apply fold_left_app. Qed.

Lemma upsertKeys_other_tables e h x now keys db :
  done_seatlocks (upsertKeys e h x now keys db) = done_seatlocks db
  /\ orders (upsertKeys e h x now keys db) = orders db
  /\ order_items (upsertKeys e h x now keys db) = order_items db.
Proof.
  revert db. induction keys as [|k keys IH]; intros db; [auto|].
  rewrite upsertKeys_cons. destruct (IH (upsertLock e (tableId k) (seatNo k) h x now db))
    as (H1 & H2 & H3). rewrite H1, H2, H3. auto.
Qed.

Lemma upsertKeys_unique e h x now keys db :
  uniqueLocks db -> uniqueLocks (upsertKeys e h x now keys db).
Proof.
  revert db. induction keys as [|k keys IH]; intros db H; [assumption|].
  rewrite upsertKeys_cons. apply IH. unfold uniqueLocks. simpl.
  now apply upsertLockRows_NoDup.
Qed.

Lemma upsertLockRows_holdIds e tb n h x now rows :
  h <> "" ->
  (forall r, In r rows -> Lock.hold_id r <> "") ->
  forall r, In r (upsertLockRows e tb n h x now rows) -> Lock.hold_id r <> "".
Proof.
  intros Hh. induction rows as [|r0 rows IH]; simpl; intros Hwf r Hr.
  - destruct Hr as [<-|[]]. exact Hh.
  - destruct (Lock.hasKey e tb n r0).
    + destruct Hr as [<-|Hr]; [exact Hh|]. apply Hwf. now right.
    + destruct Hr as [<-|Hr]; [apply Hwf; now left|].
      apply IH; [|assumption]. intros r1 H1. apply Hwf. now right.
Qed.

Lemma upsertKeys_holdIds e h x now keys db :
  h <> "" -> holdIdsNonEmpty db ->
  holdIdsNonEmpty (upsertKeys e h x now keys db).
Proof.
  intros Hh. revert db. induction keys as [|k keys IH]; intros db H;
    [assumption|].
  rewrite upsertKeys_cons. apply IH. intros r Hr. simpl in Hr.
  eapply upsertLockRows_holdIds; eauto.
Qed.

(** After the loop, every written key has a row with the new hold id and
    expiry, and rows at other keys are as before. *)
Lemma upsertKeys_written e h x now keys db r :
  uniqueLocks db ->
  In r (seat_locks (upsertKeys e h x now keys db)) ->
  In (Lock.key r) (map (lockKey e) keys) ->
  Lock.hold_id r = h /\ Lock.expires_at r = x.
Proof.
  revert db. induction keys as [|k keys IH]; intros db Hu Hin Hk;
    [destruct Hk|].
  rewrite upsertKeys_cons in Hin.
  assert (Hu' : uniqueLocks (upsertLock e (tableId k) (seatNo k) h x now db)).
  { unfold uniqueLocks. simpl. now apply upsertLockRows_NoDup. }
  destruct (in_dec (fun a b : string * string * Z =>
              ltac:(repeat decide equality; apply ascii_dec))
              (Lock.key r) (map (lockKey e) keys)) as [Hlater|Hnot].
  - now apply (IH _ Hu' Hin).
  - destruct Hk as [Hk|Hk]; [|contradiction].
    assert (Hstay : forall keys' db',
               ~ In (Lock.key r) (map (lockKey e) keys') ->
               In r (seat_locks (upsertKeys e h x now keys' db')) ->
               In r (seat_locks db')).
    { clear. induction keys' as [|k' keys' IHk]; intros db' Hn Hr;
        [assumption|].
      rewrite upsertKeys_cons in Hr. apply IHk in Hr.
      - simpl in Hr. apply upsertLockRows_others in Hr; [assumption|].
        intros E. apply Hn. left. unfold lockKey. now rewrite E.
      - intros H. apply Hn. now right. }
    apply Hstay in Hin; [|assumption]. simpl in Hin.
    apply (upsertLockRows_written _ _ _ _ _ _ _ _ Hu Hin). now rewrite <- Hk.
Qed.

Lemma upsertKeys_present e h x now keys db k :
  In k keys ->
  In (lockKey e k) (map Lock.key (seat_locks (upsertKeys e h x now keys db))).
Proof.
  revert db. induction keys as [|k0 keys IH]; intros db Hk; [destruct Hk|].
  rewrite upsertKeys_cons. destruct Hk as [->|Hk]; [|now apply IH].
  assert (Hkeep : forall keys' db' key,
             In key (map Lock.key (seat_locks db')) ->
             In key (map Lock.key (seat_locks (upsertKeys e h x now keys' db')))).
  { clear. induction keys' as [|k' keys' IHk]; intros db' key Hin;
      [assumption|].
    rewrite upsertKeys_cons. apply IHk. simpl. rewrite upsertLockRows_keys.
    destruct (existsb _ _); [assumption | apply in_or_app; now left]. }
  apply Hkeep. simpl. apply upsertLockRows_key_present.
Qed.

Lemma upsertKeys_others e h x now keys db r :
  ~ In (Lock.key r) (map (lockKey e) keys) ->
  In r (seat_locks (upsertKeys e h x now keys db)) <-> In r (seat_locks db).
Proof.
  revert db. induction keys as [|k keys IH]; intros db Hn; [reflexivity|].
  rewrite upsertKeys_cons, IH.
  - simpl. apply upsertLockRows_others. intros E. apply Hn. left.
    unfold lockKey. now rewrite E.
  - intros H. apply Hn. now right.
Qed.

Lemma execute_in_transaction {R} (f : Db -> Db) db0 db :
  execute (R := R) f (mkConn db0 db true)
  = (Next tt, mkConn db0 (f db) true).
Proof. reflexivity. Qed.

Lemma writeGroup_run e h x now g db0 db :
  writeGroup e h x now g (mkConn db0 db true)
  = (Next tt, mkConn db0 (upsertKeys e h x now (groupSeats g) db) true).
Proof.
  unfold writeGroup, groupSeats. destruct (mode g); [reflexivity|].
  generalize (seats g). intros ns. revert db.
  induction ns as [|n ns IH]; intros db; [reflexivity|].
  simpl. unfold bind. rewrite execute_in_transaction. apply IH.
Qed.

Lemma writeLoop_run e h x now groups db0 db :
  forEach groups (writeGroup e h x now) (mkConn db0 db true)
  = (Next tt, mkConn db0 (upsertKeys e h x now (resolvedSeats groups) db) true).
Proof.
  revert db. induction groups as [|g groups IH]; intros db; [reflexivity|].
  simpl. unfold bind. rewrite writeGroup_run, IH.
  now rewrite upsertKeys_app.
Qed.

(** The three ways a validated request ends: the conflict loop passes and
    every resolved seat key is upserted; the loop throws; the loop returns
    a conflict. *)
Lemma holdHandler_outcomes env l ttl h db :
  (forEach (normalize l) (checkGroup "default" h (now env)) (mkConn db db true)
   = (Next tt, mkConn db db true)
   /\ validTime (now env + ttl * 1000) = true
   /\ serve (holdHandler env l ttl h) db
      = (Some (HoldOk (newHoldId env h) (resolvedSeats (normalize l))
                 ((now env + ttl * 1000) / 1000)),
         upsertKeys "default" (newHoldId env h) (now env + ttl * 1000) (now env)
           (resolvedSeats (normalize l)) db))
  \/ (forEach (normalize l) (checkGroup "default" h (now env))
        (mkConn db db true)
      = (Next tt, mkConn db db true)
      /\ validTime (now env + ttl * 1000) = false
      /\ exists stored,
           (invalidDate env = Some stored \/ resolvedSeats (normalize l) = [])
           /\ serve (holdHandler env l ttl h) db
              = (Some (HoldOkNoExpiry (newHoldId env h)
                         (resolvedSeats (normalize l))),
                 upsertKeys "default" (newHoldId env h) stored (now env)
                   (resolvedSeats (normalize l)) db))
  \/ serve (holdHandler env l ttl h) db = (Some (ServerError "hold_failed"), db)
  \/ exists message keys,
       serve (holdHandler env l ttl h) db
       = (Some (ConflictFound message keys), db).
Proof.
  destruct (checkLoop_outcomes "default" h (now env) (normalize l)
              (mkConn db db true)) as [E|[E|(m & k & E)]].
  - destruct (validTime (now env + ttl * 1000)) eqn:Hv.
    + left. split; [assumption|]. split; [reflexivity|].
      apply (holdHandler_passed _ _ _ _ _ _ _ Hv E). apply writeLoop_run.
    + destruct (invalidDate env) as [stored|] eqn:Hi.
      * right. left. split; [assumption|]. split; [reflexivity|].
        exists stored. split; [now left|].
        apply (holdHandler_stored _ _ _ _ _ _ _ _ Hv Hi E).
        apply writeLoop_run.
      * rewrite (holdHandler_refused _ _ _ _ _ Hv Hi E).
        destruct (resolvedSeats (normalize l)) as [|k ks] eqn:Ek.
        -- right. left. split; [assumption|]. split; [reflexivity|].
           exists 0. split; [now right|]. reflexivity.
        -- right. right. left. reflexivity.
  - right. right. left. now rewrite (holdHandler_thrown _ _ _ _ _ _ E).
  - right. right. right. exists m, k.
    now rewrite (holdHandler_rejected _ _ _ _ _ _ _ E).
Qed.

(** A request that does not succeed leaves the database as it was. *)
Lemma requestHold_no_partial_success env body db r db' :
  requestHold env body db = (r, db') ->
  (forall id keys x, r <> Some (HoldOk id keys x)) ->
  (forall id keys, r <> Some (HoldOkNoExpiry id keys)) ->
  db' = db.
Proof.
  unfold requestHold. intros H Hr Hr'.
  destruct (seatsRequired _); [now inversion H|].
  destruct (ttlInvalid _); [now inversion H|].
  destruct (seatsOrDefault (bodySeats body)) as [| |l|]; try now inversion H.
  destruct (ttlOrDefault (bodyTtlSec body)) as [| |[| | |z]];
    try now inversion H.
  destruct (holdHandler_outcomes env l z (bodyHoldId body) db)
    as [(_ & _ & E)|[(_ & _ & x & _ & E)|[E|(m & k & E)]]];
    rewrite E in H; inversion H; subst.
  - exfalso. eapply Hr. reflexivity.
  - exfalso. eapply Hr'. reflexivity.
  - reflexivity.
  - reflexivity.
Qed.

Lemma generateHoldId_nonEmpty env : generateHoldId env <> "".
Proof. unfold generateHoldId. simpl. discriminate. Qed.

Lemma newHoldId_nonEmpty env h : newHoldId env h <> "".
Proof.
  unfold newHoldId. destruct h as [s|]; [|apply generateHoldId_nonEmpty].
  simpl. destruct (String.eqb_spec s ""); simpl;
    [apply generateHoldId_nonEmpty | assumption].
Qed.

(** The store invariants hold along every request. *)
Lemma requestHold_preserves env body db :
  holdIdsNonEmpty db -> uniqueLocks db ->
  holdIdsNonEmpty (snd (requestHold env body db))
  /\ uniqueLocks (snd (requestHold env body db)).
Proof.
  intros Hwf Hu. unfold requestHold.
  destruct (seatsRequired _); [auto|].
  destruct (ttlInvalid _); [auto|].
  destruct (seatsOrDefault (bodySeats body)) as [| |l|]; auto.
  destruct (ttlOrDefault (bodyTtlSec body)) as [| |[| | |z]]; auto.
  destruct (holdHandler_outcomes env l z (bodyHoldId body) db)
    as [(_ & _ & E)|[(_ & _ & x & _ & E)|[E|(m & k & E)]]];
    rewrite E; simpl; auto.
  - split.
    + apply upsertKeys_holdIds; [apply newHoldId_nonEmpty | assumption].
    + now apply upsertKeys_unique.
  - split.
    + apply upsertKeys_holdIds; [apply newHoldId_nonEmpty | assumption].
    + now apply upsertKeys_unique.
Qed.

Lemma sorted_NoDup l : StronglySorted Z.lt l -> NoDup l.
Proof.
  induction 1 as [|a l Hs IH Ha]; constructor; [|assumption].
  intros Hin. rewrite Forall_forall in Ha. specialize (Ha a Hin). lia.
Qed.

Lemma groupSeats_table g k : In k (groupSeats g) -> tableId k = gtableId g.
Proof.
  unfold groupSeats. destruct (mode g).
  - intros [<-|[]]. reflexivity.
  - intros H. apply in_map_iff in H. destruct H as (n & <- & _). reflexivity.
Qed.

Lemma resolvedSeats_NoDup groups :
  NoDup (map gtableId groups) ->
  (forall g, In g groups -> NoDup (seats g)) ->
  NoDup (resolvedSeats groups).
Proof.
  induction groups as [|g groups IH]; simpl; intros Ht Hs; [constructor|].
  inversion Ht as [|? ? Hg Ht']; subst.
  apply NoDup_app.
  - unfold groupSeats. destruct (mode g).
    + repeat constructor. simpl. tauto.
    + assert (Hnd : NoDup (seats g)) by (apply Hs; now left).
      induction Hnd as [|n ns Hn Hnd IHn]; simpl; constructor; [|assumption].
      intros Hin. apply in_map_iff in Hin. destruct Hin as (m & E & Hm).
      inversion E; subst. contradiction.
  - apply IH; [assumption|]. intros g' Hg'. apply Hs. now right.
  - intros k Hk Hk'. apply groupSeats_table in Hk.
    apply resolvedSeats_In in Hk'. destruct Hk' as (g' & Hg' & Hk').
    apply groupSeats_table in Hk'. apply Hg. rewrite <- Hk, Hk'.
    now apply in_map.
Qed.

(** The resolved seat keys of a request are pairwise distinct. *)
Lemma normalize_resolved_NoDup l : NoDup (resolvedSeats (normalize l)).
Proof.
  apply resolvedSeats_NoDup.
  - rewrite normalize_tables. apply groupByTable_NoDup.
  - intros g Hg.
    destruct (normalize_group_cases l g Hg)
      as [(_ & -> & _)|(_ & _ & Hs & _)].
    + repeat constructor. simpl. tauto.
    + now apply sorted_NoDup.
Qed.

(** ** Rejections *)

(** C9. A request whose [seats] is empty, missing or not an array, or
    whose [ttlSec] is given and is not a finite positive number, is
    answered with a validation error that does not depend on the store,
    and both lock tables (the whole database) are left as they were. *)
Theorem requestHold_validation (env : Env) (body : Body) :
  seatsEmptyOrNotArray (bodySeats body) \/ ttlNotFinitePositive (bodyTtlSec body) ->
  exists message,
    forall db, requestHold env body db = (Some (Unprocessable message), db).
Proof.
  destruct body as [fs ft h]. simpl. unfold requestHold. simpl.
  intros [Hs|Ht].
  - exists "seats[] required". intros db.
    destruct fs as [| |[|s l]|]; simpl in *; try reflexivity; contradiction.
  - destruct (seatsRequired (seatsOrDefault fs)).
    + exists "seats[] required". reflexivity.
    + exists "ttlSec invalid". intros db.
      destruct ft as [| |[| | |z]]; simpl in *; try reflexivity.
      * contradiction.
      * unfold ttlInvalid. simpl.
        destruct (Z.leb_spec z 0); [reflexivity | lia].
Qed.

Lemma requestHold_validation_witness :
  (seatsEmptyOrNotArray (SeatsArray [seatA 1])
   \/ ttlNotFinitePositive (TtlNumber (Finite 0)))
  /\ exists message,
       forall db,
         requestHold exampleEnv
           (mkBody (SeatsArray [seatA 1]) (TtlNumber (Finite 0)) None) db
         = (Some (Unprocessable message), db).
Proof.
  assert (H : seatsEmptyOrNotArray (SeatsArray [seatA 1])
              \/ ttlNotFinitePositive (TtlNumber (Finite 0)))
    by (right; simpl; lia).
  split; [exact H|].
  exact (requestHold_validation exampleEnv
           (mkBody (SeatsArray [seatA 1]) (TtlNumber (Finite 0)) None) H).
Defined.

(** C10. The body [{seats: [{tableId: "A", seatNo: -1}], ttlSec: 600}]
    passes both validations. Its normalization is one partial group
    without seats, so the list spliced into the [IN (...)] of the partial
    conflict query is empty; the store rejects the statement and the
    request ends with the 500 response [hold_failed], whatever the clock
    and the store, which is left unchanged. *)
Theorem empty_partial_group_hold_failed :
  seatsRequired (SeatsArray [seatA (-1)]) = false
  /\ ttlInvalid (TtlNumber (Finite 600)) = false
  /\ normalize [seatA (-1)] = [mkGroup "A" partial []]
  /\ pairsSql (mkGroup "A" partial []) = ""
  /\ forall env holdId db,
       requestHold env
         (mkBody (SeatsArray [seatA (-1)]) (TtlNumber (Finite 600)) holdId) db
       = (Some (ServerError "hold_failed"), db).
Proof.
  repeat split.
Qed.

(** C1, at a failing input. Table A is sold as a whole and the request
    names seat -1 of table A. The group is partial and the permanent
    allocation at seat 0 conflicts with it, yet the conflict check does
    not report it: the query is rejected and the request ends with
    [hold_failed]. *)
Theorem empty_partial_group_not_reported :
  normalize [seatA (-1)] = [mkGroup "A" partial []]
  /\ conflicting tableASold "default" None (now exampleEnv)
       (mkGroup "A" partial [])
  /\ ~ reportsConflict
         (checkGroup "default" None (now exampleEnv) (mkGroup "A" partial [])
            (mkConn tableASold tableASold true))
  /\ requestHold exampleEnv (holdBody [seatA (-1)] None) tableASold
     = (Some (ServerError "hold_failed"), tableASold).
Proof.
  split; [reflexivity|]. split; [|split; [|reflexivity]].
  - left. exists (Done.mk "default" 7 "A" 0). split; [now left|].
    unfold soldRow, collides. simpl. auto.
  - intros (m & k & H). vm_compute in H. discriminate.
Qed.

(** C3, at a failing input. The store is empty, so nothing conflicts, and
    the request resolves to seat 1 of table B; but it also names seat -1
    of table A, the conflict query of that group is rejected, and the
    request ends with [hold_failed] and no hold written. *)
Theorem empty_partial_group_blocks_hold :
  normalize [seatA (-1); seatB 1]
  = [mkGroup "A" partial []; mkGroup "B" partial [1]]
  /\ Forall (fun g => ~ conflicting emptyDb "default" None (now exampleEnv) g)
       (normalize [seatA (-1); seatB 1])
  /\ resolvedSeats (normalize [seatA (-1); seatB 1]) = [seatB 1]
  /\ requestHold exampleEnv (holdBody [seatA (-1); seatB 1] None) emptyDb
     = (Some (ServerError "hold_failed"), emptyDb).
Proof.
  split; [reflexivity|]. split; [|split; reflexivity].
  apply Forall_forall. intros g _ [(r & [] & _)|(r & [] & _)].
Qed.

(** ** Conflicts *)

(** C2, as amended. Take a validated request in which every partial
    group names at least one seat, and a store whose hold ids are not
    empty. If some group conflicts, the request is rejected and the
    database is left as it was. The response lists the conflicts of the
    first conflicting group in request order and of no later group: the
    sentinel key of a full-table group; for a partial group the sold rows
    if there are any, otherwise the rows held by others. Its message is
    "Some seats already sold" in the permanent case and "Some seats
    already held" in the temporary case. *)
Theorem requestHold_conflict (env : Env) (l : list SeatKey) (ttl : Z)
    (holdId : option string) (db : Db) :
  l <> [] -> 0 < ttl ->
  Forall checkable (normalize l) -> holdIdsNonEmpty db ->
  Exists (conflicting db "default" holdId (now env)) (normalize l) ->
  exists pre g post message keys,
    normalize l = pre ++ g :: post
    /\ Forall (fun g' => ~ conflicting db "default" holdId (now env) g') pre
    /\ requestHold env (mkBody (SeatsArray l) (TtlNumber (Finite ttl)) holdId) db
       = (Some (ConflictFound message keys), db)
    /\ reportedFor db "default" holdId (now env) g message keys.
Proof.
  intros Hl Ht Hchk Hwf Hex.
  destruct (checkLoop_sound "default" holdId (now env) (normalize l)
              (mkConn db db true) Hchk Hwf)
    as [[Hall _]|(pre & g & post & m & keys & Hsplit & Hpre & E & Hr)].
  - exfalso. apply Exists_exists in Hex. destruct Hex as (g & Hg & Hc).
    rewrite Forall_forall in Hall. exact (Hall g Hg Hc).
  - exists pre, g, post, m, keys. repeat split; try assumption.
    + rewrite requestHold_valid by assumption.
      now rewrite (holdHandler_rejected _ _ _ _ _ _ _ E).
    + apply Hr.
    + apply Hr.
Qed.

Lemma requestHold_conflict_witness :
  exists pre g post message keys,
    normalize [seatA 2; seatA 3] = pre ++ g :: post
    /\ Forall (fun g' => ~ conflicting heldByH1 "default" (Some "H2")
                             (now exampleEnv) g') pre
    /\ requestHold exampleEnv
         (mkBody (SeatsArray [seatA 2; seatA 3]) (TtlNumber (Finite 600))
            (Some "H2")) heldByH1
       = (Some (ConflictFound message keys), heldByH1)
    /\ reportedFor heldByH1 "default" (Some "H2") (now exampleEnv) g
         message keys.
Proof.
  apply (requestHold_conflict exampleEnv [seatA 2; seatA 3] 600 (Some "H2")
           heldByH1).
  - discriminate.
  - lia.
  - change (normalize [seatA 2; seatA 3]) with [mkGroup "A" partial [2; 3]].
    repeat constructor. intros _. discriminate.
  - intros r [<-|[<-|[]]]; discriminate.
  - change (normalize [seatA 2; seatA 3]) with [mkGroup "A" partial [2; 3]].
    apply Exists_cons_hd. right.
    exists (Lock.mk "default" "A" 2 "H1" 1700000600000 1700000000000).
    split; [right; now left|].
    unfold heldRow, collides, otherHold. simpl.
    repeat split; try reflexivity; try lia; try discriminate.
Defined.

(** C2, as stated, fails. Seat 1 of table A and seat 1 of table B are
    both sold and both requested. The request is rejected for table A and
    the response lists seat A-1 only: seat B-1, which conflicts just as
    well, is not in the list, because the loop returns at the first
    conflicting group. *)
Lemma requestHold_conflict_counterexample :
  requestHold exampleEnv (holdBody [seatA 1; seatB 1] None) twoSeatsSold
  = (Some (ConflictFound "Some seats already sold" [seatA 1]), twoSeatsSold)
  /\ In (mkGroup "B" partial [1]) (normalize [seatA 1; seatB 1])
  /\ sold twoSeatsSold "default" (mkGroup "B" partial [1])
  /\ In (Done.mk "default" 8 "B" 1) (done_seatlocks twoSeatsSold)
  /\ In (seatB 1) [seatA 1; seatB 1]
  /\ ~ In (seatB 1) [seatA 1].
Proof.
  split; [reflexivity|]. split; [right; now left|].
  split; [|split; [right; now left|split; [right; now left|]]].
  - exists (Done.mk "default" 8 "B" 1). split; [right; now left|].
    unfold soldRow, collides. simpl. auto.
  - intros [H|[]]. discriminate.
Qed.

(** ** Successful holds *)

(** X4. A validated request whose expiry is a date (at most 8.64e15
    milliseconds from the epoch), whose groups can all be checked and do
    not conflict, succeeds. The response carries the hold id (the
    supplied one if it is truthy, a generated one otherwise), the
    resolved seat keys and the expiry in seconds. The resolved keys are
    pairwise distinct and, after the request, [seat_locks] has exactly
    one row at each of them, with that hold id and the expiry
    [now + ttlSec * 1000]; rows at other keys and the table of permanent
    allocations are untouched. *)
Lemma requestHold_success (env : Env) (l : list SeatKey) (ttl : Z)
    (holdId : option string) (db : Db) :
  l <> [] -> 0 < ttl -> validTime (now env + ttl * 1000) = true ->
  Forall checkable (normalize l) -> holdIdsNonEmpty db -> uniqueLocks db ->
  Forall (fun g => ~ conflicting db "default" holdId (now env) g)
         (normalize l) ->
  let id := newHoldId env holdId in
  let expiresAt := now env + ttl * 1000 in
  let keys := resolvedSeats (normalize l) in
  exists db',
    requestHold env (mkBody (SeatsArray l) (TtlNumber (Finite ttl)) holdId) db
    = (Some (HoldOk id keys (expiresAt / 1000)), db')
    /\ NoDup keys
    /\ uniqueLocks db'
    /\ (forall k, In k keys ->
          exists r, In r (seat_locks db') /\ Lock.key r = lockKey "default" k)
    /\ (forall r, In r (seat_locks db') ->
          In (Lock.key r) (map (lockKey "default") keys) ->
          Lock.hold_id r = id /\ Lock.expires_at r = expiresAt)
    /\ (forall r, ~ In (Lock.key r) (map (lockKey "default") keys) ->
          (In r (seat_locks db') <-> In r (seat_locks db)))
    /\ done_seatlocks db' = done_seatlocks db.
Proof.
  intros Hl Ht Hv Hchk Hwf Hu Hnc id expiresAt keys.
  exists (upsertKeys "default" id expiresAt (now env) keys db).
  split; [|split; [|split; [|split; [|split; [|split]]]]].
  - rewrite requestHold_valid by assumption.
    destruct (checkLoop_sound "default" holdId (now env) (normalize l)
                (mkConn db db true) Hchk Hwf)
      as [[_ E]|(pre & g & post & m & ks & Hsplit & _ & _ & _ & Hr)].
    + apply (holdHandler_passed _ _ _ _ _ _ _ Hv E). apply writeLoop_run.
    + exfalso. rewrite Forall_forall in Hnc. apply (Hnc g).
      * rewrite Hsplit. apply in_or_app. right. now left.
      * simpl in Hr. unfold conflicting.
        destruct Hr as [(Hs & _)|(_ & Hh & _)]; auto.
  - apply normalize_resolved_NoDup.
  - now apply upsertKeys_unique.
  - intros k Hk.
    pose proof (upsertKeys_present "default" id expiresAt (now env) keys db k Hk)
      as Hp.
    apply in_map_iff in Hp. destruct Hp as (r & Hr & Hin). eauto.
  - intros r Hr Hk. eapply upsertKeys_written; eauto.
  - intros r Hk. now apply upsertKeys_others.
  - apply upsertKeys_other_tables.
Qed.

(** Renewal: the caller's own unexpired holds do not conflict with the
    caller's request. *)
Lemma own_hold_not_held e h now g r :
  Lock.hold_id r = h -> ~ heldRow e (Some h) now g r.
Proof. intros E (_ & _ & _ & Ho & _). now apply Ho. Qed.

(** ** [GET /api/locks] *)

(** The answer depends on the unexpired holds and on the permanent
    allocations only. *)
Lemma listActive_ignores_expired now db1 db2 :
  filter (fun r => now <? Lock.expires_at r) (seat_locks db1)
  = filter (fun r => now <? Lock.expires_at r) (seat_locks db2) ->
  done_seatlocks db1 = done_seatlocks db2 ->
  fst (listActive now db1) = fst (listActive now db2).
Proof.
  intros Hl Hd.
  assert (H : forall db,
            selectActiveLocks now (deleteExpired now db)
            = map Lock.seat
                (filter (fun r => String.eqb (Lock.event_id r) "default")
                   (filter (fun r => now <? Lock.expires_at r) (seat_locks db)))).
  { intros db. unfold selectActiveLocks. simpl. f_equal.
    induction (seat_locks db) as [|r rows IH]; simpl; [reflexivity|].
    destruct (Lock.expires_at r <? now) eqn:E1;
      destruct (now <? Lock.expires_at r) eqn:E2; simpl;
      rewrite ?E2, ?andb_true_r, ?andb_false_r, ?IH; try reflexivity.
    apply Z.ltb_lt in E1, E2. lia. }
  unfold listActive, serve, listActiveHandler, tryCatch, bind, execute, query,
    getConnection. simpl.
  change (withLocks (filter (fun r => negb (Lock.expires_at r <? now))) db1)
    with (deleteExpired now db1).
  change (withLocks (filter (fun r => negb (Lock.expires_at r <? now))) db2)
    with (deleteExpired now db2).
  rewrite !H, Hl. unfold selectPaid. simpl. now rewrite Hd.
Qed.

Lemma filter_twice {A} (f : A -> bool) l :
  filter f l = filter f (filter f l).
Proof.
  induction l as [|a l IH]; simpl; [reflexivity|].
  destruct (f a) eqn:E; simpl; rewrite ?E; [f_equal|]; exact IH.
Qed.

(** C5. [listActive] first deletes every temporary hold whose expiry is
    before now, from the whole table, and touches nothing else. It then
    answers with one list: for each hold of the event that expires after
    now, in table order, and then for each permanent allocation of the
    event, the seats 1 to 10 of the row's table when the row is at seat
    0, and the row's own table and seat otherwise. So a seat is in the
    answer exactly when such a hold or allocation is at it, or at seat 0
    of its table while it is one of the seats 1 to 10; seat 0 itself is
    never in the answer; and a hold whose expiry is not after now
    contributes nothing: the answer is the same as without it. *)
Theorem listActive_spec (now : Z) (db : Db) :
  exists db' locks,
    listActive now db = (Some (LocksOk locks), db')
    /\ (forall r, In r (seat_locks db')
                  <-> In r (seat_locks db) /\ ~ Lock.expires_at r < now)
    /\ done_seatlocks db' = done_seatlocks db
    /\ orders db' = orders db
    /\ order_items db' = order_items db
    /\ locks
       = flat_map
           (fun r =>
              if Lock.seat_no r =? 0
              then map (mkSeat (Lock.table_id r)) [1; 2; 3; 4; 5; 6; 7; 8; 9; 10]
              else [mkSeat (Lock.table_id r) (Lock.seat_no r)])
           (filter (fun r => String.eqb (Lock.event_id r) "default"
                             && (now <? Lock.expires_at r))
                   (seat_locks db))
         ++ flat_map
              (fun r =>
                 if Done.seat_no r =? 0
                 then map (mkSeat (Done.table_id r))
                        [1; 2; 3; 4; 5; 6; 7; 8; 9; 10]
                 else [mkSeat (Done.table_id r) (Done.seat_no r)])
              (filter (fun r => String.eqb (Done.event_id r) "default")
                      (done_seatlocks db))
    /\ (forall k,
          In k locks
          <-> (exists r,
                 In r (seat_locks db) /\ Lock.event_id r = "default"
                 /\ now < Lock.expires_at r
                 /\ Lock.table_id r = tableId k
                 /\ ((Lock.seat_no r = 0 /\ 1 <= seatNo k <= 10)
                     \/ (Lock.seat_no r <> 0 /\ seatNo k = Lock.seat_no r)))
              \/ (exists r,
                    In r (done_seatlocks db) /\ Done.event_id r = "default"
                    /\ Done.table_id r = tableId k
                    /\ ((Done.seat_no r = 0 /\ 1 <= seatNo k <= 10)
                        \/ (Done.seat_no r <> 0
                            /\ seatNo k = Done.seat_no r))))
    /\ (forall k, In k locks -> seatNo k <> 0)
    /\ fst (listActive now
              (mkDb (filter (fun r => now <? Lock.expires_at r) (seat_locks db))
                    (done_seatlocks db) (orders db) (order_items db)))
       = Some (LocksOk locks).
Proof.
  assert (Htemp : expand (selectActiveLocks now (deleteExpired now db))
                  = flat_map
                      (fun r =>
                         if Lock.seat_no r =? 0
                         then map (mkSeat (Lock.table_id r))
                                [1; 2; 3; 4; 5; 6; 7; 8; 9; 10]
                         else [mkSeat (Lock.table_id r) (Lock.seat_no r)])
                      (filter (fun r => String.eqb (Lock.event_id r) "default"
                                        && (now <? Lock.expires_at r))
                              (seat_locks db))).
  { unfold expand, selectActiveLocks. simpl.
    induction (seat_locks db) as [|r rows IH]; [reflexivity|]. simpl.
    destruct (Lock.expires_at r <? now) eqn:E1;
      destruct (now <? Lock.expires_at r) eqn:E2; simpl.
    - apply Z.ltb_lt in E1, E2. lia.
    - rewrite andb_false_r. exact IH.
    - rewrite E2.
      destruct (String.eqb (Lock.event_id r) "default"); simpl;
        [|exact IH].
      rewrite IH. reflexivity.
    - rewrite E2, andb_false_r. exact IH. }
  assert (Hpaid : expand (selectPaid db)
                  = flat_map
                      (fun r =>
                         if Done.seat_no r =? 0
                         then map (mkSeat (Done.table_id r))
                                [1; 2; 3; 4; 5; 6; 7; 8; 9; 10]
                         else [mkSeat (Done.table_id r) (Done.seat_no r)])
                      (filter (fun r => String.eqb (Done.event_id r) "default")
                              (done_seatlocks db))).
  { unfold expand, selectPaid.
    induction (done_seatlocks db) as [|r rows IH]; [reflexivity|]. simpl.
    destruct (String.eqb (Done.event_id r) "default"); simpl; [|exact IH].
    rewrite IH. reflexivity. }
  assert (Hmem : forall k,
            In k (expand (selectActiveLocks now (deleteExpired now db))
                  ++ expand (selectPaid db))
            <-> (exists r,
                   In r (seat_locks db) /\ Lock.event_id r = "default"
                   /\ now < Lock.expires_at r
                   /\ Lock.table_id r = tableId k
                   /\ ((Lock.seat_no r = 0 /\ 1 <= seatNo k <= 10)
                       \/ (Lock.seat_no r <> 0
                           /\ seatNo k = Lock.seat_no r)))
                \/ (exists r,
                      In r (done_seatlocks db) /\ Done.event_id r = "default"
                      /\ Done.table_id r = tableId k
                      /\ ((Done.seat_no r = 0 /\ 1 <= seatNo k <= 10)
                          \/ (Done.seat_no r <> 0
                              /\ seatNo k = Done.seat_no r)))).
  { intros k. rewrite in_app_iff, !expand_In. split.
    - intros [(s & Hs & Hk)|(s & Hs & Hk)]; apply expandRow_In in Hk;
        destruct Hk as [Htb Hk].
      + left. unfold selectActiveLocks in Hs. apply in_map_iff in Hs.
        destruct Hs as (r & <- & Hr). apply filter_In in Hr.
        destruct Hr as [Hr Hf]. apply andb_true_iff in Hf.
        destruct Hf as [He Hx]. apply String.eqb_eq in He.
        apply Z.ltb_lt in Hx. simpl in Hr. apply filter_In in Hr.
        exists r. simpl in Htb, Hk. split; [apply Hr|]. auto.
      + right. unfold selectPaid in Hs. apply in_map_iff in Hs.
        destruct Hs as (r & <- & Hr). apply filter_In in Hr.
        destruct Hr as [Hr He]. apply String.eqb_eq in He.
        exists r. simpl in Htb, Hk. auto.
    - intros [(r & Hr & He & Hx & Htb & Hk)|(r & Hr & He & Htb & Hk)].
      + left. exists (Lock.seat r). split.
        * unfold selectActiveLocks. apply in_map. apply filter_In. split.
          -- simpl. apply filter_In. split; [assumption|].
             apply negb_true_iff, Z.ltb_ge. lia.
          -- apply andb_true_iff.
             split; [now apply String.eqb_eq | now apply Z.ltb_lt].
        * apply expandRow_In. simpl. auto.
      + right. exists (Done.seat r). split.
        * unfold selectPaid. apply in_map. apply filter_In.
          split; [assumption | now apply String.eqb_eq].
        * apply expandRow_In. simpl. auto. }
  exists (deleteExpired now db),
         (expand (selectActiveLocks now (deleteExpired now db))
          ++ expand (selectPaid db)).
  split; [reflexivity|]. split; [|split; [reflexivity|]].
  { intros r. simpl. rewrite filter_In, negb_true_iff, Z.ltb_ge. split.
    - intros [H1 H2]. split; [assumption | lia].
    - intros [H1 H2]. split; [assumption | lia]. }
  split; [reflexivity|]. split; [reflexivity|].
  split; [now rewrite Htemp, Hpaid|]. split; [exact Hmem|]. split.
  - intros k Hk. apply Hmem in Hk.
    destruct Hk as [(r & _ & _ & _ & _ & Hk)|(r & _ & _ & _ & Hk)]; lia.
  - symmetry.
    apply (listActive_ignores_expired now db
             (mkDb (filter (fun r => now <? Lock.expires_at r) (seat_locks db))
                   (done_seatlocks db) (orders db) (order_items db))).
    + simpl. apply filter_twice.
    + reflexivity.
Qed.

Lemma listActive_spec_witness :
  exists db',
    listActive 1700000000000 mixedLocks
    = (Some (LocksOk
               ([seatA 1]
                ++ map (mkSeat "B") [1; 2; 3; 4; 5; 6; 7; 8; 9; 10]
                ++ map (mkSeat "C") [1; 2; 3; 4; 5; 6; 7; 8; 9; 10]
                ++ [mkSeat "D" 4])), db')
    /\ seat_locks db'
       = [Lock.mk "default" "A" 1 "H1" 1700000600000 1700000000000;
          Lock.mk "default" "B" 0 "H2" 1700000600000 1700000000000].
Proof.
  destruct (listActive_spec 1700000000000 mixedLocks)
    as (db' & locks & H1 & _ & _ & _ & _ & H2 & _).
  exists db'. rewrite H1, H2. split; [reflexivity|].
  apply (f_equal snd) in H1. simpl in H1. rewrite <- H1. reflexivity.
Defined.


(** ** Settlement: [POST /api/payment/webhook] *)

Lemma Done_hasKey_spec e tb n r :
  Done.hasKey e tb n r = true <-> Done.key r = (e, tb, n).
Proof.
  unfold Done.hasKey, Done.key.
  rewrite !andb_true_iff, !String.eqb_eq, Z.eqb_eq.
  split; [intros [[-> ->] ->]; reflexivity | intros H; inversion H; auto].
Qed.

Lemma present_iff tb n rows :
  existsb (Done.hasKey "default" tb n) rows = true
  <-> In ("default", tb, n) (map Done.key rows).
Proof.
  rewrite existsb_exists, in_map_iff.
  split; intros (r & H1 & H2); exists r.
  - split; [now apply Done_hasKey_spec | assumption].
  - split; [assumption | now apply Done_hasKey_spec].
Qed.

(** The insert is a no-op on a key that is there, and appends the row
    otherwise. *)
Lemma insertDoneRows_eq o tb n rows :
  insertDoneRows o tb n rows
  = if existsb (Done.hasKey "default" tb n) rows then rows
    else rows ++ [Done.mk "default" o tb n].
Proof.
  induction rows as [|r rows IH]; simpl; [reflexivity|].
  destruct (Done.hasKey "default" tb n r) eqn:E; simpl.
  - f_equal. apply Done_hasKey_spec in E. destruct r as [e o' tb' n'].
    unfold Done.key in E. simpl in *. inversion E; subst. reflexivity.
  - rewrite IH. now destruct (existsb _ rows).
Qed.

Lemma insertAll_cons o p pairs db :
  insertAll o (p :: pairs) db
  = insertAll o pairs (insertDone o (fst p) (snd p) db).
Proof. reflexivity. Qed.

Lemma insertAll_app o p1 p2 db :
  insertAll o (p1 ++ p2) db = insertAll o p2 (insertAll o p1 db).
Proof. unfold insertAll. apply fold_left_app. Qed.

Lemma insertAll_other_tables o pairs db :
  seat_locks (insertAll o pairs db) = seat_locks db
  /\ orders (insertAll o pairs db) = orders db
  /\ order_items (insertAll o pairs db) = order_items db.
Proof.
  revert db. induction pairs as [|p pairs IH]; intros db; [auto|].
  rewrite insertAll_cons.
  destruct (IH (insertDone o (fst p) (snd p) db)) as (H1 & H2 & H3).
  rewrite H1, H2, H3. auto.
Qed.

(** Rows that are there stay as they are, in place; the rows added are
    rows of the order at allocated keys. *)
Lemma insertAll_appends o pairs db :
  exists added,
    done_seatlocks (insertAll o pairs db) = done_seatlocks db ++ added
    /\ forall r, In r added ->
         Done.order_id r = o /\ In (Done.key r) (map doneKey pairs).
Proof.
  revert db. induction pairs as [|p pairs IH]; intros db.
  - exists []. split; [now rewrite app_nil_r | intros r []].
  - rewrite insertAll_cons.
    destruct (IH (insertDone o (fst p) (snd p) db)) as (added & E & Hadd).
    simpl in E. rewrite insertDoneRows_eq in E.
    destruct (existsb _ _).
    + exists added. split; [assumption|].
      intros r Hr. destruct (Hadd r Hr). split; [assumption | now right].
    + exists (Done.mk "default" o (fst p) (snd p) :: added).
      split; [now rewrite E, <- app_assoc|].
      intros r [<-|Hr].
      * split; [reflexivity | now left].
      * destruct (Hadd r Hr). split; [assumption | now right].
Qed.

Lemma insertDone_unique o tb n db :
  uniqueDone db -> uniqueDone (insertDone o tb n db).
Proof.
  unfold uniqueDone. simpl. rewrite insertDoneRows_eq. intros H.
  destruct (existsb _ _) eqn:E; [assumption|].
  rewrite map_app. apply NoDup_app; [assumption | repeat constructor; simpl; tauto|].
  intros k Hk [<-|[]]. unfold Done.key in Hk at 1. simpl in Hk.
  apply present_iff in Hk. congruence.
Qed.

Lemma insertAll_unique o pairs db :
  uniqueDone db -> uniqueDone (insertAll o pairs db).
Proof.
  revert db. induction pairs as [|p pairs IH]; intros db H; [assumption|].
  rewrite insertAll_cons. apply IH. now apply insertDone_unique.
Qed.

Lemma insertDone_keeps o tb n db k :
  In k (map Done.key (done_seatlocks db)) ->
  In k (map Done.key (done_seatlocks (insertDone o tb n db))).
Proof.
  simpl. rewrite insertDoneRows_eq. intros H.
  destruct (existsb _ _); [assumption|].
  rewrite map_app. apply in_or_app. now left.
Qed.

Lemma insertAll_keeps o pairs db k :
  In k (map Done.key (done_seatlocks db)) ->
  In k (map Done.key (done_seatlocks (insertAll o pairs db))).
Proof.
  revert db. induction pairs as [|p pairs IH]; intros db H; [assumption|].
  rewrite insertAll_cons. apply IH. now apply insertDone_keeps.
Qed.

(** Every allocation of the order has its row afterwards. *)
Lemma insertAll_present o pairs db p :
  In p pairs ->
  In (doneKey p) (map Done.key (done_seatlocks (insertAll o pairs db))).
Proof.
  revert db. induction pairs as [|p0 pairs IH]; intros db Hp; [destruct Hp|].
  rewrite insertAll_cons. destruct Hp as [->|Hp]; [|now apply IH].
  apply insertAll_keeps. simpl. rewrite insertDoneRows_eq.
  destruct (existsb _ _) eqn:E.
  - now apply present_iff in E.
  - rewrite map_app. apply in_or_app. right. now left.
Qed.

(** Inserting allocations that all have their row changes nothing. *)
Lemma insertAll_noop o pairs db :
  (forall p, In p pairs -> In (doneKey p) (map Done.key (done_seatlocks db))) ->
  insertAll o pairs db = db.
Proof.
  induction pairs as [|p pairs IH]; intros H; [reflexivity|].
  rewrite insertAll_cons.
  assert (E : insertDone o (fst p) (snd p) db = db).
  { unfold insertDone, withDone. rewrite insertDoneRows_eq.
    assert (Hp : existsb (Done.hasKey "default" (fst p) (snd p))
                   (done_seatlocks db) = true).
    { apply present_iff. apply (H p). now left. }
    rewrite Hp. now destruct db. }
  rewrite E. apply IH. intros q Hq. apply H. now right.
Qed.

Lemma clearHold_other_tables h db :
  done_seatlocks (clearHold h db) = done_seatlocks db
  /\ orders (clearHold h db) = orders db
  /\ order_items (clearHold h db) = order_items db.
Proof.
  unfold clearHold. destruct h as [s|]; [|auto]. now destruct (truthy _).
Qed.

Lemma clearHold_locks h s db r :
  h = Some s -> s <> "" ->
  In r (seat_locks (clearHold h db))
  <-> In r (seat_locks db) /\ Lock.hold_id r <> s.
Proof.
  intros -> Hs. unfold clearHold. simpl.
  destruct (String.eqb_spec s ""); [contradiction|]. simpl.
  rewrite filter_In, negb_true_iff.
  destruct (String.eqb_spec (Lock.hold_id r) s); split; intros [H1 H2];
    split; congruence.
Qed.

Lemma clearHold_idempotent h db : clearHold h (clearHold h db) = clearHold h db.
Proof.
  unfold clearHold. destruct h as [s|]; [|reflexivity].
  destruct (truthy (Some s)); [|reflexivity].
  unfold deleteHold, withLocks. simpl. f_equal.
  induction (seat_locks db) as [|r rows IH]; simpl; [reflexivity|].
  destruct (negb (String.eqb (Lock.hold_id r) s)) eqn:E; simpl;
    rewrite ?E, IH; reflexivity.
Qed.

(** *** Running [promote] *)

Lemma promoteSeats_run o items db0 db :
  forEach items (promoteSeat o) (mkConn db0 db true)
  = (Next tt, mkConn db0 (insertAll o (seatAllocations items) db) true).
Proof.
  revert db. induction items as [|it items IH]; intros db; [reflexivity|].
  simpl. unfold bind. unfold seatAllocations. simpl.
  rewrite insertAll_app. fold (seatAllocations items).
  unfold promoteSeat.
  destruct (Item.table_id it) as [tb|]; [|apply IH].
  destruct (Item.seat_no it) as [n|]; [|apply IH].
  destruct (isSeatItem it); [|apply IH].
  rewrite execute_in_transaction. apply IH.
Qed.

Lemma promoteVips_run o tables db0 db :
  forEach tables (fun tableId => execute (R := WebhookEnd) (insertDone o tableId 0))
    (mkConn db0 db true)
  = (Next tt,
     mkConn db0 (insertAll o (map (fun tb => (tb, 0)) tables) db) true).
Proof.
  revert db. induction tables as [|tb tables IH]; intros db; [reflexivity|].
  simpl. unfold bind. rewrite execute_in_transaction. apply IH.
Qed.

Lemma promote_run o h db0 db :
  promote o h (mkConn db0 db true)
  = (Next tt,
     mkConn db0
       (clearHold h (insertAll o (allocations (selectItems o db)) db)) true).
Proof.
  unfold promote, bind, query. simpl.
  rewrite promoteSeats_run, promoteVips_run.
  unfold allocations. rewrite insertAll_app.
  unfold clearHold. destruct h as [s|]; [|reflexivity].
  destruct (truthy (Some s)); reflexivity.
Qed.

(** *** Running the webhook *)

Lemma firstn1_head {A} (l : list A) x rest : firstn 1 l = x :: rest -> In x l.
Proof.
  destruct l as [|a l]; simpl; [discriminate|]. intros H.
  inversion H. now left.
Qed.

Lemma selectOrder_ipg k db order rest :
  selectOrder k db = order :: rest -> Order.ipg_tx_id order = Some k.
Proof.
  unfold selectOrder. intros H. apply firstn1_head in H.
  apply filter_In in H. destruct H as [_ H].
  destruct (Order.ipg_tx_id order) as [k'|]; [|discriminate].
  apply String.eqb_eq in H. now subst.
Qed.

Lemma selectOrder_setStatus k st id db :
  selectOrder k (setOrderStatus st id db)
  = map (fun o =>
           if Order.id o =? id
           then Order.mk (Order.id o) (Order.ipg_tx_id o) st (Order.hold_id o)
           else o)
        (selectOrder k db).
Proof.
  unfold selectOrder. simpl.
  induction (orders db) as [|o os IH]; simpl; [reflexivity|].
  assert (E : Order.ipg_tx_id
                (if Order.id o =? id
                 then Order.mk (Order.id o) (Order.ipg_tx_id o) st (Order.hold_id o)
                 else o)
              = Order.ipg_tx_id o) by now destruct (Order.id o =? id).
  rewrite E.
  destruct (match Order.ipg_tx_id o with
            | Some k0 => String.eqb k0 k
            | None => false
            end); simpl; [reflexivity | exact IH].
Qed.

(** A status that reads "1" passes the format check. *)
Lemma status_one_truthy p :
  payloadStatus p = "1" -> jsTruthy (rawStatus p) = true.
Proof.
  unfold payloadStatus. destruct (rawStatus p) as [| |b|z|t|items|fields];
    simpl; try discriminate; try reflexivity.
  - destruct b; discriminate.
  - intros H. destruct (Z.eqb_spec z 0) as [->|]; [discriminate H|reflexivity].
  - intros ->. reflexivity.
Qed.

Lemma webhook_confirmed p db order rest :
  transaction_id p <> "" -> payloadStatus p = "1" ->
  selectOrder (transaction_id p) db = order :: rest ->
  Order.status order = "pending" ->
  webhook p db = (Some Confirmed, settle order db).
Proof.
  intros Hk Hs Ho Hst. unfold webhook.
  destruct (String.eqb_spec (transaction_id p) ""); [contradiction|].
  rewrite (status_one_truthy p Hs). simpl.
  unfold serve, webhookHandler, tryCatch, getConnection, bind at 1,
    beginTransaction. simpl.
  unfold bind at 1. unfold query at 1. simpl. rewrite Ho, Hst, Hs. simpl.
  rewrite (selectOrder_ipg _ _ _ _ Ho). simpl.
  destruct (String.eqb_spec (transaction_id p) ""); [contradiction|].
  rewrite String.eqb_refl. simpl.
  unfold bind at 1. rewrite execute_in_transaction.
  unfold bind at 1. rewrite promote_run. reflexivity.
Qed.

Lemma settle_orders order db :
  orders (settle order db) = orders (setOrderStatus "paid" (Order.id order) db)
  /\ order_items (settle order db) = order_items db.
Proof.
  unfold settle.
  destruct (clearHold_other_tables (Order.hold_id order)
              (insertAll (Order.id order)
                 (allocations (selectItems (Order.id order) db))
                 (setOrderStatus "paid" (Order.id order) db)))
    as (_ & H2 & H3).
  destruct (insertAll_other_tables (Order.id order)
              (allocations (selectItems (Order.id order) db))
              (setOrderStatus "paid" (Order.id order) db))
    as (_ & H5 & H6).
  rewrite H2, H3, H5, H6. auto.
Qed.

(** A second delivery finds the order paid and stops. *)
Lemma webhook_redelivered p db order rest :
  transaction_id p <> "" -> payloadStatus p = "1" ->
  selectOrder (transaction_id p) db = order :: rest ->
  webhook p (settle order db)
  = (Some (AlreadyProcessed "paid"), settle order db).
Proof.
  intros Hk Hs Ho. unfold webhook.
  destruct (String.eqb_spec (transaction_id p) ""); [contradiction|].
  rewrite (status_one_truthy p Hs). simpl.
  assert (Hsel : exists o' rest',
             selectOrder (transaction_id p) (settle order db) = o' :: rest'
             /\ Order.status o' = "paid").
  { unfold selectOrder. rewrite (proj1 (settle_orders order db)).
    fold (selectOrder (transaction_id p)
            (setOrderStatus "paid" (Order.id order) db)).
    rewrite selectOrder_setStatus, Ho. simpl. rewrite Z.eqb_refl.
    eexists. eexists. split; reflexivity. }
  destruct Hsel as (o' & rest' & Hsel & Hst).
  unfold serve, webhookHandler, tryCatch, getConnection, bind at 1,
    beginTransaction. simpl.
  unfold bind at 1. unfold query at 1. simpl. rewrite Hsel, Hst. reflexivity.
Qed.

Lemma allocations_In tb n items :
  In (tb, n) (allocations items)
  <-> (exists it, In it items /\ isSeatItem it = true
                  /\ Item.table_id it = Some tb /\ Item.seat_no it = Some n)
      \/ (n = 0
          /\ exists it, In it items /\ isSeatItem it = false
                        /\ isVipItem it = true /\ Item.table_id it = Some tb).
Proof.
  unfold allocations. rewrite in_app_iff.
  enough (H : forall A B C D : Prop, (A <-> C) -> (B <-> D) ->
                                     (A \/ B <-> C \/ D)).
  2:{ intros; tauto. }
  apply H; clear H.
  - unfold seatAllocations. rewrite in_flat_map. split.
    + intros (it & Hin & H).
      destruct (Item.table_id it) as [tb'|] eqn:Et; [|destruct H].
      destruct (Item.seat_no it) as [n'|] eqn:En; [|destruct H].
      destruct (isSeatItem it) eqn:Es; [|destruct H].
      destruct H as [E|[]]. inversion E; subst. exists it. auto.
    + intros (it & Hin & Hs & Et & En). exists it. split; [assumption|].
      rewrite Et, En, Hs. now left.
  - rewrite in_map_iff. unfold vipTables. split.
    + intros (tb' & E & H). inversion E; subst. split; [reflexivity|].
      apply in_flat_map in H. destruct H as (it & Hin & H).
      destruct (Item.table_id it) as [tb'|] eqn:Et; [|destruct H].
      destruct (isSeatItem it) eqn:Es; simpl in H; [destruct H|].
      destruct (isVipItem it) eqn:Ev; [|destruct H].
      destruct H as [<-|[]]. exists it. auto.
    + intros (-> & it & Hin & Hs & Hv & Et). exists tb. split; [reflexivity|].
      apply in_flat_map. exists it. split; [assumption|].
      rewrite Et, Hs, Hv. now left.
Qed.

(** The allocations of an order, read off the rows of [order_items]. *)
Lemma allocations_raw oid db tb n :
  In (tb, n) (allocations (selectItems oid db))
  <-> exists it,
        In it (order_items db) /\ Item.order_id it = oid
        /\ Item.table_id it = Some tb /\ tb <> ""
        /\ ((Item.item_type it = "seat" /\ Item.seat_no it = Some n)
            \/ (Item.item_type it = "vipTable" /\ n = 0)).
Proof.
  rewrite allocations_In. unfold selectItems, isSeatItem, isVipItem, truthy.
  split.
  - intros [(it & Hin & Hs & Et & En)|(-> & it & Hin & Hs & Hv & Et)];
      apply filter_In in Hin; destruct Hin as [Hin Ho];
      apply Z.eqb_eq in Ho; exists it; rewrite Et in *.
    + apply andb_true_iff in Hs. destruct Hs as [Hs _].
      apply andb_true_iff in Hs. destruct Hs as [Hty Htb].
      apply String.eqb_eq in Hty.
      destruct (String.eqb_spec tb ""); [discriminate|]. auto 10.
    + apply andb_true_iff in Hv. destruct Hv as [Hty Htb].
      apply String.eqb_eq in Hty.
      destruct (String.eqb_spec tb ""); [discriminate|]. auto 10.
  - intros (it & Hin & Ho & Et & Hne & [[Hty En]|[Hty ->]]).
    + left. exists it. split.
      * apply filter_In. split; [assumption | now apply Z.eqb_eq].
      * rewrite Et, En, Hty. simpl.
        destruct (String.eqb_spec tb ""); [contradiction|]. auto.
    + right. split; [reflexivity|]. exists it. split.
      * apply filter_In. split; [assumption | now apply Z.eqb_eq].
      * rewrite Et, Hty. simpl.
        destruct (String.eqb_spec tb ""); [contradiction|]. auto.
Qed.

(** C4. Promotion is the webhook of a successful payment for a pending
    order. An insert into [done_seatlocks] at a key that has a row
    changes nothing. Promotion ends as confirmed. The rows of
    [done_seatlocks] that were there stay as they are; every row added
    is a row of the event and of the order, for one of the order's
    items: at the item's table and seat for a "seat" item, at seat 0 of
    the item's table for a "vipTable" item. Conversely every such item of
    the order that has a table (and, for a seat item, a seat number) has
    its row afterwards, and the key (event, table, seat) stays unique.
    When the order has a hold id, the temporary holds left are exactly
    those of other hold ids, whatever their table and seat; when it has
    none, the holds are left as they are. Delivering the same payment
    again stops at the paid order without an error and leaves the
    database as it is; and running the promotion steps themselves again
    changes nothing either, since every insert is then a no-op. *)
Theorem promotion_spec (p : Payload) (db : Db) (order : Order.t)
    (rest : list Order.t) :
  transaction_id p <> "" -> payloadStatus p = "1" ->
  selectOrder (transaction_id p) db = order :: rest ->
  Order.status order = "pending" ->
  uniqueDone db ->
  let db' := snd (webhook p db) in
  (forall o tb n d,
      In ("default", tb, n) (map Done.key (done_seatlocks d)) ->
      insertDone o tb n d = d)
  /\ fst (webhook p db) = Some Confirmed
  /\ (exists added,
        done_seatlocks db' = done_seatlocks db ++ added
        /\ forall r, In r added ->
             Done.event_id r = "default"
             /\ Done.order_id r = Order.id order
             /\ Done.table_id r <> ""
             /\ exists it,
                  In it (order_items db)
                  /\ Item.order_id it = Order.id order
                  /\ Item.table_id it = Some (Done.table_id r)
                  /\ ((Item.item_type it = "seat"
                       /\ Item.seat_no it = Some (Done.seat_no r))
                      \/ (Item.item_type it = "vipTable"
                          /\ Done.seat_no r = 0)))
  /\ (forall it tb,
        In it (order_items db) -> Item.order_id it = Order.id order ->
        Item.table_id it = Some tb -> tb <> "" ->
        (Item.item_type it = "seat" ->
         forall n, Item.seat_no it = Some n ->
           exists r, In r (done_seatlocks db')
                     /\ Done.key r = ("default", tb, n))
        /\ (Item.item_type it = "vipTable" ->
            exists r, In r (done_seatlocks db')
                      /\ Done.key r = ("default", tb, 0)))
  /\ uniqueDone db'
  /\ (forall h, Order.hold_id order = Some h -> h <> "" ->
        forall r, In r (seat_locks db')
                  <-> In r (seat_locks db) /\ Lock.hold_id r <> h)
  /\ (Order.hold_id order = None \/ Order.hold_id order = Some "" ->
      seat_locks db' = seat_locks db)
  /\ webhook p db' = (Some (AlreadyProcessed "paid"), db')
  /\ (forall db0,
        promote (Order.id order) (Order.hold_id order) (mkConn db0 db' true)
        = (Next tt, mkConn db0 db' true)).
Proof.
  intros Hk Hs Ho Hst Hu db'. subst db'.
  rewrite (webhook_confirmed p db order rest Hk Hs Ho Hst). simpl.
  set (o := Order.id order).
  set (pairs := allocations (selectItems o db)).
  set (paid := setOrderStatus "paid" o db).
  assert (Hdone : done_seatlocks (settle order db)
                  = done_seatlocks (insertAll o pairs paid)).
  { unfold settle. apply clearHold_other_tables. }
  assert (Hpresent : forall q, In q pairs ->
            In (doneKey q) (map Done.key (done_seatlocks (settle order db)))).
  { intros q Hq. rewrite Hdone. now apply insertAll_present. }
  assert (Hrow : forall tb n, In (tb, n) pairs ->
            exists r, In r (done_seatlocks (settle order db))
                      /\ Done.key r = ("default", tb, n)).
  { intros tb n Hq. specialize (Hpresent (tb, n) Hq).
    apply in_map_iff in Hpresent. destruct Hpresent as (r & Hr & Hin).
    exists r. auto. }
  split; [|split; [|split; [|split; [|split; [|split; [|split; [|split]]]]]]].
  - intros o' tb n d Hin. apply (insertAll_noop o' [(tb, n)] d).
    intros q [<-|[]]. exact Hin.
  - reflexivity.
  - rewrite Hdone.
    destruct (insertAll_appends o pairs paid) as (added & Ea & Hadd).
    exists added. split; [exact Ea|].
    intros r Hr. destruct (Hadd r Hr) as [Hor Hkey].
    apply in_map_iff in Hkey. destruct Hkey as ([tb n] & Ekey & Hq).
    unfold doneKey, Done.key in Ekey. simpl in Ekey.
    inversion Ekey as [[He Htb Hn]].
    apply allocations_raw in Hq.
    destruct Hq as (it & Hin & Hoid & Et & Hne & Hcase).
    subst tb n.
    split; [now symmetry|]. split; [exact Hor|]. split; [exact Hne|].
    exists it. auto.
  - intros it tb Hin Hoid Et Hne. split.
    + intros Hty n En. apply Hrow. apply allocations_raw.
      exists it. auto 10.
    + intros Hty. apply Hrow. apply allocations_raw.
      exists it. auto 10.
  - unfold uniqueDone. rewrite Hdone. now apply insertAll_unique.
  - intros h Hh Hne r. unfold settle. fold o. fold pairs. fold paid.
    rewrite (clearHold_locks _ h _ r Hh Hne).
    rewrite (proj1 (insertAll_other_tables _ _ _)). reflexivity.
  - intros Hh. unfold settle. fold o. fold pairs. fold paid.
    assert (E : clearHold (Order.hold_id order) (insertAll o pairs paid)
                = insertAll o pairs paid).
    { destruct Hh as [-> | ->]; reflexivity. }
    rewrite E. rewrite (proj1 (insertAll_other_tables _ _ _)). reflexivity.
  - now apply (webhook_redelivered p db order rest).
  - intros db0. rewrite promote_run. fold o.
    assert (Hitems : selectItems o (settle order db) = selectItems o db).
    { unfold selectItems. now rewrite (proj2 (settle_orders order db)). }
    rewrite Hitems. fold pairs.
    rewrite (insertAll_noop o pairs (settle order db) Hpresent).
    unfold settle. now rewrite clearHold_idempotent.
Qed.

Lemma promotion_spec_witness :
  fst (webhook (mkPayload "TX" (JStr "1")) pendingOrder) = Some Confirmed
  /\ done_seatlocks (snd (webhook (mkPayload "TX" (JStr "1")) pendingOrder))
     = [Done.mk "default" 7 "A" 1; Done.mk "default" 7 "C" 0]
  /\ (exists r,
        In r (done_seatlocks
                (snd (webhook (mkPayload "TX" (JStr "1")) pendingOrder)))
        /\ Done.key r = ("default", "A", 1))
  /\ (exists r,
        In r (done_seatlocks
                (snd (webhook (mkPayload "TX" (JStr "1")) pendingOrder)))
        /\ Done.key r = ("default", "C", 0))
  /\ (forall r,
        In r (seat_locks
                (snd (webhook (mkPayload "TX" (JStr "1")) pendingOrder)))
        <-> In r (seat_locks pendingOrder) /\ Lock.hold_id r <> "H1")
  /\ webhook (mkPayload "TX" (JStr "1"))
       (snd (webhook (mkPayload "TX" (JStr "1")) pendingOrder))
     = (Some (AlreadyProcessed "paid"),
        snd (webhook (mkPayload "TX" (JStr "1")) pendingOrder)).
Proof.
  assert (H1 : transaction_id (mkPayload "TX" (JStr "1")) <> "")
    by discriminate.
  assert (H2 : payloadStatus (mkPayload "TX" (JStr "1")) = "1")
    by reflexivity.
  assert (H3 : selectOrder (transaction_id (mkPayload "TX" (JStr "1")))
                 pendingOrder
               = [Order.mk 7 (Some "TX") "pending" (Some "H1")])
    by reflexivity.
  assert (H4 : Order.status (Order.mk 7 (Some "TX") "pending" (Some "H1"))
               = "pending") by reflexivity.
  assert (H5 : uniqueDone pendingOrder) by constructor.
  destruct (promotion_spec _ _ _ _ H1 H2 H3 H4 H5)
    as (_ & Hc & _ & Hitems & _ & Hholds & _ & Hr & _).
  split; [exact Hc|]. split; [reflexivity|].
  split; [|split; [|split; [|exact Hr]]].
  - refine (proj1 (Hitems (Item.mk 7 "seat" (Some "A") (Some 1)) "A"
                     _ eq_refl eq_refl _) eq_refl 1 eq_refl).
    + simpl. now left.
    + discriminate.
  - refine (proj2 (Hitems (Item.mk 7 "vipTable" (Some "C") None) "C"
                     _ eq_refl eq_refl _) eq_refl).
    + simpl. right. now left.
    + discriminate.
  - apply (Hholds "H1"); [reflexivity | discriminate].
Defined.

(** ** The store invariants along the other endpoints *)

Lemma filter_holdIds (f : Lock.t -> bool) db :
  holdIdsNonEmpty db -> holdIdsNonEmpty (withLocks (filter f) db).
Proof.
  intros H r Hr. simpl in Hr. apply filter_In in Hr. now apply H.
Qed.

Lemma filter_keys_NoDup {A K} (key : A -> K) (f : A -> bool) rows :
  NoDup (map key rows) -> NoDup (map key (filter f rows)).
Proof.
  induction rows as [|r rows IH]; simpl; intros H; [constructor|].
  inversion H as [|? ? Hr Hnd]; subst.
  destruct (f r); simpl; [|now apply IH].
  constructor; [|now apply IH].
  intros Hin. apply Hr. apply in_map_iff in Hin.
  destruct Hin as (r' & E & Hin). apply filter_In in Hin.
  rewrite <- E. apply in_map. tauto.
Qed.

Lemma listActive_preserves now db :
  holdIdsNonEmpty db -> uniqueLocks db ->
  holdIdsNonEmpty (snd (listActive now db))
  /\ uniqueLocks (snd (listActive now db)).
Proof.
  intros Hwf Hu. split.
  - now apply filter_holdIds.
  - unfold uniqueLocks. simpl. now apply filter_keys_NoDup.
Qed.

Lemma clearHold_preserves h db :
  holdIdsNonEmpty db -> uniqueLocks db ->
  holdIdsNonEmpty (clearHold h db) /\ uniqueLocks (clearHold h db).
Proof.
  intros Hwf Hu. unfold clearHold. destruct h as [s|]; [|auto].
  destruct (truthy (Some s)); [|auto]. split.
  - now apply filter_holdIds.
  - unfold uniqueLocks. simpl. now apply filter_keys_NoDup.
Qed.

(** The database a webhook leaves behind: untouched, or the order marked
    failed and its holds cleared, or the order put to review, or the order
    settled. *)
Lemma webhook_outcomes p db :
  snd (webhook p db) = db
  \/ (exists order,
        snd (webhook p db)
        = clearHold (Order.hold_id order)
            (setOrderStatus "failed" (Order.id order) db))
  \/ (exists order,
        snd (webhook p db) = setOrderStatus "review_needed" (Order.id order) db)
  \/ (exists order, snd (webhook p db) = settle order db).
Proof.
  destruct (webhook p db) as [e db'] eqn:E. simpl. revert E.
  unfold webhook. case_if; [intros E; inversion E; now left|].
  unfold serve, webhookHandler, tryCatch, getConnection.
  unfold bind at 1. unfold beginTransaction at 1. cbv beta iota.
  unfold bind at 1. unfold query at 1. cbv beta iota.
  cbn [committed working].
  destruct (selectOrder (transaction_id p) db) as [|order rest];
    [intros E; inversion E; now left|].
  destruct (negb (String.eqb (Order.status order) "pending"));
    [intros E; inversion E; now left|].
  destruct (negb (String.eqb (payloadStatus p) "1")).
  - unfold bind at 1. rewrite execute_in_transaction.
    intros E. right. left. exists order. unfold clearHold.
    destruct (Order.hold_id order) as [h|]; [|now inversion E].
    destruct (truthy (Some h)); now inversion E.
  - destruct (negb (truthy (Order.ipg_tx_id order))
              || strictNeq (transaction_id p) (Order.ipg_tx_id order)).
    + intros E. right. right. left. exists order. now inversion E.
    + unfold bind at 1. rewrite execute_in_transaction.
      unfold bind at 1. rewrite promote_run.
      intros E. right. right. right. exists order. now inversion E.
Qed.

Lemma webhook_preserves p db :
  holdIdsNonEmpty db -> uniqueLocks db ->
  holdIdsNonEmpty (snd (webhook p db)) /\ uniqueLocks (snd (webhook p db)).
Proof.
  intros Hwf Hu.
  destruct (webhook_outcomes p db)
    as [E|[(order & E)|[(order & E)|(order & E)]]]; rewrite E.
  - auto.
  - now apply clearHold_preserves.
  - auto.
  - unfold settle. apply clearHold_preserves.
    + intros r Hr. rewrite (proj1 (insertAll_other_tables _ _ _)) in Hr.
      now apply Hwf.
    + unfold uniqueLocks. now rewrite (proj1 (insertAll_other_tables _ _ _)).
Qed.

(** * Further properties of the reservation engine *)

(** ** What a granted hold implies *)

Lemma checkGroup_next_checkable e h now g c c' :
  checkGroup e h now g c = (Next tt, c') -> checkable g.
Proof.
  intros H Hm Hs. revert H.
  unfold checkGroup, bind, query, selectPaidSeats. rewrite Hm.
  rewrite (pairsSql_empty g Hs). simpl. discriminate.
Qed.

(** When the conflict loop runs to its end, every group was checkable and
    free of conflicts. *)
Lemma checkLoop_next e h now groups c c' :
  holdIdsNonEmpty (working c) ->
  forEach groups (checkGroup e h now) c = (Next tt, c') ->
  Forall (fun g => checkable g /\ ~ conflicting (working c) e h now g) groups.
Proof.
  intros Hwf. induction groups as [|g groups IH]; simpl; intros H.
  - constructor.
  - unfold bind in H.
    destruct (checkGroup_outcomes e h now g c) as [E|[E|(m & k & E)]];
      rewrite E in H; try discriminate.
    assert (Hc : checkable g) by exact (checkGroup_next_checkable _ _ _ _ _ _ E).
    constructor; [|now apply IH].
    split; [assumption|].
    destruct (checkGroup_sound e h now g c Hc Hwf)
      as [[Hn _]|(m & k & E' & _)]; [assumption|].
    rewrite E in E'. discriminate.
Qed.

(** The run of a validated request none of whose groups conflicts. *)
Lemma hold_succeeds env l ttl holdId db :
  l <> [] -> 0 < ttl -> validTime (now env + ttl * 1000) = true ->
  Forall checkable (normalize l) -> holdIdsNonEmpty db ->
  Forall (fun g => ~ conflicting db "default" holdId (now env) g)
         (normalize l) ->
  requestHold env (typedBody l ttl holdId) db
  = (Some (HoldOk (newHoldId env holdId) (resolvedSeats (normalize l))
             ((now env + ttl * 1000) / 1000)),
     granted env l ttl holdId db).
Proof.
  intros Hl Ht Hv Hchk Hwf Hnc. unfold typedBody.
  rewrite requestHold_valid by assumption.
  destruct (checkLoop_sound "default" holdId (now env) (normalize l)
              (mkConn db db true) Hchk Hwf)
    as [[_ E]|(pre & g & post & m & ks & Hsplit & _ & _ & _ & Hr)].
  - apply (holdHandler_passed _ _ _ _ _ _ _ Hv E). apply writeLoop_run.
  - exfalso. rewrite Forall_forall in Hnc. apply (Hnc g).
    + rewrite Hsplit. apply in_or_app. right. now left.
    + simpl in Hr. unfold conflicting.
      destruct Hr as [(Hs & _)|(_ & Hh & _)]; auto.
Qed.

(** The run of a validated request one of whose groups conflicts. *)
Lemma conflict_blocks env l ttl holdId db g :
  l <> [] -> 0 < ttl -> holdIdsNonEmpty db ->
  In g (normalize l) -> conflicting db "default" holdId (now env) g ->
  exists r,
    requestHold env (typedBody l ttl holdId) db = (Some r, db)
    /\ notGranted r.
Proof.
  intros Hl Ht Hwf Hg Hc. unfold typedBody.
  rewrite requestHold_valid by assumption.
  destruct (holdHandler_outcomes env l ttl holdId db)
    as [(E & _)|[(E & _)|[E|(m & k & E)]]].
  - exfalso. apply checkLoop_next in E; [|assumption].
    rewrite Forall_forall in E. destruct (E g Hg) as [_ Hn]. now apply Hn.
  - exfalso. apply checkLoop_next in E; [|assumption].
    rewrite Forall_forall in E. destruct (E g Hg) as [_ Hn]. now apply Hn.
  - rewrite E. eexists. split; [reflexivity | exact I].
  - rewrite E. eexists. split; [reflexivity | exact I].
Qed.

(** X1. A hold request whose seats are seat keys, or have a [null] or
    [undefined] among them, is all or nothing. Either it is granted and
    the database is the one with the holds of the request written: with
    the expiry of the request when that is a date, the response carrying
    it; or, when it is not, with what the store makes of an Invalid Date,
    the response carrying no expiry. Or the database is exactly as it
    was: the request is answered with a validation, conflict or server
    error or, when an element of [seats] is [null] or [undefined], the
    handler throws and sends no answer. *)
Theorem requestHold_all_or_nothing (env : Env) (body : Body) (db : Db) :
  (exists l ttl,
      seatsOrDefault (bodySeats body) = SeatsArray l
      /\ ttlOrDefault (bodyTtlSec body) = TtlNumber (Finite ttl)
      /\ validTime (now env + ttl * 1000) = true
      /\ requestHold env body db
         = (Some (HoldOk (newHoldId env (bodyHoldId body))
                    (resolvedSeats (normalize l))
                    ((now env + ttl * 1000) / 1000)),
            granted env l ttl (bodyHoldId body) db))
  \/ (exists l ttl stored,
        seatsOrDefault (bodySeats body) = SeatsArray l
        /\ ttlOrDefault (bodyTtlSec body) = TtlNumber (Finite ttl)
        /\ validTime (now env + ttl * 1000) = false
        /\ (invalidDate env = Some stored
            \/ resolvedSeats (normalize l) = [])
        /\ requestHold env body db
           = (Some (HoldOkNoExpiry (newHoldId env (bodyHoldId body))
                      (resolvedSeats (normalize l))),
              upsertKeys "default" (newHoldId env (bodyHoldId body)) stored
                (now env) (resolvedSeats (normalize l)) db))
  \/ (exists r, requestHold env body db = (Some r, db) /\ notGranted r)
  \/ (seatsOrDefault (bodySeats body) = SeatsWithNull
      /\ requestHold env body db = (None, db)).
Proof.
  unfold requestHold.
  destruct (seatsOrDefault (bodySeats body)) as [| |[|s l]|] eqn:Es; simpl;
    try (right; right; left; eexists; split; [reflexivity | exact I]).
  - destruct (ttlInvalid _) eqn:Et;
      [right; right; left; eexists; split; [reflexivity | exact I]|].
    destruct (ttlOrDefault (bodyTtlSec body)) as [| |[| | |z]] eqn:Ez;
      try discriminate.
    destruct (holdHandler_outcomes env (s :: l) z (bodyHoldId body) db)
      as [(_ & Hv & E)|[(_ & Hv & x & Hx & E)|[E|(m & k & E)]]]; rewrite E.
    + left. exists (s :: l), z. auto.
    + right. left. exists (s :: l), z, x. auto.
    + right. right. left. eexists. split; [reflexivity | exact I].
    + right. right. left. eexists. split; [reflexivity | exact I].
  - destruct (ttlInvalid _) eqn:Et;
      [right; right; left; eexists; split; [reflexivity | exact I]|].
    right. right. right. split; [reflexivity|].
    now destruct (ttlOrDefault (bodyTtlSec body)) as [| |[| | |z]].
Qed.

Lemma requestHold_all_or_nothing_witness :
  requestHold exampleEnv (mkBody SeatsWithNull TtlMissing None) heldByH1
  = (None, heldByH1).
Proof.
  destruct (requestHold_all_or_nothing exampleEnv
              (mkBody SeatsWithNull TtlMissing None) heldByH1)
    as [(l & ttl & E & _)|[(l & ttl & x & E & _)|[(r & E & _)|[_ E]]]].
  - discriminate E.
  - discriminate E.
  - discriminate E.
  - exact E.
Defined.



Lemma checkGroup_reports_iff_witness :
  reportsConflict
    (checkGroup "default" (Some "H2") (now exampleEnv)
       (mkGroup "A" partial [2; 3]) (mkConn heldByH1 heldByH1 true))
  <-> conflicting heldByH1 "default" (Some "H2") (now exampleEnv)
        (mkGroup "A" partial [2; 3]).
Proof.
  apply (checkGroup_reports_iff "default" (Some "H2") (now exampleEnv)
           (mkGroup "A" partial [2; 3]) (mkConn heldByH1 heldByH1 true)).
  - intros _. discriminate.
  - intros r [<-|[<-|[]]]; discriminate.
Defined.

Lemma requestHold_success_witness :
  exists db',
    requestHold exampleEnv
      (mkBody (SeatsArray [seatA 1; seatA 2]) (TtlNumber (Finite 600))
         (Some "H1")) emptyDb
    = (Some (HoldOk "H1" [seatA 1; seatA 2] 1700000600), db')
    /\ uniqueLocks db'.
Proof.
  destruct (requestHold_success exampleEnv [seatA 1; seatA 2] 600 (Some "H1")
              emptyDb) as (db' & H1 & _ & H2 & _).
  - discriminate.
  - lia.
  - reflexivity.
  - change (normalize [seatA 1; seatA 2]) with [mkGroup "A" partial [1; 2]].
    repeat constructor. intros _. discriminate.
  - intros r [].
  - constructor.
  - change (normalize [seatA 1; seatA 2]) with [mkGroup "A" partial [1; 2]].
    repeat constructor. intros [(r & [] & _)|(r & [] & _)].
  - exists db'. split; [exact H1 | exact H2].
Defined.

(** ** Invariants of the lock tables *)

(** X5. Each of the three endpoints keeps the two invariants of
    [seat_locks]: the key (event, table, seat) is unique, and no row has
    an empty hold id. *)
Theorem endpoints_keep_lock_invariants (db : Db) :
  holdIdsNonEmpty db -> uniqueLocks db ->
  (forall env body,
      holdIdsNonEmpty (snd (requestHold env body db))
      /\ uniqueLocks (snd (requestHold env body db)))
  /\ (forall now,
        holdIdsNonEmpty (snd (listActive now db))
        /\ uniqueLocks (snd (listActive now db)))
  /\ (forall p,
        holdIdsNonEmpty (snd (webhook p db))
        /\ uniqueLocks (snd (webhook p db))).
Proof.
  intros Hwf Hu. split; [|split].
  - intros env body. now apply requestHold_preserves.
  - intros now. now apply listActive_preserves.
  - intros p. now apply webhook_preserves.
Qed.

Lemma endpoints_keep_lock_invariants_witness :
  holdIdsNonEmpty
    (snd (requestHold exampleEnv (holdBody [seatA 3] None) heldByH1))
  /\ uniqueLocks
       (snd (requestHold exampleEnv (holdBody [seatA 3] None) heldByH1)).
Proof.
  assert (H1 : holdIdsNonEmpty heldByH1)
    by (intros r [<-|[<-|[]]]; discriminate).
  assert (H2 : uniqueLocks heldByH1).
  { repeat constructor; simpl; intuition discriminate. }
  exact (proj1 (endpoints_keep_lock_invariants heldByH1 H1 H2)
           exampleEnv (holdBody [seatA 3] None)).
Defined.

(** ** Holds against later requests *)

Lemma key_in_dec (k : string * string * Z) (l : list (string * string * Z)) :
  {In k l} + {~ In k l}.
Proof.
  apply in_dec. intros a b. repeat decide equality; apply ascii_dec.
Defined.

Lemma newHoldId_supplied env h : h <> "" -> newHoldId env (Some h) = h.
Proof.
  intros Hh. unfold newHoldId. simpl.
  destruct (String.eqb_spec h ""); [contradiction | reflexivity].
Qed.

Lemma lockKey_seat e k r :
  Lock.key r = lockKey e k -> Lock.event_id r = e /\ Lock.seat r = k.
Proof.
  unfold Lock.key, lockKey, Lock.seat. intros H. inversion H.
  destruct k. simpl in *. subst. auto.
Qed.

(** The rows of a granted request: one at every resolved key, carrying
    the hold id and the expiry of the request. *)
Lemma granted_row env l ttl holdId db k :
  uniqueLocks db -> In k (resolvedSeats (normalize l)) ->
  exists r,
    In r (seat_locks (granted env l ttl holdId db))
    /\ Lock.key r = lockKey "default" k
    /\ Lock.hold_id r = newHoldId env holdId
    /\ Lock.expires_at r = now env + ttl * 1000.
Proof.
  intros Hu Hk. unfold granted.
  pose proof (upsertKeys_present "default" (newHoldId env holdId)
                (now env + ttl * 1000) (now env)
                (resolvedSeats (normalize l)) db k Hk) as Hp.
  apply in_map_iff in Hp. destruct Hp as (r & Hr & Hin).
  exists r. split; [assumption|]. split; [assumption|].
  eapply upsertKeys_written; eauto.
  rewrite Hr. now apply in_map.
Qed.

(** X6. Renewal. After a hold is granted under a supplied hold id, a
    string that is not empty, the next request for the same seats under
    the same hold id is granted as well, at any later reading of the
    clock, also after the hold has expired, as long as no other request
    has been served in between: the caller's own holds do not conflict
    with the caller. The rows of the seats then carry the new expiry.
    Both expiries are dates, at most 8.64e15 milliseconds from the
    epoch. *)
Theorem renewal_is_granted (env env' : Env) (l : list SeatKey) (ttl ttl' : Z)
    (h : string) (db : Db) :
  l <> [] -> 0 < ttl -> 0 < ttl' -> h <> "" ->
  validTime (now env + ttl * 1000) = true ->
  validTime (now env' + ttl' * 1000) = true ->
  Forall checkable (normalize l) -> holdIdsNonEmpty db -> uniqueLocks db ->
  Forall (fun g => ~ conflicting db "default" (Some h) (now env) g)
         (normalize l) ->
  now env <= now env' ->
  let db1 := snd (requestHold env (typedBody l ttl (Some h)) db) in
  let db2 := snd (requestHold env' (typedBody l ttl' (Some h)) db1) in
  requestHold env' (typedBody l ttl' (Some h)) db1
  = (Some (HoldOk h (resolvedSeats (normalize l))
             ((now env' + ttl' * 1000) / 1000)), db2)
  /\ forall k, In k (resolvedSeats (normalize l)) ->
       exists r, In r (seat_locks db2)
                 /\ Lock.key r = lockKey "default" k
                 /\ Lock.hold_id r = h
                 /\ Lock.expires_at r = now env' + ttl' * 1000.
Proof.
  intros Hl Ht Ht' Hh Hv Hv' Hchk Hwf Hu Hnc Hle db1 db2. subst db2 db1.
  rewrite (hold_succeeds env l ttl (Some h) db Hl Ht Hv Hchk Hwf Hnc).
  cbn [snd].
  set (db1 := granted env l ttl (Some h) db).
  assert (Hwf1 : holdIdsNonEmpty db1).
  { apply upsertKeys_holdIds; [apply newHoldId_nonEmpty | assumption]. }
  assert (Hu1 : uniqueLocks db1) by now apply upsertKeys_unique.
  assert (Hnc1 : Forall (fun g => ~ conflicting db1 "default" (Some h)
                                      (now env') g) (normalize l)).
  { rewrite Forall_forall in *. intros g Hg [Hs|Hd].
    - apply (Hnc g Hg). left. destruct Hs as (r & Hr & Hs).
      exists r. split; [|assumption].
      unfold db1, granted in Hr.
      now rewrite (proj1 (upsertKeys_other_tables _ _ _ _ _ _)) in Hr.
    - destruct Hd as (r & Hr & He & Htb & Hx & Ho & Hc).
      destruct (key_in_dec (Lock.key r)
                  (map (lockKey "default") (resolvedSeats (normalize l))))
        as [Hin|Hout].
      + unfold db1, granted in Hr.
        destruct (upsertKeys_written _ _ _ _ _ _ _ Hu Hr Hin) as [Hid _].
        rewrite (newHoldId_supplied env h Hh) in Hid. now apply Ho.
      + unfold db1, granted in Hr. apply upsertKeys_others in Hr;
          [|assumption].
        apply (Hnc g Hg). right. exists r. split; [assumption|].
        repeat split; try assumption. lia. }
  rewrite (hold_succeeds env' l ttl' (Some h) db1 Hl Ht' Hv' Hchk Hwf1 Hnc1).
  cbn [snd]. rewrite (newHoldId_supplied env' h Hh). split; [reflexivity|].
  intros k Hk.
  destruct (granted_row env' l ttl' (Some h) db1 k Hu1 Hk)
    as (r & H1 & H2 & H3 & H4).
  rewrite (newHoldId_supplied env' h Hh) in H3. exists r. auto.
Qed.

Lemma renewal_is_granted_witness :
  requestHold (mkEnv 1700000900000 "0.1" None)
    (typedBody [seatA 1; seatA 2] 600 (Some "H1"))
    (snd (requestHold exampleEnv (typedBody [seatA 1; seatA 2] 600 (Some "H1"))
            emptyDb))
  = (Some (HoldOk "H1" (resolvedSeats (normalize [seatA 1; seatA 2]))
             ((now (mkEnv 1700000900000 "0.1" None) + 600 * 1000) / 1000)),
     snd (requestHold (mkEnv 1700000900000 "0.1" None)
            (typedBody [seatA 1; seatA 2] 600 (Some "H1"))
            (snd (requestHold exampleEnv
                    (typedBody [seatA 1; seatA 2] 600 (Some "H1")) emptyDb)))).
Proof.
  apply (renewal_is_granted exampleEnv (mkEnv 1700000900000 "0.1" None)
           [seatA 1; seatA 2] 600 600 "H1" emptyDb).
  - discriminate.
  - lia.
  - lia.
  - discriminate.
  - reflexivity.
  - reflexivity.
  - change (normalize [seatA 1; seatA 2]) with [mkGroup "A" partial [1; 2]].
    repeat constructor. intros _. discriminate.
  - intros r [].
  - constructor.
  - change (normalize [seatA 1; seatA 2]) with [mkGroup "A" partial [1; 2]].
    repeat constructor. intros [(r & [] & _)|(r & [] & _)].
  - simpl. lia.
Defined.

(** The run of a validated request all of whose groups can be checked
    and one of whose groups conflicts. *)
Lemma conflict_reported env l ttl holdId db g :
  l <> [] -> 0 < ttl -> holdIdsNonEmpty db ->
  Forall checkable (normalize l) ->
  In g (normalize l) -> conflicting db "default" holdId (now env) g ->
  exists message keys,
    requestHold env (typedBody l ttl holdId) db
    = (Some (ConflictFound message keys), db).
Proof.
  intros Hl Ht Hwf Hchk Hg Hc. unfold typedBody.
  rewrite requestHold_valid by assumption.
  destruct (checkLoop_sound "default" holdId (now env) (normalize l)
              (mkConn db db true) Hchk Hwf)
    as [[Hall _]|(pre & g' & post & m & keys & _ & _ & E & _)].
  - exfalso. rewrite Forall_forall in Hall. exact (Hall g Hg Hc).
  - exists m, keys. now rewrite (holdHandler_rejected _ _ _ _ _ _ _ E).
Qed.

(** X7. Mutual exclusion. After a hold is granted with an expiry that is
    a date, and until it expires, the next request under another hold id
    (or under none) is not granted whenever one of its groups collides
    with a seat key of the hold: a full-table group of the same table, or
    a partial group of the same table when the held key is the whole
    table or one of its seats. The database stays as it is. The answer
    is a conflict when every group of the request can be checked; when
    one cannot (a partial group without a positive seat), it is a
    conflict or a server error. *)
Theorem held_seats_block_other_holders (env env2 : Env) (l l2 : list SeatKey)
    (ttl ttl2 : Z) (holdId holdId2 : option string) (db : Db)
    (k : SeatKey) (g2 : Group) :
  l <> [] -> 0 < ttl -> validTime (now env + ttl * 1000) = true ->
  Forall checkable (normalize l) -> holdIdsNonEmpty db -> uniqueLocks db ->
  Forall (fun g => ~ conflicting db "default" holdId (now env) g)
         (normalize l) ->
  l2 <> [] -> 0 < ttl2 ->
  now env2 < now env + ttl * 1000 ->
  holdId2 <> Some (newHoldId env holdId) ->
  In k (resolvedSeats (normalize l)) ->
  In g2 (normalize l2) -> gtableId g2 = tableId k -> collides g2 (seatNo k) ->
  let db1 := snd (requestHold env (typedBody l ttl holdId) db) in
  (exists r,
      requestHold env2 (typedBody l2 ttl2 holdId2) db1 = (Some r, db1)
      /\ ((exists message keys, r = ConflictFound message keys)
          \/ r = ServerError "hold_failed"))
  /\ (Forall checkable (normalize l2) ->
      exists message keys,
        requestHold env2 (typedBody l2 ttl2 holdId2) db1
        = (Some (ConflictFound message keys), db1)).
Proof.
  intros Hl Ht Hv Hchk Hwf Hu Hnc Hl2 Ht2 Hx Hid Hk Hg2 Htb Hc db1. subst db1.
  rewrite (hold_succeeds env l ttl holdId db Hl Ht Hv Hchk Hwf Hnc).
  cbn [snd].
  assert (Hwf1 : holdIdsNonEmpty (granted env l ttl holdId db)).
  { apply upsertKeys_holdIds; [apply newHoldId_nonEmpty | assumption]. }
  assert (Hconf : conflicting (granted env l ttl holdId db) "default" holdId2
                    (now env2) g2).
  { right. destruct (granted_row env l ttl holdId db k Hu Hk)
      as (r & H1 & H2 & H3 & H4).
    exists r. split; [assumption|].
    destruct (lockKey_seat _ _ _ H2) as [He Hs].
    unfold heldRow. split; [assumption|].
    split; [rewrite Htb, <- Hs; reflexivity|].
    split; [lia|]. split.
    + unfold otherHold. destruct holdId2 as [h2|]; [|exact I].
      intros E. apply Hid. now rewrite <- E, H3.
    + rewrite <- Hs in Hc. exact Hc. }
  split.
  - unfold typedBody. rewrite requestHold_valid by assumption.
    destruct (holdHandler_outcomes env2 l2 ttl2 holdId2
                (granted env l ttl holdId db))
      as [(E & _)|[(E & _)|[E|(m & ks & E)]]].
    + exfalso. apply checkLoop_next in E; [|assumption].
      rewrite Forall_forall in E. destruct (E g2 Hg2) as [_ Hn].
      now apply Hn.
    + exfalso. apply checkLoop_next in E; [|assumption].
      rewrite Forall_forall in E. destruct (E g2 Hg2) as [_ Hn].
      now apply Hn.
    + rewrite E. eexists. split; [reflexivity|]. now right.
    + rewrite E. eexists. split; [reflexivity|]. left. eauto.
  - intros Hchk2.
    exact (conflict_reported env2 l2 ttl2 holdId2 _ g2 Hl2 Ht2 Hwf1 Hchk2
             Hg2 Hconf).
Qed.

Lemma held_seats_block_other_holders_witness :
  exists message keys,
    requestHold exampleEnv (typedBody [seatA 2; seatA 3] 600 (Some "H2"))
      (snd (requestHold exampleEnv (typedBody [seatA 1; seatA 2] 600 (Some "H1"))
              emptyDb))
    = (Some (ConflictFound message keys),
       snd (requestHold exampleEnv (typedBody [seatA 1; seatA 2] 600 (Some "H1"))
              emptyDb)).
Proof.
  refine (proj2 (held_seats_block_other_holders exampleEnv exampleEnv
                   [seatA 1; seatA 2] [seatA 2; seatA 3] 600 600 (Some "H1")
                   (Some "H2") emptyDb (seatA 2) (mkGroup "A" partial [2; 3])
                   _ _ _ _ _ _ _ _ _ _ _ _ _ _ _) _).
  - discriminate.
  - lia.
  - reflexivity.
  - change (normalize [seatA 1; seatA 2]) with [mkGroup "A" partial [1; 2]].
    repeat constructor. intros _. discriminate.
  - intros r [].
  - constructor.
  - change (normalize [seatA 1; seatA 2]) with [mkGroup "A" partial [1; 2]].
    repeat constructor. intros [(r & [] & _)|(r & [] & _)].
  - discriminate.
  - lia.
  - simpl. lia.
  - discriminate.
  - vm_compute. right. now left.
  - vm_compute. now left.
  - reflexivity.
  - unfold collides. simpl. right. now left.
  - change (normalize [seatA 2; seatA 3]) with [mkGroup "A" partial [2; 3]].
    repeat constructor. intros _. discriminate.
Defined.

(** ** Holds and the lock view *)

Lemma listActive_run now db :
  listActive now db
  = (Some (LocksOk (expand (selectActiveLocks now (deleteExpired now db))
                    ++ expand (selectPaid db))),
     deleteExpired now db).
Proof. reflexivity. Qed.

(** X8. After a hold is granted with an expiry that is a date, and
    until it expires, the next listing shows it: a resolved seat key
    that is not a whole-table key appears in the answer as it is, and a
    whole-table key (seat 0) through each of the seats 1 to 10 of its
    table. A second listing at the same instant gives the same answer,
    the first having removed nothing that counts. *)
Theorem granted_hold_is_listed (env : Env) (l : list SeatKey) (ttl : Z)
    (holdId : option string) (db : Db) (t : Z) (k k' : SeatKey) :
  l <> [] -> 0 < ttl -> validTime (now env + ttl * 1000) = true ->
  Forall checkable (normalize l) -> holdIdsNonEmpty db -> uniqueLocks db ->
  Forall (fun g => ~ conflicting db "default" holdId (now env) g)
         (normalize l) ->
  t < now env + ttl * 1000 ->
  In k (resolvedSeats (normalize l)) ->
  tableId k' = tableId k ->
  (seatNo k = 0 /\ 1 <= seatNo k' <= 10)
  \/ (seatNo k <> 0 /\ seatNo k' = seatNo k) ->
  let db1 := snd (requestHold env (typedBody l ttl holdId) db) in
  exists locks,
    listActive t db1 = (Some (LocksOk locks), snd (listActive t db1))
    /\ In k' locks
    /\ fst (listActive t (snd (listActive t db1))) = Some (LocksOk locks).
Proof.
  intros Hl Ht Hv Hchk Hwf Hu Hnc Hx Hk Htb Hseat db1. subst db1.
  assert (Hk' : In k' (expandRow k)) by (apply expandRow_In; auto).
  rewrite (hold_succeeds env l ttl holdId db Hl Ht Hv Hchk Hwf Hnc).
  cbn [snd].
  set (db1 := granted env l ttl holdId db).
  rewrite listActive_run. eexists. split; [reflexivity|]. split.
  - apply in_or_app. left. apply expand_In. exists k. split; [|assumption].
    destruct (granted_row env l ttl holdId db k Hu Hk)
      as (r & H1 & H2 & _ & H4).
    destruct (lockKey_seat _ _ _ H2) as [He Hs].
    unfold selectActiveLocks. rewrite <- Hs. apply in_map.
    apply filter_In. split.
    + simpl. apply filter_In. split; [exact H1|].
      apply negb_true_iff, Z.ltb_ge. lia.
    + rewrite He. simpl. apply Z.ltb_lt. lia.
  - cbn [snd]. rewrite listActive_run. cbn [fst]. f_equal. f_equal.
    f_equal. f_equal.
    unfold selectActiveLocks. f_equal. simpl.
    induction (seat_locks db1) as [|r rows IH]; simpl; [reflexivity|].
    destruct (negb (Lock.expires_at r <? t)) eqn:E; simpl;
      rewrite ?E; simpl; rewrite IH; reflexivity.
Qed.

Lemma granted_hold_is_listed_witness :
  exists locks,
    listActive 1700000000001
      (snd (requestHold exampleEnv (typedBody [seatB 0] 600 (Some "H3")) emptyDb))
    = (Some (LocksOk locks),
       snd (listActive 1700000000001
              (snd (requestHold exampleEnv (typedBody [seatB 0] 600 (Some "H3"))
                      emptyDb))))
    /\ In (seatB 7) locks
    /\ fst (listActive 1700000000001
              (snd (listActive 1700000000001
                      (snd (requestHold exampleEnv
                              (typedBody [seatB 0] 600 (Some "H3")) emptyDb)))))
       = Some (LocksOk locks).
Proof.
  apply (granted_hold_is_listed exampleEnv [seatB 0] 600 (Some "H3") emptyDb
           1700000000001 (seatB 0) (seatB 7)).
  - discriminate.
  - lia.
  - reflexivity.
  - change (normalize [seatB 0]) with [mkGroup "B" full [0]].
    repeat constructor. intros H. discriminate.
  - intros r [].
  - constructor.
  - change (normalize [seatB 0]) with [mkGroup "B" full [0]].
    repeat constructor. intros [(r & [] & _)|(r & [] & _)].
  - simpl. lia.
  - vm_compute. now left.
  - reflexivity.
  - left. simpl. lia.
Defined.

(** ** The webhook outside promotion *)

Lemma webhook_failed p db order rest :
  transaction_id p <> "" -> jsTruthy (rawStatus p) = true ->
  payloadStatus p <> "1" ->
  selectOrder (transaction_id p) db = order :: rest ->
  Order.status order = "pending" ->
  webhook p db
  = (Some MarkedFailed,
     clearHold (Order.hold_id order)
       (setOrderStatus "failed" (Order.id order) db)).
Proof.
  intros Hk Hs0 Hs1 Ho Hst. unfold webhook.
  destruct (String.eqb_spec (transaction_id p) ""); [contradiction|].
  rewrite Hs0. simpl.
  unfold serve, webhookHandler, tryCatch, getConnection.
  unfold bind at 1. unfold beginTransaction at 1. cbv beta iota.
  unfold bind at 1. unfold query at 1. cbv beta iota.
  cbn [committed working]. rewrite Ho, Hst. simpl.
  destruct (String.eqb_spec (payloadStatus p) "1"); [contradiction|].
  simpl. unfold bind at 1. rewrite execute_in_transaction.
  unfold clearHold. destruct (Order.hold_id order) as [h|]; [|reflexivity].
  destruct (truthy (Some h)); reflexivity.
Qed.

Lemma webhook_not_pending p db order rest :
  selectOrder (transaction_id p) db = order :: rest ->
  Order.status order <> "pending" ->
  webhook p db = (Some InvalidFormat, db)
  \/ webhook p db = (Some (AlreadyProcessed (Order.status order)), db).
Proof.
  intros Ho Hst. unfold webhook.
  destruct (String.eqb (transaction_id p) "" || negb (jsTruthy (rawStatus p)));
    [now left|].
  right.
  unfold serve, webhookHandler, tryCatch, getConnection.
  unfold bind at 1. unfold beginTransaction at 1. cbv beta iota.
  unfold bind at 1. unfold query at 1. cbv beta iota.
  cbn [committed working]. rewrite Ho.
  destruct (String.eqb_spec (Order.status order) "pending"); [contradiction|].
  reflexivity.
Qed.

Lemma webhook_no_order p db :
  selectOrder (transaction_id p) db = [] ->
  webhook p db = (Some InvalidFormat, db) \/ webhook p db = (Some NoOrder, db).
Proof.
  intros Ho. unfold webhook.
  destruct (String.eqb (transaction_id p) "" || negb (jsTruthy (rawStatus p)));
    [now left|].
  right.
  unfold serve, webhookHandler, tryCatch, getConnection.
  unfold bind at 1. unfold beginTransaction at 1. cbv beta iota.
  unfold bind at 1. unfold query at 1. cbv beta iota.
  cbn [committed working]. rewrite Ho. reflexivity.
Qed.

(** X9. A webhook for a pending order whose payment status passes the
    format check (it is truthy: not missing, [null], [false], 0 or the
    empty string) and does not read "1" marks the order failed and
    releases its holds: no permanent allocation is written, the holds
    left are those of other hold ids, and the order is failed for good,
    since any later webhook for the same transaction that passes the
    format check, a success included, finds it processed and changes
    nothing. *)
Theorem failed_payment_releases_hold (p : Payload) (db : Db) (order : Order.t)
    (rest : list Order.t) :
  transaction_id p <> "" -> jsTruthy (rawStatus p) = true ->
  payloadStatus p <> "1" ->
  selectOrder (transaction_id p) db = order :: rest ->
  Order.status order = "pending" ->
  let db' := snd (webhook p db) in
  fst (webhook p db) = Some MarkedFailed
  /\ done_seatlocks db' = done_seatlocks db
  /\ (forall h, Order.hold_id order = Some h -> h <> "" ->
        forall r, In r (seat_locks db')
                  <-> In r (seat_locks db) /\ Lock.hold_id r <> h)
  /\ (Order.hold_id order = None -> seat_locks db' = seat_locks db)
  /\ forall p2,
       transaction_id p2 = transaction_id p ->
       jsTruthy (rawStatus p2) = true ->
       webhook p2 db' = (Some (AlreadyProcessed "failed"), db').
Proof.
  intros Hk Hs0 Hs1 Ho Hst db'. subst db'.
  rewrite (webhook_failed p db order rest Hk Hs0 Hs1 Ho Hst). cbn [fst snd].
  split; [reflexivity|].
  split; [now rewrite (proj1 (clearHold_other_tables _ _))|].
  split; [|split].
  - intros h Hh Hne r. now rewrite (clearHold_locks _ h _ r Hh Hne).
  - intros Hn. rewrite Hn. reflexivity.
  - intros p2 Htx Hs2.
    set (db' := clearHold (Order.hold_id order)
                  (setOrderStatus "failed" (Order.id order) db)).
    assert (Hsel : exists o' rest',
               selectOrder (transaction_id p2) db' = o' :: rest'
               /\ Order.status o' = "failed").
    { rewrite Htx. unfold selectOrder, db'.
      rewrite (proj1 (proj2 (clearHold_other_tables _ _))).
      fold (selectOrder (transaction_id p)
              (setOrderStatus "failed" (Order.id order) db)).
      rewrite selectOrder_setStatus, Ho. simpl. rewrite Z.eqb_refl.
      eexists. eexists. split; reflexivity. }
    destruct Hsel as (o' & rest' & Hsel & Hst2).
    unfold webhook. rewrite Htx.
    destruct (String.eqb_spec (transaction_id p) ""); [contradiction|].
    rewrite Hs2. simpl.
    unfold serve, webhookHandler, tryCatch, getConnection.
    unfold bind at 1. unfold beginTransaction at 1. cbv beta iota.
    unfold bind at 1. unfold query at 1. cbv beta iota.
    cbn [committed working]. rewrite Hsel, Hst2. reflexivity.
Qed.

Lemma failed_payment_releases_hold_witness :
  fst (webhook (mkPayload "TX" (JNum 2)) pendingOrder) = Some MarkedFailed
  /\ done_seatlocks (snd (webhook (mkPayload "TX" (JNum 2)) pendingOrder))
     = done_seatlocks pendingOrder
  /\ webhook (mkPayload "TX" (JStr "1"))
       (snd (webhook (mkPayload "TX" (JNum 2)) pendingOrder))
     = (Some (AlreadyProcessed "failed"),
        snd (webhook (mkPayload "TX" (JNum 2)) pendingOrder)).
Proof.
  assert (H1 : transaction_id (mkPayload "TX" (JNum 2)) <> "") by discriminate.
  assert (H2 : jsTruthy (rawStatus (mkPayload "TX" (JNum 2))) = true)
    by reflexivity.
  assert (H3 : payloadStatus (mkPayload "TX" (JNum 2)) <> "1")
    by (vm_compute; discriminate).
  assert (H4 : selectOrder (transaction_id (mkPayload "TX" (JNum 2))) pendingOrder
               = [Order.mk 7 (Some "TX") "pending" (Some "H1")])
    by reflexivity.
  assert (H5 : Order.status (Order.mk 7 (Some "TX") "pending" (Some "H1"))
               = "pending") by reflexivity.
  destruct (failed_payment_releases_hold _ _ _ _ H1 H2 H3 H4 H5)
    as (Ha & Hb & _ & _ & Hc).
  split; [exact Ha|]. split; [exact Hb|].
  apply (Hc (mkPayload "TX" (JStr "1"))); reflexivity.
Defined.

(** X10. The webhook acts on pending orders only: when no order carries
    the transaction id, or the order that does is not pending, the
    database is left exactly as it was. *)
Theorem webhook_touches_pending_orders_only (p : Payload) (db : Db) :
  (forall order rest,
      selectOrder (transaction_id p) db = order :: rest ->
      Order.status order <> "pending") ->
  snd (webhook p db) = db
  /\ (fst (webhook p db) = Some InvalidFormat
      \/ fst (webhook p db) = Some NoOrder
      \/ exists st, st <> "pending"
                    /\ fst (webhook p db) = Some (AlreadyProcessed st)).
Proof.
  intros H. destruct (selectOrder (transaction_id p) db) as [|order rest] eqn:Ho.
  - destruct (webhook_no_order p db Ho) as [E|E]; rewrite E; auto.
  - specialize (H order rest eq_refl).
    destruct (webhook_not_pending p db order rest Ho H) as [E|E]; rewrite E.
    + auto.
    + split; [reflexivity|]. right. right. exists (Order.status order). auto.
Qed.

Lemma webhook_touches_pending_orders_only_witness :
  snd (webhook (mkPayload "TX" (JStr "1"))
         (snd (webhook (mkPayload "TX" (JStr "1")) pendingOrder)))
  = snd (webhook (mkPayload "TX" (JStr "1")) pendingOrder).
Proof.
  refine (proj1 (webhook_touches_pending_orders_only (mkPayload "TX" (JStr "1"))
                   (snd (webhook (mkPayload "TX" (JStr "1")) pendingOrder)) _)).
  intros order rest H. vm_compute in H. inversion H. discriminate.
Defined.

(** ** Permanent allocations *)

Lemma requestHold_db env body db :
  snd (requestHold env body db) = db
  \/ exists l x,
       snd (requestHold env body db)
       = upsertKeys "default" (newHoldId env (bodyHoldId body)) x (now env)
           (resolvedSeats (normalize l)) db.
Proof.
  unfold requestHold.
  destruct (seatsRequired _); [now left|].
  destruct (ttlInvalid _); [now left|].
  destruct (seatsOrDefault (bodySeats body)) as [| |l|]; try now left.
  destruct (ttlOrDefault (bodyTtlSec body)) as [| |[| | |z]]; try now left.
  destruct (holdHandler_outcomes env l z (bodyHoldId body) db)
    as [(_ & _ & E)|[(_ & _ & x & _ & E)|[E|(m & k & E)]]]; rewrite E;
    [| |now left|now left].
  - right. exists l, (now env + z * 1000). reflexivity.
  - right. exists l, x. reflexivity.
Qed.

(** X11. No endpoint removes or changes a permanent allocation: a row
    of [done_seatlocks] is still there, as it was, after any hold
    request, any listing and any webhook. *)
Theorem allocations_are_permanent (db : Db) (r : Done.t) :
  In r (done_seatlocks db) ->
  (forall env body, In r (done_seatlocks (snd (requestHold env body db))))
  /\ (forall now, In r (done_seatlocks (snd (listActive now db))))
  /\ (forall p, In r (done_seatlocks (snd (webhook p db)))).
Proof.
  intros Hr. split; [|split].
  - intros env body.
    destruct (requestHold_db env body db) as [E|(l & x & E)]; rewrite E.
    + assumption.
    + now rewrite (proj1 (upsertKeys_other_tables _ _ _ _ _ _)).
  - intros now. exact Hr.
  - intros p.
    destruct (webhook_outcomes p db)
      as [E|[(order & E)|[(order & E)|(order & E)]]]; rewrite E.
    + assumption.
    + now rewrite (proj1 (clearHold_other_tables _ _)).
    + exact Hr.
    + unfold settle. rewrite (proj1 (clearHold_other_tables _ _)).
      destruct (insertAll_appends (Order.id order)
                  (allocations (selectItems (Order.id order) db))
                  (setOrderStatus "paid" (Order.id order) db))
        as (added & Ea & _).
      rewrite Ea. apply in_or_app. now left.
Qed.

Lemma allocations_are_permanent_witness :
  In (Done.mk "default" 7 "A" 0)
     (done_seatlocks
        (snd (requestHold exampleEnv (holdBody [seatB 1] None) tableASold))).
Proof.
  refine (proj1 (allocations_are_permanent tableASold
                   (Done.mk "default" 7 "A" 0) _) exampleEnv
            (holdBody [seatB 1] None)).
  simpl. now left.
Defined.

(** The group of a table collides with a requested seat of the table,
    and with every seat when the whole table is requested. *)
Lemma requested_seat_collides l tb n :
  0 <= n -> In (mkSeat tb n) l \/ In (mkSeat tb 0) l ->
  exists g, In g (normalize l) /\ gtableId g = tb /\ collides g n.
Proof.
  intros Hn Hreq.
  assert (Hex : exists s, In s l /\ tableId s = tb).
  { destruct Hreq as [H|H]; eexists; split; try exact H; reflexivity. }
  destruct Hex as (s & Hs & Hts).
  destruct (normalize_has_group l s Hs) as (g & Hg & Hgt).
  rewrite Hts in Hgt. exists g. split; [assumption|]. split; [assumption|].
  unfold collides.
  destruct (normalize_group_cases l g Hg)
    as [(Hm & _)|(Hm & Hnf & _ & Hmem)]; rewrite Hm; [exact I|].
  rewrite Hgt in Hnf, Hmem.
  destruct Hreq as [H|H].
  - destruct (Z.eq_dec n 0) as [->|Hne]; [now left|].
    right. apply Hmem. split; [lia | exact H].
  - exfalso. apply Hnf. left. exact H.
Qed.

(** X12. Once an order is promoted, its seats are sold for good: in any
    later database that still has the rows of [done_seatlocks], no hold
    request that names a seat the order is allocated at, the seat number
    not being negative, or the whole table of such a seat, is granted,
    whatever its hold id. (An allocation at a negative seat number is
    not protected: the request drops the negative number.) *)
Theorem promoted_seats_are_never_held (p : Payload) (db db2 : Db)
    (order : Order.t) (rest : list Order.t) (q : string * Z)
    (env : Env) (l : list SeatKey) (ttl : Z) (holdId : option string) :
  transaction_id p <> "" -> payloadStatus p = "1" ->
  selectOrder (transaction_id p) db = order :: rest ->
  Order.status order = "pending" ->
  In q (allocations (selectItems (Order.id order) db)) -> 0 <= snd q ->
  (forall r, In r (done_seatlocks (snd (webhook p db))) ->
             In r (done_seatlocks db2)) ->
  holdIdsNonEmpty db2 ->
  0 < ttl ->
  In (mkSeat (fst q) (snd q)) l \/ In (mkSeat (fst q) 0) l ->
  exists r,
    requestHold env (typedBody l ttl holdId) db2 = (Some r, db2)
    /\ notGranted r.
Proof.
  intros Hk Hs Ho Hst Hq Hn Hsub Hwf Ht Hreq.
  assert (Hl : l <> []) by (intros ->; destruct Hreq as [[]|[]]).
  destruct (requested_seat_collides l (fst q) (snd q) Hn Hreq)
    as (g & Hg & Hgt & Hc).
  apply (conflict_blocks env l ttl holdId db2 g); try assumption.
  left.
  assert (Hrow : In (doneKey q)
                   (map Done.key (done_seatlocks (snd (webhook p db))))).
  { rewrite (webhook_confirmed p db order rest Hk Hs Ho Hst). cbn [snd].
    unfold settle. rewrite (proj1 (clearHold_other_tables _ _)).
    now apply insertAll_present. }
  apply in_map_iff in Hrow. destruct Hrow as (r & Hr & Hin).
  exists r. split; [now apply Hsub|].
  unfold Done.key, doneKey in Hr. inversion Hr as [[He Htb Hsn]].
  unfold soldRow. rewrite He, Htb, Hsn, Hgt. auto.
Qed.

Lemma promoted_seats_are_never_held_witness :
  exists r,
    requestHold exampleEnv (typedBody [seatA 1] 600 (Some "H1"))
      (snd (webhook (mkPayload "TX" (JStr "1")) pendingOrder))
    = (Some r, snd (webhook (mkPayload "TX" (JStr "1")) pendingOrder))
    /\ notGranted r.
Proof.
  apply (promoted_seats_are_never_held (mkPayload "TX" (JStr "1")) pendingOrder
           (snd (webhook (mkPayload "TX" (JStr "1")) pendingOrder))
           (Order.mk 7 (Some "TX") "pending" (Some "H1")) [] ("A", 1)).
  - discriminate.
  - reflexivity.
  - reflexivity.
  - reflexivity.
  - vm_compute. now left.
  - simpl. lia.
  - auto.
  - intros r H. vm_compute in H. destruct H.
  - lia.
  - left. now left.
Defined.

(** X13. Promotion never frees a seat in the lock view: in any later
    database that still has the rows of [done_seatlocks], every listing,
    at any time, shows each allocation of the promoted order, a
    whole-table allocation through its ten seats. *)
Theorem promoted_seats_stay_listed (p : Payload) (db db2 : Db)
    (order : Order.t) (rest : list Order.t) (q : string * Z)
    (t : Z) (k' : SeatKey) :
  transaction_id p <> "" -> payloadStatus p = "1" ->
  selectOrder (transaction_id p) db = order :: rest ->
  Order.status order = "pending" ->
  In q (allocations (selectItems (Order.id order) db)) ->
  (forall r, In r (done_seatlocks (snd (webhook p db))) ->
             In r (done_seatlocks db2)) ->
  In k' (expandRow (mkSeat (fst q) (snd q))) ->
  exists locks,
    fst (listActive t db2) = Some (LocksOk locks) /\ In k' locks.
Proof.
  intros Hk Hs Ho Hst Hq Hsub Hk'.
  rewrite listActive_run. eexists. split; [reflexivity|].
  apply in_or_app. right. apply expand_In.
  exists (mkSeat (fst q) (snd q)). split; [|assumption].
  assert (Hrow : In (doneKey q)
                   (map Done.key (done_seatlocks (snd (webhook p db))))).
  { rewrite (webhook_confirmed p db order rest Hk Hs Ho Hst). cbn [snd].
    unfold settle. rewrite (proj1 (clearHold_other_tables _ _)).
    now apply insertAll_present. }
  apply in_map_iff in Hrow. destruct Hrow as (r & Hr & Hin).
  unfold Done.key, doneKey in Hr. inversion Hr as [[He Htb Hsn]].
  unfold selectPaid. apply in_map_iff. exists r. split.
  - unfold Done.seat. now rewrite Htb, Hsn.
  - apply filter_In. split; [now apply Hsub|]. now rewrite He.
Qed.

Lemma promoted_seats_stay_listed_witness :
  exists locks,
    fst (listActive 1900000000000
           (snd (webhook (mkPayload "TX" (JStr "1")) pendingOrder)))
    = Some (LocksOk locks)
    /\ In (mkSeat "C" 4) locks.
Proof.
  apply (promoted_seats_stay_listed (mkPayload "TX" (JStr "1")) pendingOrder
           (snd (webhook (mkPayload "TX" (JStr "1")) pendingOrder))
           (Order.mk 7 (Some "TX") "pending" (Some "H1")) [] ("C", 0)).
  - discriminate.
  - reflexivity.
  - reflexivity.
  - reflexivity.
  - vm_compute. right. now left.
  - auto.
  - vm_compute. do 3 right. now left.
Defined.

(** ** Normalizing the resolved seats again *)

Lemma has_false_keys k m : JsMap.has k m = false <-> ~ In k (JsMap.keys m).
Proof.
  rewrite <- has_keys. destruct (JsMap.has k m); split; congruence.
Qed.

Lemma set_absent k v m :
  JsMap.has k m = false -> JsMap.set k v m = m ++ [(k, v)].
Proof.
  induction m as [|[k' v'] m IH]; simpl; [reflexivity|].
  destruct (String.eqb k' k); [discriminate|]. intros H. now rewrite IH.
Qed.

Lemma set_last k v v' m :
  JsMap.has k m = false ->
  JsMap.set k v (m ++ [(k, v')]) = m ++ [(k, v)].
Proof.
  induction m as [|[k0 v0] m IH]; simpl.
  - now rewrite String.eqb_refl.
  - destruct (String.eqb k0 k); [discriminate|]. intros H. now rewrite IH.
Qed.

Lemma get_last k v m :
  JsMap.has k m = false -> JsMap.get k (m ++ [(k, v)]) = v.
Proof.
  induction m as [|[k0 v0] m IH]; simpl.
  - now rewrite String.eqb_refl.
  - destruct (String.eqb k0 k); [discriminate | exact IH].
Qed.

Lemma has_last k v m : JsMap.has k (m ++ [(k, v)]) = true.
Proof.
  apply has_keys. unfold JsMap.keys. rewrite map_app. apply in_or_app.
  right. now left.
Qed.

Lemma groupSeat_first acc t n :
  JsMap.has t acc = false ->
  groupSeat acc (mkSeat t n) = acc ++ [(t, [n])].
Proof.
  intros H. unfold groupSeat. simpl. rewrite H.
  rewrite (set_absent t [] acc H), (get_last t [] acc H).
  now rewrite (set_last t _ _ acc H).
Qed.

Lemma groupSeat_next acc t pre n :
  JsMap.has t acc = false ->
  groupSeat (acc ++ [(t, pre)]) (mkSeat t n) = acc ++ [(t, pre ++ [n])].
Proof.
  intros H. unfold groupSeat. simpl. rewrite has_last.
  rewrite (get_last t pre acc H). now rewrite (set_last t _ _ acc H).
Qed.

Lemma groupFold_next acc t pre ns :
  JsMap.has t acc = false ->
  fold_left groupSeat (map (mkSeat t) ns) (acc ++ [(t, pre)])
  = acc ++ [(t, pre ++ ns)].
Proof.
  intros H. revert pre. induction ns as [|n ns IH]; intros pre; simpl.
  - now rewrite app_nil_r.
  - rewrite (groupSeat_next acc t pre n H), IH. now rewrite <- app_assoc.
Qed.

(** Grouping the seats of a map gives the map back, when its tables are
    distinct and none of its arrays is empty. *)
Lemma groupFold_entries (m acc : JsMap.t) :
  NoDup (JsMap.keys (acc ++ m)) ->
  (forall e, In e m -> snd e <> []) ->
  fold_left groupSeat
    (flat_map (fun e => map (mkSeat (fst e)) (snd e)) m) acc
  = acc ++ m.
Proof.
  revert acc. induction m as [|[t ns] m IH]; intros acc Hnd Hne; simpl.
  - now rewrite app_nil_r.
  - rewrite fold_left_app.
    assert (Ht : JsMap.has t acc = false).
    { apply has_false_keys. unfold JsMap.keys in *. rewrite map_app in Hnd.
      simpl in Hnd. apply NoDup_remove_2 in Hnd. intros H. apply Hnd.
      apply in_or_app. now left. }
    destruct ns as [|n ns]; [exfalso; apply (Hne (t, [])); [now left | reflexivity]|].
    simpl. rewrite (groupSeat_first acc t n Ht).
    rewrite (groupFold_next acc t [n] ns Ht). simpl.
    rewrite IH.
    + now rewrite <- app_assoc.
    + now rewrite <- app_assoc.
    + intros e He. apply Hne. now right.
Qed.

(** The entry a group resolves to. *)
Lemma resolvedSeats_entries groups :
  resolvedSeats groups
  = flat_map (fun e => map (mkSeat (fst e)) (snd e))
      (map (fun g => (gtableId g,
                      match mode g with full => [0] | partial => seats g end))
           groups).
Proof.
  unfold resolvedSeats. induction groups as [|g groups IH]; simpl;
    [reflexivity|].
  rewrite IH. f_equal. unfold groupSeats. now destruct (mode g).
Qed.

Lemma filter_all_true {A} (f : A -> bool) l :
  (forall x, In x l -> f x = true) -> filter f l = l.
Proof.
  induction l as [|a l IH]; simpl; intros H; [reflexivity|].
  rewrite (H a (or_introl eq_refl)). f_equal. apply IH. intros x Hx.
  apply H. now right.
Qed.

(** X14. Normalizing the resolved seats of a request gives the groups
    of the request again, provided the request names no negative seat
    number: the stored form of a request is stable. *)
Theorem normalize_resolved_idempotent (l : list SeatKey) :
  (forall s, In s l -> 0 <= seatNo s) ->
  normalize (resolvedSeats (normalize l)) = normalize l.
Proof.
  intros Hpos.
  assert (Hgroups : forall g, In g (normalize l) ->
            (mode g = full /\ seats g = [0])
            \/ (mode g = partial /\ seats g <> []
                /\ StronglySorted Z.lt (seats g)
                /\ (forall n, In n (seats g) -> 0 < n)
                /\ seats g <> oneToTen)).
  { intros g Hg.
    destruct (normalize_group_cases l g Hg)
      as [(Hm & Hs & _)|(Hm & Hnf & Hs & Hmem)]; [now left|].
    right. split; [assumption|].
    assert (Hsome : exists n, requested l (gtableId g) n).
    { assert (Ht : In (gtableId g) (map tableId l)).
      { rewrite <- groupByTable_keys, <- normalize_tables. now apply in_map. }
      apply in_map_iff in Ht. destruct Ht as ([t n] & E & Hin).
      simpl in E. subst t. now exists n. }
    assert (Hall : forall n, requested l (gtableId g) n -> In n (seats g)).
    { intros n Hn. apply Hmem. split; [|assumption].
      specialize (Hpos _ Hn). simpl in Hpos.
      destruct (Z.eq_dec n 0) as [->|]; [|lia].
      exfalso. apply Hnf. now left. }
    split; [|split; [assumption|split]].
    - destruct Hsome as (n & Hn). intros E. specialize (Hall n Hn).
      rewrite E in Hall. exact Hall.
    - intros n Hn. now apply Hmem.
    - intros E. apply Hnf. right. intros n. rewrite <- oneToTen_In, <- E.
      split; [apply Hall | intros Hn; now apply Hmem]. }
  unfold normalize at 1. rewrite resolvedSeats_entries.
  unfold groupByTable. rewrite groupFold_entries.
  - simpl. unfold normalizeGroups. rewrite map_map.
    rewrite <- (map_id (normalize l)) at 2. apply map_ext_in.
    intros g Hg.
    destruct (Hgroups g Hg) as [(Hm & Hs)|(Hm & Hne & Hs & Hp & Hnot)];
      rewrite Hm.
    + destruct g as [t m ns]. simpl in *. subst. reflexivity.
    + unfold normalizeEntry.
      assert (En : sortAsc (arrayFromSet (seats g)) = seats g).
      { apply sorted_ext; [apply nums_sorted | assumption | apply nums_In]. }
      rewrite En.
      assert (Ez : includes 0 (seats g) = false).
      { apply includes_false. intros H0. specialize (Hp 0 H0). lia. }
      rewrite Ez. simpl.
      destruct ((Z.of_nat (List.length (seats g)) =? 10)
                && everyFrom 0 (seats g)) eqn:Ef.
      * apply isOneToTen_spec in Ef. contradiction.
      * rewrite filter_all_true.
        -- destruct g as [t m ns]. simpl in *. now subst.
        -- intros n Hn. apply Z.ltb_lt. now apply Hp.
  - simpl. unfold JsMap.keys. rewrite map_map. simpl.
    change (map (fun g => gtableId g) (normalize l))
      with (map gtableId (normalize l)).
    rewrite normalize_tables. apply groupByTable_NoDup.
  - intros e He. apply in_map_iff in He. destruct He as (g & <- & Hg). simpl.
    destruct (Hgroups g Hg) as [(Hm & _)|(Hm & Hne & _)]; rewrite Hm;
      [discriminate | assumption].
Qed.

Lemma normalize_resolved_idempotent_witness :
  normalize (resolvedSeats (normalize [seatA 2; seatB 0; seatA 1; seatB 4]))
  = normalize [seatA 2; seatB 0; seatA 1; seatB 4].
Proof.
  apply (normalize_resolved_idempotent [seatA 2; seatB 0; seatA 1; seatB 4]).
  intros s [<-|[<-|[<-|[<-|[]]]]]; simpl; lia.
Defined.

(** * The items of an order *)

Lemma insertItems_rows oid items db :
  order_items
    (fold_left (fun d it => insertItem (cartRow oid it) d) items db)
  = order_items db ++ map (cartRow oid) items.
Proof.
  revert db. induction items as [|it items IH]; intros db; simpl.
  - now rewrite app_nil_r.
  - rewrite IH. simpl. now rewrite <- app_assoc.
Qed.

Lemma insertItems_other_tables oid items db :
  seat_locks (fold_left (fun d it => insertItem (cartRow oid it) d) items db)
  = seat_locks db
  /\ done_seatlocks
       (fold_left (fun d it => insertItem (cartRow oid it) d) items db)
     = done_seatlocks db
  /\ orders (fold_left (fun d it => insertItem (cartRow oid it) d) items db)
     = orders db.
Proof.
  revert db. induction items as [|it items IH]; intros db; simpl; [auto|].
  destruct (IH (insertItem (cartRow oid it) db)) as (H1 & H2 & H3).
  rewrite H1, H2, H3. auto.
Qed.

Lemma writeOrderItems_rows oid items db :
  order_items (writeOrderItems oid items db)
  = filter (fun it => negb (Item.order_id it =? oid)) (order_items db)
    ++ map (cartRow oid) items.
Proof. unfold writeOrderItems. now rewrite insertItems_rows. Qed.

Lemma filter_none {A} (f : A -> bool) l :
  (forall x, In x l -> f x = false) -> filter f l = [].
Proof.
  induction l as [|a l IH]; simpl; intros H; [reflexivity|].
  rewrite (H a (or_introl eq_refl)). apply IH. intros x Hx. apply H. now right.
Qed.

Lemma filter_filter_neg {A} (f g : A -> bool) l :
  (forall x, f x = true -> g x = false) ->
  filter g (filter f l) = [].
Proof.
  intros H. apply filter_none. intros x Hx. apply filter_In in Hx.
  apply H, Hx.
Qed.


(** X15. Writing the items of a checkout replaces the items of that
    order and nothing else: afterwards the order has exactly the rows of
    the cart, in cart order; the items of other orders and the other
    tables are untouched; and writing the same cart again, as a retry
    does, changes nothing. *)
Theorem checkout_items_replace (oid : Z) (items : list CartItem) (db : Db) :
  selectItems oid (writeOrderItems oid items db) = map (cartRow oid) items
  /\ (forall oid', oid' <> oid ->
        selectItems oid' (writeOrderItems oid items db) = selectItems oid' db)
  /\ seat_locks (writeOrderItems oid items db) = seat_locks db
  /\ done_seatlocks (writeOrderItems oid items db) = done_seatlocks db
  /\ orders (writeOrderItems oid items db) = orders db
  /\ writeOrderItems oid items (writeOrderItems oid items db)
     = writeOrderItems oid items db.
Proof.
  assert (Hrows : forall its, filter (fun it => Item.order_id it =? oid)
                                (map (cartRow oid) its)
                              = map (cartRow oid) its).
  { intros its. apply filter_all_true. intros x Hx.
    apply in_map_iff in Hx. destruct Hx as (it & <- & _). simpl.
    apply Z.eqb_refl. }
  assert (Hdrop : forall its, filter (fun it => negb (Item.order_id it =? oid))
                                (map (cartRow oid) its) = []).
  { intros its. apply filter_none. intros x Hx.
    apply in_map_iff in Hx. destruct Hx as (it & <- & _). simpl.
    now rewrite Z.eqb_refl. }
  destruct (insertItems_other_tables oid items (deleteItems oid db))
    as (H1 & H2 & H3).
  split; [|split; [|split; [|split; [|split]]]].
  - unfold selectItems. rewrite writeOrderItems_rows, filter_app, Hrows.
    rewrite filter_filter_neg; [reflexivity|].
    intros x Hx. now apply negb_true_iff in Hx.
  - intros oid' Hne. unfold selectItems.
    rewrite writeOrderItems_rows, filter_app.
    assert (E : filter (fun it => Item.order_id it =? oid')
                  (map (cartRow oid) items) = []).
    { apply filter_none. intros x Hx. apply in_map_iff in Hx.
      destruct Hx as (it & <- & _). simpl. apply Z.eqb_neq. congruence. }
    rewrite E, app_nil_r.
    induction (order_items db) as [|r rows IH]; simpl; [reflexivity|].
    destruct (Z.eqb_spec (Item.order_id r) oid) as [Eo|Eo]; simpl.
    + destruct (Z.eqb_spec (Item.order_id r) oid'); [congruence | exact IH].
    + destruct (Item.order_id r =? oid'); [now rewrite IH | exact IH].
  - exact H1.
  - exact H2.
  - exact H3.
  - assert (Eitems : order_items (writeOrderItems oid items
                                    (writeOrderItems oid items db))
                     = order_items (writeOrderItems oid items db)).
    { rewrite (writeOrderItems_rows oid items (writeOrderItems oid items db)).
      rewrite (writeOrderItems_rows oid items db), filter_app, Hdrop,
        app_nil_r.
      f_equal.
      induction (order_items db) as [|r rows IH]; simpl; [reflexivity|].
      destruct (negb (Item.order_id r =? oid)) eqn:E; simpl; rewrite ?E;
        [now rewrite IH | exact IH]. }
    destruct (insertItems_other_tables oid items
                (deleteItems oid (writeOrderItems oid items db)))
      as (G1 & G2 & G3).
    destruct (writeOrderItems oid items (writeOrderItems oid items db))
      as [a1 b1 c1 d1] eqn:E1.
    destruct (writeOrderItems oid items db) as [a2 b2 c2 d2] eqn:E2.
    unfold writeOrderItems in E1. rewrite E1 in G1, G2, G3.
    simpl in *. subst. reflexivity.
Qed.



(** * Booking from the ticket book *)

Lemma trimStart_unfold a r :
  trimStart (String a r)
  = if space1 a then trimStart r
    else
      match r with
      | EmptyString => String a r
      | String b r2 =>
          if space2 a b then trimStart r2
          else
            match r2 with
            | EmptyString => String a r
            | String c r3 =>
                if space3 a b c then trimStart r3 else String a r
            end
      end.
Proof. reflexivity. Qed.

(** What [trimStart] returns does not start with white space. *)
Lemma trimStart_idempotent s : trimStart (trimStart s) = trimStart s.
Proof.
  enough (H : forall n s, (String.length s <= n)%nat ->
                          trimStart (trimStart s) = trimStart s)
    by (apply (H (String.length s)); apply Nat.le_refl).
  clear s. induction n as [|n IH]; intros s Hn.
  - destruct s; [reflexivity | simpl in Hn; lia].
  - destruct s as [|a r]; [reflexivity|]. simpl in Hn.
    assert (Hkeep : trimStart (String a r) = String a r ->
                    trimStart (trimStart (String a r))
                    = trimStart (String a r)).
    { intros E. rewrite E. exact E. }
    pose proof (trimStart_unfold a r) as E.
    destruct (space1 a).
    { rewrite E. apply IH. lia. }
    destruct r as [|b r2]; [exact (Hkeep E)|]. simpl in Hn.
    destruct (space2 a b).
    { rewrite E. apply IH. lia. }
    destruct r2 as [|c r3]; [exact (Hkeep E)|]. simpl in Hn.
    destruct (space3 a b c).
    { rewrite E. apply IH. lia. }
    exact (Hkeep E).
Qed.

Lemma charAt0_trim t : charAt0 (trim t) = charAt0 (trimStart t).
Proof.
  unfold trim. pose proof (trimStart_idempotent t) as H.
  destruct (trimStart t) as [|c r]; [reflexivity|].
  cbn [trimEnd]. rewrite H. reflexivity.
Qed.

Lemma vip_letters c :
  existsb (String.eqb (String (upperChar c) EmptyString))
          ["A"; "B"; "C"; "D"; "E"]
  = existsb (Ascii.eqb c)
            ["A"; "B"; "C"; "D"; "E"; "a"; "b"; "c"; "d"; "e"]%char.
Proof. destruct c as [[] [] [] [] [] [] [] []]; reflexivity. Qed.

(** X17. A table is VIP exactly when the first character of its id after
    leading white space is one of A to E, in either case; the rest of the
    id plays no part, and an empty or blank id is not VIP. *)
Theorem isVip_first_letter (tableId : string) :
  isVip tableId = true
  <-> exists c rest,
        trimStart tableId = String c rest
        /\ In c ["A"; "B"; "C"; "D"; "E"; "a"; "b"; "c"; "d"; "e"]%char.
Proof.
  unfold isVip. rewrite charAt0_trim.
  destruct (trimStart tableId) as [|c r]; simpl charAt0.
  - simpl. split; [discriminate|]. intros (c & r & H & _). discriminate.
  - change (toUpperCase (String c "")) with (String (upperChar c) "").
    rewrite vip_letters, existsb_exists. split.
    + intros (x & Hx & E). apply Ascii.eqb_eq in E. subst x.
      exists c, r. auto.
    + intros (c' & r' & E & Hin). inversion E; subst.
      exists c'. split; [assumption | apply Ascii.eqb_refl].
Qed.

Lemma sum_prices tId category unit l a :
  fold_left (fun s it => s + tiPrice it)
            (map (fun n => mkTicketItem tId n category unit) l) a
  = a + unit * Z.of_nat (List.length l).
Proof.
  revert a. induction l as [|n l IH]; intros a.
  - simpl. lia.
  - cbn [map fold_left List.length]. rewrite IH. cbn [tiPrice]. lia.
Qed.

Lemma seatListOf_range seats n :
  In n (seatListOf seats) -> 1 <= n <= 10.
Proof.
  destruct seats as [l|]; simpl; [|intros []].
  intros H. apply filter_In in H. destruct H as [_ H].
  apply andb_true_iff in H. lia.
Qed.

(** X18. A booking the ticket book accepts is priced by the table alone:
    it has a table id that is not blank and at least one seat; its items
    are the requested seats that lie in 1..10, in the order and as often
    as they were sent, all at the trimmed table id; every item costs
    7500 at a VIP table and 5000 elsewhere, and the amount is that price
    times the number of items. *)
Theorem ticket_book_plan_priced (r4 r12 : string) (body : TicketBookBody)
    (db : Db) (plan : TicketPlan) :
  ticketBookPlan r4 r12 body db = inr plan ->
  let tId := trim (orEmpty (tbTableId body)) in
  let unit := if isVip tId then 7500 else 5000 in
  tId <> ""
  /\ planItems plan <> []
  /\ map tiSeatNo (planItems plan) = seatListOf (tbSeats body)
  /\ Forall (fun it => tiTableId it = tId /\ 1 <= tiSeatNo it <= 10
                       /\ tiPrice it = unit) (planItems plan)
  /\ planAmount plan = unit * Z.of_nat (List.length (planItems plan)).
Proof.
  intros H tId unit. unfold ticketBookPlan in H. fold tId in H.
  destruct (String.eqb_spec tId "") as [|Hne]; [discriminate|].
  destruct (nonEmpty (seatListOf (tbSeats body))) eqn:El; [|discriminate].
  cbn [orb negb] in H.
  destruct (nonEmpty (selectBookedSeats tId _ db)); [discriminate|].
  assert (Hunit : (if String.eqb (if isVip tId then "vip" else "general") "vip"
                   then 7500 else 5000) = unit).
  { unfold unit. now destruct (isVip tId). }
  rewrite Hunit in H. inversion H; subst plan; clear H.
  cbn [planItems planAmount].
  split; [assumption|]. split; [|split; [|split]].
  - destruct (seatListOf (tbSeats body)); [discriminate El | discriminate].
  - rewrite map_map. cbn [tiSeatNo]. apply map_id.
  - apply Forall_forall. intros it Hin. apply in_map_iff in Hin.
    destruct Hin as (n & <- & Hn). cbn [tiTableId tiSeatNo tiPrice].
    split; [reflexivity|]. split; [|reflexivity].
    now apply (seatListOf_range (tbSeats body)).
  - rewrite sum_prices, List.length_map. lia.
Qed.

Lemma ticket_book_plan_priced_witness :
  planAmount
    (mkTicketPlan
       [mkTicketItem "B7" 3 "vip" 7500; mkTicketItem "B7" 3 "vip" 7500]
       15000 "ticketbook" "Ticket Book" "TICKET_BOOK" "TBK-B7-4FZY"
       "OK_4FZYO82MVYR")
  = (if isVip (trim "  B7 ") then 7500 else 5000) * 2.
Proof.
  apply (ticket_book_plan_priced "0.4fzyo82mvyr" "0.4fzyo82mvyr"
           (mkTicketBookBody (Some "  B7 ") (Some [3; 0; 11; 3]) None None)
           emptyDb).
  reflexivity.
Defined.

Lemma selectBookedSeats_nonEmpty tId seatList db :
  nonEmpty (selectBookedSeats tId seatList db) = true
  <-> exists it n, In it (order_items db)
                   /\ Item.table_id it = Some tId
                   /\ Item.seat_no it = Some n /\ In n seatList.
Proof.
  unfold selectBookedSeats. split.
  - destruct (filter _ _) as [|it l] eqn:E; [discriminate|]. intros _.
    assert (Hin : In it (it :: l)) by now left.
    rewrite <- E in Hin. apply filter_In in Hin. destruct Hin as [Hin H].
    destruct (Item.table_id it) as [tb|] eqn:Et; [|discriminate].
    destruct (Item.seat_no it) as [n|] eqn:En; [|discriminate].
    apply andb_true_iff in H. destruct H as [H1 H2].
    apply String.eqb_eq in H1. apply includes_In in H2. subst.
    exists it, n. auto.
  - intros (it & n & Hin & Et & En & Hn).
    assert (H : In it (filter
                         (fun it =>
                            match Item.table_id it, Item.seat_no it with
                            | Some tb, Some n =>
                                String.eqb tb tId && includes n seatList
                            | _, _ => false
                            end) (order_items db))).
    { apply filter_In. split; [assumption|]. rewrite Et, En.
      rewrite String.eqb_refl. simpl. now apply includes_In. }
    destruct (filter _ _); [destruct H | reflexivity].
Qed.

(** X19. The availability check of the ticket book looks at order items
    only. For a table id that is not blank and at least one seat in
    1..10, the booking is refused as already booked exactly when some
    order item, of any order in any state, has that table and one of the
    requested seats; otherwise it is accepted. Holds, final locks,
    items without a seat number and whole-table items (seat 0) never
    refuse a booking. *)
Theorem ticket_book_availability (r4 r12 : string) (body : TicketBookBody)
    (db : Db) :
  let tId := trim (orEmpty (tbTableId body)) in
  let seatList := seatListOf (tbSeats body) in
  tId <> "" -> seatList <> [] ->
  (ticketBookPlan r4 r12 body db = inl "SEAT_ALREADY_BOOKED"
   <-> exists it n, In it (order_items db)
                    /\ Item.table_id it = Some tId
                    /\ Item.seat_no it = Some n /\ In n seatList)
  /\ (ticketBookPlan r4 r12 body db <> inl "SEAT_ALREADY_BOOKED" ->
      exists plan, ticketBookPlan r4 r12 body db = inr plan)
  /\ (forall locks sold paid,
        ticketBookPlan r4 r12 body (mkDb locks sold paid (order_items db))
        = ticketBookPlan r4 r12 body db).
Proof.
  intros tId seatList Hne Hl.
  assert (Hpass : String.eqb tId "" || negb (nonEmpty seatList) = false).
  { destruct (String.eqb_spec tId ""); [contradiction|].
    destruct seatList; [contradiction | reflexivity]. }
  split; [|split].
  - rewrite <- selectBookedSeats_nonEmpty.
    unfold ticketBookPlan. fold tId seatList. rewrite Hpass.
    destruct (nonEmpty (selectBookedSeats tId seatList db)); split;
      congruence.
  - unfold ticketBookPlan. fold tId seatList. rewrite Hpass.
    destruct (nonEmpty (selectBookedSeats tId seatList db));
      [congruence|]. intros _. eexists. reflexivity.
  - intros locks sold paid. reflexivity.
Qed.

Lemma ticket_book_availability_witness :
  exists plan,
    ticketBookPlan "0.4fzyo82mvyr" "0.4fzyo82mvyr"
      (mkTicketBookBody (Some "A") (Some [1; 2]) None (Some "PickMe"))
      (mkDb (seat_locks heldByH1) [Done.mk "default" 7 "A" 0] []
            [Item.mk 7 "vipTable" (Some "A") (Some 0)])
    = inr plan.
Proof.
  apply (ticket_book_availability "0.4fzyo82mvyr" "0.4fzyo82mvyr"
           (mkTicketBookBody (Some "A") (Some [1; 2]) None (Some "PickMe"))
           (mkDb (seat_locks heldByH1) [Done.mk "default" 7 "A" 0] []
                 [Item.mk 7 "vipTable" (Some "A") (Some 0)])).
  - discriminate.
  - discriminate.
  - vm_compute. discriminate.
Defined.

(** ** Random suffixes *)

Lemma substring_length i m s :
  String.length (substring i m s) = Nat.min m (String.length s - i).
Proof.
  revert i m. induction s as [|c s IH]; intros i m.
  - destruct i, m; simpl; try reflexivity.
  - destruct i as [|i].
    + destruct m as [|m]; [reflexivity|]. simpl. now rewrite IH, Nat.sub_0_r.
    + simpl. apply IH.
Qed.

Lemma toUpperCase_length s : String.length (toUpperCase s) = String.length s.
Proof. induction s as [|c s IH]; simpl; [reflexivity | now rewrite IH]. Qed.

Lemma upperChar_not_lower c :
  ((97 <=? nat_of_ascii (upperChar c))
   && (nat_of_ascii (upperChar c) <=? 122))%nat = false.
Proof. destruct c as [[] [] [] [] [] [] [] []]; reflexivity. Qed.

(** X24. [rand(n)] returns what the reading of the random number has
    after its first two characters, up to [n] of them: exactly
    min(n, length - 2) characters, so fewer than [n], or none at all,
    when the reading is short; and none of them is a lower-case
    letter. *)
Theorem rand_length (n : nat) (random36 : string) :
  String.length (rand n random36)
  = Nat.min n (String.length random36 - 2)
  /\ Forall (fun c => (nat_of_ascii c < 97 \/ 122 < nat_of_ascii c)%nat)
            (list_ascii_of_string (rand n random36)).
Proof.
  unfold rand, slice. split.
  - rewrite toUpperCase_length, substring_length. f_equal. lia.
  - induction (substring 2 (2 + n - 2) random36) as [|c s IH]; simpl;
      constructor; [|exact IH].
    pose proof (upperChar_not_lower c) as H.
    apply andb_false_iff in H.
    destruct H as [H|H]; apply Nat.leb_gt in H; lia.
Qed.

(** * Signed tickets *)

Lemma string_append_assoc (a b c : string) :
  String.append (String.append a b) c = String.append a (String.append b c).
Proof. induction a as [|x a IH]; simpl; [reflexivity | now rewrite IH]. Qed.

Lemma joinElement_or_empty (c : string) :
  joinElement (jsOr (JStr c) (JStr "")) = c.
Proof.
  unfold jsOr. simpl. destruct (String.eqb_spec c ""); simpl; congruence.
Qed.

Lemma stripTrailing_subset c s x :
  In x (list_ascii_of_string (stripTrailing c s)) ->
  In x (list_ascii_of_string s).
Proof.
  induction s as [|a r IH]; simpl; [auto|].
  destruct (Ascii.eqb a c && String.eqb (stripTrailing c r) ""); simpl;
    [intros [] | intros [E|H]; auto].
Qed.

Lemma stripTrailing_all c s :
  (forall x, In x (list_ascii_of_string s) -> x = c) ->
  stripTrailing c s = "".
Proof.
  induction s as [|a r IH]; simpl; intros H; [reflexivity|].
  rewrite IH by (intros x Hx; apply H; now right).
  rewrite (H a (or_introl eq_refl)), Ascii.eqb_refl. reflexivity.
Qed.

Lemma stripTrailing_padded c s :
  paddedAtEnd c s ->
  forall x, In x (list_ascii_of_string (stripTrailing c s)) -> x <> c.
Proof.
  induction s as [|a r IH]; simpl; [intros _ x []|].
  intros [Ha Hr] x Hx.
  destruct (Ascii.eqb_spec a c) as [->|Hne].
  - rewrite (stripTrailing_all c r (Ha eq_refl)) in Hx. simpl in Hx.
    destruct Hx.
  - simpl in Hx. destruct Hx as [<-|Hx]; [assumption | now apply IH].
Qed.

Lemma replaceChar_chars c d s x :
  In x (list_ascii_of_string (replaceChar c d s)) ->
  (x = d /\ In c (list_ascii_of_string s))
  \/ (x <> c /\ In x (list_ascii_of_string s)).
Proof.
  induction s as [|a r IH]; simpl; [intros []|].
  intros [E|H].
  - destruct (Ascii.eqb_spec a c) as [->|Hne].
    + left. split; [congruence | now left].
    + right. subst x. split; [assumption | now left].
  - destruct (IH H) as [[E H']|[E H']]; [left | right]; split; auto.
Qed.

Lemma replaceChar_padded p c d s :
  c <> p -> d <> p -> paddedAtEnd p s -> paddedAtEnd p (replaceChar c d s).
Proof.
  intros Hc Hd. induction s as [|a r IH]; simpl; [auto|].
  intros [Ha Hr]. split; [|now apply IH].
  destruct (Ascii.eqb_spec a c) as [->|Hne]; [congruence|].
  intros E x Hx. destruct (replaceChar_chars c d r x Hx) as [[-> H]|[_ H]].
  - specialize (Ha E c H). congruence.
  - now apply Ha.
Qed.

Lemma get_In k s c : get k s = Some c -> In c (list_ascii_of_string s).
Proof.
  revert k. induction s as [|a r IH]; intros k; simpl; [discriminate|].
  destruct k as [|k]; [intros E; inversion E; now left|].
  intros H. right. exact (IH k H).
Qed.

Lemma base64Digit_plain n : base64Digit n <> "="%char.
Proof.
  unfold base64Digit.
  destruct (get (Z.to_nat n) _) as [c|] eqn:E; [|discriminate].
  apply get_In in E.
  assert (H : forallb (fun x => negb (Ascii.eqb x "="))
                (list_ascii_of_string
                   "ABCDEFGHIJKLMNOPQRSTUVWXYZabcdefghijklmnopqrstuvwxyz0123456789+/")
              = true) by (vm_compute; reflexivity).
  rewrite forallb_forall in H. specialize (H c E).
  intros ->. discriminate H.
Qed.

Lemma base64_padded bytes : paddedAtEnd "=" (base64 bytes).
Proof.
  enough (H : paddedAtEnd "=" (base64 bytes)
              /\ (forall a, paddedAtEnd "=" (base64 (a :: bytes)))
              /\ (forall a b, paddedAtEnd "=" (base64 (a :: b :: bytes))))
    by apply H.
  assert (Hd : forall n r, paddedAtEnd "=" r ->
                           paddedAtEnd "=" (String (base64Digit n) r)).
  { intros n r Hr. split; [|assumption].
    intros E. now apply base64Digit_plain in E. }
  assert (H1 : paddedAtEnd "=" "=").
  { simpl. split; [|exact I]. intros _ x []. }
  assert (H2 : paddedAtEnd "=" "==").
  { simpl. split; [|exact H1]. intros _ x [<-|[]]. reflexivity. }
  induction bytes as [|c l IH].
  - split; [exact I|]. split.
    + intros a. cbn [base64]. apply Hd, Hd, H2.
    + intros a b. cbn [base64]. apply Hd, Hd, Hd, H1.
  - destruct IH as (IH0 & IH1 & IH2). split; [apply IH1|].
    split; [intros a; apply IH2|].
    intros a b. cbn [base64]. apply Hd, Hd, Hd, Hd, IH0.
Qed.

(** X20. The ticket encoding is safe in a URL: whatever the bytes, the
    result of [b64url] contains none of the characters "+", "/" and
    "=". *)
Theorem b64url_is_url_safe (buf : list Byte.byte) :
  Forall (fun x => x <> "+"%char /\ x <> "/"%char /\ x <> "="%char)
         (list_ascii_of_string (b64url buf)).
Proof.
  apply Forall_forall. intros x Hx. unfold b64url in Hx.
  split; [|split].
  - apply stripTrailing_subset in Hx.
    destruct (replaceChar_chars _ _ _ _ Hx) as [[-> _]|[_ H]];
      [discriminate|].
    destruct (replaceChar_chars _ _ _ _ H) as [[-> _]|[H' _]];
      [discriminate | assumption].
  - apply stripTrailing_subset in Hx.
    destruct (replaceChar_chars _ _ _ _ Hx) as [[-> _]|[H _]];
      [discriminate | assumption].
  - revert x Hx. apply stripTrailing_padded.
    apply replaceChar_padded; [discriminate | discriminate |].
    apply replaceChar_padded; [discriminate | discriminate |].
    apply base64_padded.
Qed.

(** X21. The signature of a ticket covers the order id, the order
    reference, the transaction id and the issue time only. Two truthy
    values that agree on [typ], [v], [sig] and these four fields get the
    same verdict, so the seats of an accepted ticket, and any other
    field, can be replaced and the ticket is still accepted. *)
Theorem ticket_seats_are_not_signed
    (hmacSha256 : string -> string -> list Byte.byte)
    (QR_SIGNING_SECRET : string) (data data' : Json) :
  jsTruthy data' = true ->
  (forall k, In k ["typ"; "v"; "sig"; "orderId"; "orderRef"; "txId"; "iat"] ->
             prop k data' = prop k data) ->
  (verifyQrData hmacSha256 QR_SIGNING_SECRET data = QrAccepted data ->
   verifyQrData hmacSha256 QR_SIGNING_SECRET data' = QrAccepted data')
  /\ (forall reason,
        verifyQrData hmacSha256 QR_SIGNING_SECRET data = QrRejected reason ->
        verifyQrData hmacSha256 QR_SIGNING_SECRET data' = QrRejected reason).
Proof.
  intros Ht Hk.
  assert (Hs : signFields hmacSha256 QR_SIGNING_SECRET data'
               = signFields hmacSha256 QR_SIGNING_SECRET data).
  { unfold signFields, signedString.
    rewrite !Hk by (simpl; tauto). reflexivity. }
  assert (Hfalsy : jsTruthy data = false -> prop "typ" data = JUndefined).
  { destruct data; simpl; try discriminate; try reflexivity. }
  unfold verifyQrData. rewrite Hs, !Hk by (simpl; tauto). rewrite Ht.
  destruct (jsTruthy data) eqn:Etr.
  - split; cbn [negb orb].
    + destruct (negb (isString "eventz_ticket" (prop "typ" data))
                || negb (isNumber 1 (prop "v" data))); [discriminate|].
      destruct (negb (isString _ (prop "sig" data))); [discriminate|].
      reflexivity.
    + intros reason.
      destruct (negb (isString "eventz_ticket" (prop "typ" data))
                || negb (isNumber 1 (prop "v" data))); [auto|].
      destruct (negb (isString _ (prop "sig" data)));
        [auto | discriminate].
  - rewrite (Hfalsy eq_refl). simpl. split; [discriminate | auto].
Qed.

(** X22. A ticket that was built verifies: if parsing the text of the
    built ticket gives the ticket back, [verifyQrJson] accepts the
    result of [buildQrJson] and returns its payload, for every order id,
    reference, transaction id, seats value and clock. *)
Theorem built_ticket_verifies
    (hmacSha256 : string -> string -> list Byte.byte)
    (JSON_parse : string -> option Json) (JSON_stringify : Json -> string)
    (QR_SIGNING_SECRET : string) (orderId orderRef txId seats : Json)
    (nowMs : Z) :
  let payload :=
    buildQrPayload hmacSha256 QR_SIGNING_SECRET orderId orderRef txId seats
      nowMs in
  JSON_parse (JSON_stringify payload) = Some payload ->
  verifyQrJson hmacSha256 JSON_parse QR_SIGNING_SECRET
    (buildQrJson hmacSha256 JSON_stringify QR_SIGNING_SECRET
       orderId orderRef txId seats nowMs)
  = QrAccepted payload.
Proof.
  intros payload Hparse. unfold verifyQrJson, buildQrJson.
  fold payload. rewrite Hparse.
  unfold payload, buildQrPayload, verifyQrData, signFields,
    signedString.
  cbn [assign assignField prop lookupField String.eqb Ascii.eqb Bool.eqb
       jsTruthy isString isNumber negb orb Z.eqb Pos.eqb].
  rewrite String.eqb_refl. reflexivity.
Qed.

(** X23. The fields that are signed are joined by "|" without escaping,
    so the signature does not fix where one field ends: moving the text
    after a "|" of the order reference to the front of the transaction
    id leaves the signature unchanged. *)
Theorem signature_separator_ambiguity
    (hmacSha256 : string -> string -> list Byte.byte)
    (QR_SIGNING_SECRET : string) (orderId iat : Json) (a b c : string) :
  signFields hmacSha256 QR_SIGNING_SECRET
    (JObj [("orderId", orderId);
              ("orderRef", JStr (String.append a (String.append "|" b)));
              ("txId", JStr c);
              ("iat", iat)])
  = signFields hmacSha256 QR_SIGNING_SECRET
      (JObj [("orderId", orderId);
                ("orderRef", JStr a);
                ("txId", JStr (String.append b (String.append "|" c)));
                ("iat", iat)]).
Proof.
  unfold signFields. f_equal. f_equal. unfold signedString.
  cbn [prop lookupField String.eqb Ascii.eqb Bool.eqb].
  unfold jsJoin. cbn [map join]. rewrite !joinElement_or_empty.
  cbn [joinElement jsString]. f_equal.
  now rewrite !string_append_assoc.
Qed.

Lemma ticket_seats_are_not_signed_witness :
  verifyQrData exampleHmac "k"
    (assign "seats" (JArr [JStr "A-1"; JStr "A-2"; JStr "A-3"]) exampleTicket)
  = QrAccepted
      (assign "seats" (JArr [JStr "A-1"; JStr "A-2"; JStr "A-3"])
         exampleTicket).
Proof.
  refine (proj1 (ticket_seats_are_not_signed exampleHmac "k" exampleTicket
                   (assign "seats" (JArr [JStr "A-1"; JStr "A-2"; JStr "A-3"])
                      exampleTicket) eq_refl _) _).
  - intros k Hk. simpl in Hk.
    repeat (destruct Hk as [<-|Hk]; [reflexivity|]). destruct Hk.
  - vm_compute. reflexivity.
Defined.

Lemma built_ticket_verifies_witness :
  verifyQrJson exampleHmac (fun _ => Some exampleTicket) "k"
    (buildQrJson exampleHmac jsString "k"
       (JNum 7) (JStr "ORD-7") JNull (JArr [JStr "A-1"]) 1700000000000)
  = QrAccepted exampleTicket.
Proof.
  apply (built_ticket_verifies exampleHmac (fun _ => Some exampleTicket)
           jsString "k" (JNum 7) (JStr "ORD-7") JNull (JArr [JStr "A-1"])
           1700000000000).
  reflexivity.
Defined.

(** ** Scenarios *)

Example scenario_generated_id : generateHoldId exampleEnv = "HLOYW3V284FZYO8".
Proof. reflexivity. Qed.

Example scenario_hold :
  requestHold exampleEnv (holdBody [seatA 1; seatA 2] (Some "H1")) emptyDb
  = (Some (HoldOk "H1" [seatA 1; seatA 2] 1700000600), heldByH1).
Proof. reflexivity. Qed.

Example scenario_conflict :
  requestHold exampleEnv (holdBody [seatA 2; seatA 3] (Some "H2")) heldByH1
  = (Some (ConflictFound "Some seats already held" [seatA 2]), heldByH1).
Proof. reflexivity. Qed.

Example scenario_renewal :
  requestHold (mkEnv 1700000300000 "0.1" None)
    (holdBody [seatA 1; seatA 2] (Some "H1")) heldByH1
  = (Some (HoldOk "H1" [seatA 1; seatA 2] 1700000900),
     mkDb [Lock.mk "default" "A" 1 "H1" 1700000900000 1700000000000;
           Lock.mk "default" "A" 2 "H1" 1700000900000 1700000000000]
          [] [] []).
Proof. reflexivity. Qed.

Example scenario_full_table :
  requestHold exampleEnv (holdBody (map seatB oneToTen) (Some "H3")) emptyDb
  = (Some (HoldOk "H3" [seatB 0] 1700000600),
     mkDb [Lock.mk "default" "B" 0 "H3" 1700000600000 1700000000000] [] [] [])
  /\ fst (listActive 1700000000001
            (mkDb [Lock.mk "default" "B" 0 "H3" 1700000600000 1700000000000]
                  [] [] []))
     = Some (LocksOk (map seatB oneToTen)).
Proof. split; reflexivity. Qed.

Example scenario_sold_table :
  requestHold exampleEnv (holdBody [seatA 0] None)
    (mkDb [] [Done.mk "default" 7 "A" 4] [] [])
  = (Some (ConflictFound "Some seats already sold" [seatA 0]),
     mkDb [] [Done.mk "default" 7 "A" 4] [] []).
Proof. reflexivity. Qed.

Example scenario_expired :
  listActive 1800000000000 heldByH1 = (Some (LocksOk []), emptyDb).
Proof. reflexivity. Qed.

Example scenario_promotion :
  webhook (mkPayload "TX" (JStr "1")) pendingOrder
  = (Some Confirmed,
     mkDb [] [Done.mk "default" 7 "A" 1; Done.mk "default" 7 "C" 0]
          [Order.mk 7 (Some "TX") "paid" (Some "H1")]
          (order_items pendingOrder)).
Proof. reflexivity. Qed.

Example scenario_null_element :
  requestHold exampleEnv (mkBody SeatsWithNull (TtlNumber (Finite 600)) None)
    heldByH1
  = (None, heldByH1).
Proof. reflexivity. Qed.

Example scenario_invalid_date_stored :
  requestHold exampleEnv
    (mkBody (SeatsArray [seatA 1]) (TtlNumber (Finite 8640000000000))
       (Some "H1")) emptyDb
  = (Some (HoldOkNoExpiry "H1" [seatA 1]),
     mkDb [Lock.mk "default" "A" 1 "H1" 0 1700000000000] [] [] []).
Proof. reflexivity. Qed.

Example scenario_invalid_date_rejected :
  requestHold (mkEnv 1700000000000 "0.4fzyo82mvyr" None)
    (mkBody (SeatsArray [seatA 1]) (TtlNumber (Finite 8640000000000))
       (Some "H1")) emptyDb
  = (Some (ServerError "hold_failed"), emptyDb).
Proof. reflexivity. Qed.

Example scenario_status_zero :
  webhook (mkPayload "TX" (JNum 0)) pendingOrder
  = (Some InvalidFormat, pendingOrder).
Proof. reflexivity. Qed.

Example scenario_status_number_one :
  fst (webhook (mkPayload "TX" (JNum 1)) pendingOrder) = Some Confirmed
  /\ fst (webhook (mkPayload "TX" (JArr [JStr "1"])) pendingOrder)
     = Some Confirmed
  /\ fst (webhook (mkPayload "TX" (JStr "0")) pendingOrder)
     = Some MarkedFailed.
Proof. repeat split. Qed.

Example scenario_vip_after_no_break_space :
  trim (String (ascii_of_nat 194) (String (ascii_of_nat 160) "A1 ")) = "A1"
  /\ isVip (String (ascii_of_nat 194) (String (ascii_of_nat 160) "A1")) = true
  /\ isVip (String (ascii_of_nat 239)
              (String (ascii_of_nat 187) (String (ascii_of_nat 191) "b2")))
     = true
  /\ isVip (String (ascii_of_nat 226)
              (String (ascii_of_nat 128) (String (ascii_of_nat 131) "C")))
     = true
  /\ ticketBookPlan "0.4fzyo82mvyr" "0.4fzyo82mvyr"
       (mkTicketBookBody
          (Some (String (ascii_of_nat 226)
                   (String (ascii_of_nat 128) (String (ascii_of_nat 131) ""))))
          (Some [1]) None None) emptyDb
     = inl "BAD_ITEM".
Proof. repeat split. Qed.
